(** * Tatlin: geometry construction and view transforms

    A shallow embedding of the geometry/view core of tatlin
    ([libtatlin/vector.py], [libtatlin/actors.py], [libtatlin/views.py])
    together with the properties its specification states about it.

    Numbers.  [views.py] is plain Python: its camera parameters are Python
    floats, that is IEEE 754 binary64 values, and they are modelled by Rocq's
    primitive [float] (the same format, round to nearest even), so literals
    such as [1.2] and [0.83] denote exactly the doubles Python uses.  The
    integer constants of the module ([ZOOM_MAX = 1000], [PAN_FACTOR = 4]) and
    integer mouse deltas take part in float arithmetic only; they are written
    as the floats Python converts them to.

    [vector.py] and [actors.py] compute with two kinds of numbers: Python
    floats (the arguments of the transformations, the entries of the
    rotation matrix before it is stored) and the items of numpy arrays of
    dtype ['f'], IEEE 754 binary32.  Their arithmetic is taken as an
    interface ([Num.Arith] for the operations of Python and numpy,
    [Num.Math] for what the C library computes): the operations on Python
    floats, the conversion to binary32 and the operations on array items are
    separate members of it.  The structural properties of the buffers are
    proved for every implementation of the interface.  Two implementations
    are given.  [FArith] is IEEE arithmetic as [SpecFloat] defines it,
    binary64 for Python floats and binary32 for array items, with the C
    library's [pow], [cos] and [sin] left as unknown functions ([FMath]);
    what depends on rounding is stated there.  [RArith] reads every
    operation over the real numbers, without rounding; it is used where the
    two readings agree: comparisons, minima and maxima, tests for zero, and
    runs on small integers.

    Arrays.  An array of vertices is modelled by the list of its rows along
    the first axis, the axis [len] counts and the loops append to; a row is
    a triple of coordinates.  An array made from an empty list has the one
    axis of length 0, and numpy refuses to combine it with rows of three
    items: the functions that do so raise [ValueError] on an empty list.

    Errors.  A Python exception is a [Raise] result; every function that can
    raise returns a [result].  Two exceptions of the Python runtime are left
    out, and with them the arguments that cause them: [math.cos] and
    [math.sin] raise [ValueError] on an infinite argument, and [**] raises
    [OverflowError] when the power is too large for a double.  Angles are
    finite numbers of degrees and axis coordinates have finite squares.

    Drawing.  OpenGL calls are not modelled, and neither are the errors
    OpenGL reports; a draw method is modelled by the range it hands to
    [glDrawArrays], a projection set-up by the call it reaches. *)

From Stdlib Require Import ZArith List Sorted Permutation Bool Lia Floats QArith Reals Lra Qreals.
Import ListNotations.
Set Warnings "-inexact-float".

(* ================================================================== *)
(** * Part I: the embedding *)
(* ================================================================== *)

(** ** Python runtime: exceptions and lists *)

Module Py.

Inductive exn : Type :=
| ZeroDivisionError
| IndexError
| ValueError
| AssertionError.

Inductive result (A : Type) : Type :=
| Ok (a : A)
| Raise (e : exn).

Arguments Ok {A} a.
Arguments Raise {A} e.

Definition bind {A B : Type} (r : result A) (k : A -> result B) : result B :=
  match r with
  | Ok a => k a
  | Raise e => Raise e
  end.

(** [len(l)], a Python int. *)
Definition len {A : Type} (l : list A) : Z := Z.of_nat (length l).

(** [l[i]] for a Python list: a negative index counts from the end, an
    index outside [-len(l), len(l)) raises [IndexError]. *)
Definition getitem {A : Type} (l : list A) (i : Z) : result A :=
  let j := if (i <? 0)%Z then (i + len l)%Z else i in
  if (j <? 0)%Z then Raise IndexError
  else match nth_error l (Z.to_nat j) with
       | Some a => Ok a
       | None => Raise IndexError
       end.

(** [l.pop()]: removes and returns the last item; [IndexError] on an empty
    list.  The result is the shortened list and the item. *)
Definition pop {A : Type} (l : list A) : result (list A * A) :=
  match rev l with
  | [] => Raise IndexError
  | a :: r => Ok (rev r, a)
  end.

(** [assert cond]. *)
Definition assert (cond : bool) : result unit :=
  if cond then Ok tt else Raise AssertionError.

(** [for item in items: body], the body working on a state; the loop
    stops at the first iteration that raises. *)
Fixpoint for_each {S T : Type} (body : S -> T -> result S) (items : list T) (st : S)
  : result S :=
  match items with
  | [] => Ok st
  | item :: rest =>
      match body st item with
      | Ok st' => for_each body rest st'
      | Raise e => Raise e
      end
  end.

End Py.

Export Py.

Declare Scope py_scope.
Delimit Scope py_scope with py.
Notation "x <- e ;; k" := (bind e (fun x => k))
  (at level 61, e at next level, right associativity) : py_scope.
Notation "e ;;; k" := (bind e (fun _ => k))
  (at level 61, right associativity) : py_scope.

(** ** views.py *)

Module Views.

Local Open Scope float_scope.

(** The two concrete classes derived from [ViewMode]. *)
Inductive view_class : Type := View2D | View3D.

(** The attribute names that may be listed in [_save_vars]. *)
Inductive attr : Type :=
| attr_x | attr_y | attr_z | attr_zoom_factor | attr_azimuth | attr_elevation.

(** An instance of [View2D] or [View3D].  [elevation] and [ortho] exist on
    [View3D] instances only; a [View2D] never reads or writes them. *)
Record ViewMode : Type := {
  cls : view_class;
  x : float;
  y : float;
  z : float;
  zoom_factor : float;
  azimuth : float;
  elevation : float;
  supports_ortho : bool;
  ortho : bool;
  _stack : list float;
  _save_vars : list attr
}.

Definition ZOOM_MIN : float := 0.1.
Definition ZOOM_MAX : float := 1000.
Definition PAN_FACTOR : float := 4.

Definition getattr (self : ViewMode) (var : attr) : float :=
  match var with
  | attr_x => x self
  | attr_y => y self
  | attr_z => z self
  | attr_zoom_factor => zoom_factor self
  | attr_azimuth => azimuth self
  | attr_elevation => elevation self
  end.

Definition set_x (self : ViewMode) (v : float) : ViewMode :=
  {| cls := cls self; x := v; y := y self; z := z self;
     zoom_factor := zoom_factor self; azimuth := azimuth self;
     elevation := elevation self; supports_ortho := supports_ortho self;
     ortho := ortho self; _stack := _stack self; _save_vars := _save_vars self |}.

Definition set_y (self : ViewMode) (v : float) : ViewMode :=
  {| cls := cls self; x := x self; y := v; z := z self;
     zoom_factor := zoom_factor self; azimuth := azimuth self;
     elevation := elevation self; supports_ortho := supports_ortho self;
     ortho := ortho self; _stack := _stack self; _save_vars := _save_vars self |}.

Definition set_z (self : ViewMode) (v : float) : ViewMode :=
  {| cls := cls self; x := x self; y := y self; z := v;
     zoom_factor := zoom_factor self; azimuth := azimuth self;
     elevation := elevation self; supports_ortho := supports_ortho self;
     ortho := ortho self; _stack := _stack self; _save_vars := _save_vars self |}.

Definition set_zoom_factor (self : ViewMode) (v : float) : ViewMode :=
  {| cls := cls self; x := x self; y := y self; z := z self;
     zoom_factor := v; azimuth := azimuth self;
     elevation := elevation self; supports_ortho := supports_ortho self;
     ortho := ortho self; _stack := _stack self; _save_vars := _save_vars self |}.

Definition set_azimuth (self : ViewMode) (v : float) : ViewMode :=
  {| cls := cls self; x := x self; y := y self; z := z self;
     zoom_factor := zoom_factor self; azimuth := v;
     elevation := elevation self; supports_ortho := supports_ortho self;
     ortho := ortho self; _stack := _stack self; _save_vars := _save_vars self |}.

Definition set_elevation (self : ViewMode) (v : float) : ViewMode :=
  {| cls := cls self; x := x self; y := y self; z := z self;
     zoom_factor := zoom_factor self; azimuth := azimuth self;
     elevation := v; supports_ortho := supports_ortho self;
     ortho := ortho self; _stack := _stack self; _save_vars := _save_vars self |}.

Definition set_stack (self : ViewMode) (s : list float) : ViewMode :=
  {| cls := cls self; x := x self; y := y self; z := z self;
     zoom_factor := zoom_factor self; azimuth := azimuth self;
     elevation := elevation self; supports_ortho := supports_ortho self;
     ortho := ortho self; _stack := s; _save_vars := _save_vars self |}.

Definition setattr (self : ViewMode) (var : attr) (v : float) : ViewMode :=
  match var with
  | attr_x => set_x self v
  | attr_y => set_y self v
  | attr_z => set_z self v
  | attr_zoom_factor => set_zoom_factor self v
  | attr_azimuth => set_azimuth self v
  | attr_elevation => set_elevation self v
  end.

(** [push_state]: [for var in self._save_vars: self._stack.append(getattr(self, var))]. *)
Definition push_state (self : ViewMode) : ViewMode :=
  fold_left (fun self var => set_stack self (_stack self ++ [getattr self var]))
            (_save_vars self) self.

(** The loop of [pop_state] over an already reversed list of names. *)
Fixpoint pop_vars (vars : list attr) (self : ViewMode) : result ViewMode :=
  match vars with
  | [] => Ok self
  | var :: vars' =>
      match pop (_stack self) with
      | Raise e => Raise e
      | Ok (s, v) => pop_vars vars' (setattr (set_stack self s) var v)
      end
  end.

(** [pop_state]: [for var in reversed(self._save_vars): setattr(self, var, self._stack.pop())]. *)
Definition pop_state (self : ViewMode) : result ViewMode :=
  pop_vars (rev (_save_vars self)) self.

(** [reset_state]: [self.pop_state(); self.push_state()]. *)
Definition reset_state (self : ViewMode) : result ViewMode :=
  match pop_state self with
  | Raise e => Raise e
  | Ok self' => Ok (push_state self')
  end.

(** Python's two-argument [min] and [max]: the first argument is kept unless
    the second is strictly smaller (resp. greater). *)
Definition py_min (a b : float) : float := if b <? a then b else a.
Definition py_max (a b : float) : float := if a <? b then b else a.

(** [ViewMode.zoom]. *)
Definition zoom (self : ViewMode) (delta_x delta_y : float) : ViewMode :=
  if 0 <? delta_y then
    set_zoom_factor self (py_min (zoom_factor self * 1.2) ZOOM_MAX)
  else if delta_y <? 0 then
    set_zoom_factor self (py_max (zoom_factor self * 0.83) ZOOM_MIN)
  else self.

(** Python float division: a zero divisor raises. *)
Definition truediv (a b : float) : result float :=
  if b =? 0 then Raise ZeroDivisionError else Ok (a / b).

(** [View2D.rotate] and [View3D.rotate]. *)
Definition rotate (self : ViewMode) (delta_x delta_y : float) : ViewMode :=
  match cls self with
  | View2D => set_azimuth self (azimuth self + delta_x)
  | View3D =>
      let self := set_azimuth self (azimuth self + delta_x) in
      set_elevation self (elevation self - delta_y)
  end.

(** [View2D.pan] and [View3D.pan]. *)
Definition pan (self : ViewMode) (delta_x delta_y : float) : result ViewMode :=
  match cls self with
  | View2D =>
      let self := set_x self (x self + delta_x * PAN_FACTOR) in
      Ok (set_y self (y self - delta_y * PAN_FACTOR))
  | View3D =>
      (dx <- truediv delta_x (zoom_factor self) ;;
       let self := set_x self (x self + dx) in
       dz <- truediv delta_y (zoom_factor self) ;;
       Ok (set_z self (z self - dz)))%py
  end.

(** [View2D.__init__] and [View3D.__init__]. *)
Definition View2D_init : ViewMode :=
  push_state
    {| cls := View2D; x := 0; y := 0; z := 0; zoom_factor := 5; azimuth := 0;
       elevation := 0; supports_ortho := false; ortho := false;
       _stack := [];
       _save_vars := [attr_x; attr_y; attr_z; attr_zoom_factor; attr_azimuth] |}.

Definition View3D_init : ViewMode :=
  push_state
    {| cls := View3D; x := 0; y := 180; z := -20; zoom_factor := 1; azimuth := 0;
       elevation := -20; supports_ortho := true; ortho := false;
       _stack := [];
       _save_vars := [attr_x; attr_y; attr_z; attr_zoom_factor; attr_azimuth;
                      attr_elevation] |}.

(** The names each class registers in [_save_vars]. *)
Definition tracked (c : view_class) : list attr :=
  match c with
  | View2D => [attr_x; attr_y; attr_z; attr_zoom_factor; attr_azimuth]
  | View3D => [attr_x; attr_y; attr_z; attr_zoom_factor; attr_azimuth; attr_elevation]
  end.

(** A camera gesture, and a sequence of gestures applied in order. *)
Inductive call : Type :=
| Rotate (delta_x delta_y : float)
| Pan (delta_x delta_y : float)
| Zoom (delta_x delta_y : float).

Definition do_call (self : ViewMode) (c : call) : result ViewMode :=
  match c with
  | Rotate dx dy => Ok (rotate self dx dy)
  | Pan dx dy => pan self dx dy
  | Zoom dx dy => Ok (zoom self dx dy)
  end.

Fixpoint run (calls : list call) (self : ViewMode) : result ViewMode :=
  match calls with
  | [] => Ok self
  | c :: calls' =>
      match do_call self c with
      | Raise e => Raise e
      | Ok self' => run calls' self'
      end
  end.

(** A sequence of [zoom] calls, each given by its [(delta_x, delta_y)]. *)
Definition zooms (self : ViewMode) (deltas : list (float * float)) : ViewMode :=
  fold_left (fun self d => zoom self (fst d) (snd d)) deltas self.

(** The zoom factor lies in [[ZOOM_MIN, ZOOM_MAX]]. *)
Definition in_zoom_range (f : float) : bool := (ZOOM_MIN <=? f) && (f <=? ZOOM_MAX).

(** The sign of a number as the three-way comparison with zero sees it
    ([None]: not comparable, a NaN). *)
Definition sign (d : float) : option comparison :=
  match d ?= 0 with
  | FEq => Some Eq
  | FLt => Some Lt
  | FGt => Some Gt
  | FNotComparable => None
  end.

End Views.

(** ** views.py: projection set-up and transforms

    The OpenGL calls the methods issue are data here: [begin] is modelled
    by the projection call it reaches, a transform method by the modelview
    calls it makes, in order.  The matrix stacks are not modelled, and
    neither is what OpenGL does with a call: an [Ok] result says which
    call Python makes, not that OpenGL accepts it. *)

Module ViewsGL.
Import Views.
Local Open Scope float_scope.

Inductive projection : Type :=
| glOrtho (left right bottom top near far : float)
| gluPerspective (fovy aspect near far : float).

Inductive gl_call : Type :=
| glTranslate (x y z : float)
| glRotate (angle x y z : float)
| glScale (x y z : float).

Definition NEAR : float := -100.
Definition FAR : float := 100.
Definition FOVY : float := 80.
Definition ZOOM_ORTHO_ADJ : float := 4.5.

(** [View2D.begin] and [View3D.begin]: the projection call reached for a
    window of [w] by [h], or the exception Python raises while it computes
    the arguments of that call. *)
Definition begin (self : ViewMode) (w h : float) : result projection :=
  match cls self with
  | View2D => Ok (glOrtho 0 w 0 h NEAR FAR)
  | View3D =>
      if ortho self then
        let x := w / 2 in
        let y := h / 2 in
        let near := -9000 in
        let far := 9000 in
        Ok (glOrtho (- x) x (- y) y near far)
      else
        let near := 0.1 in
        let far := 9000 in
        (aspect <- truediv w h ;;
         Ok (gluPerspective FOVY aspect near far))%py
  end.

(** [View2D._center_on_origin], for the [w], [h] that [begin] stored. *)
Definition _center_on_origin (w h : float) : projection :=
  let x := w / 2 in
  let y := h / 2 in
  glOrtho (- x) x (- y) y NEAR FAR.

(** [display_transform]: the projection reloaded, if any, and the
    modelview calls.  On a [View2D] it is called between [begin] and
    [end], with the [w], [h] given to [begin]. *)
Definition display_transform (self : ViewMode) (w h : float)
  : option projection * list gl_call :=
  match cls self with
  | View2D =>
      (Some (_center_on_origin w h),
       [glTranslate (x self) (y self) (z self);
        glRotate (azimuth self) 0 0 1;
        glScale (zoom_factor self) (zoom_factor self) (zoom_factor self)])
  | View3D =>
      let f := zoom_factor self in
      let f := if ortho self then f * ZOOM_ORTHO_ADJ else f in
      (None,
       [glRotate (-90) 1 0 0;
        glTranslate 0 (y self) 0;
        glScale f f f;
        glTranslate (x self) 0 (z self);
        glRotate (- elevation self) 1 0 0;
        glRotate (azimuth self) 0 0 1])
  end.

(** [ui_transform]. *)
Definition ui_transform (self : ViewMode) (length : float) : list gl_call :=
  match cls self with
  | View2D =>
      [glTranslate (length + 20) (length + 20) 0;
       glRotate (azimuth self) 0 0 1]
  | View3D =>
      [glRotate (-90) 1 0 0;
       glTranslate (length + 20) 0 (length + 20);
       glRotate (- elevation self) 1 0 0;
       glRotate (azimuth self) 0 0 1]
  end.

(** The factor of the [glScale] call among some calls. *)
Fixpoint scale_factors (calls : list gl_call) : list float :=
  match calls with
  | [] => []
  | glScale f _ _ :: rest => f :: scale_factors rest
  | _ :: rest => scale_factors rest
  end.

(** The double [4.5] as a [spec_float]. *)
Definition c4_5 : spec_float := S754_finite false 5066549580791808 (-50).

End ViewsGL.

(** ** The arithmetic of the array code

    What [vector.py] and [actors.py] ask of their numbers.  [Arith] holds
    the operations of Python on its floats (decimal literals, [+], [-],
    [*], [/], which raises on a zero divisor, and [==]), numpy's conversion
    of a number to dtype ['f'] ([float32]), and numpy's operations on the
    items of arrays of that dtype ([add32], [mul32], [imul32] for the
    product [a *= k] of an item with a Python float, and [minimum],
    [maximum] for the reductions [min] and [max]).  [Math] holds what the C
    library computes for Python: [**] and [math.radians], [math.cos],
    [math.sin]. *)

Module Num.

Class Arith (num : Type) : Type := {
  lit : Q -> num;
  add : num -> num -> num;
  sub : num -> num -> num;
  mul : num -> num -> num;
  truediv : num -> num -> result num;
  eqb : num -> num -> bool;
  float32 : num -> num;
  add32 : num -> num -> num;
  mul32 : num -> num -> num;
  imul32 : num -> num -> num;
  minimum : num -> num -> num;
  maximum : num -> num -> num
}.

Class Math (num : Type) : Type := {
  pow : num -> nat -> num;
  radians : num -> num;
  cos : num -> num;
  sin : num -> num
}.

End Num.

Declare Scope num_scope.
Delimit Scope num_scope with num.
Notation "a + b" := (Num.add a b) : num_scope.
Notation "a - b" := (Num.sub a b) : num_scope.
Notation "a * b" := (Num.mul a b) : num_scope.
Notation "a ** n" := (Num.pow a n) (at level 30, right associativity) : num_scope.

(** Arithmetic over the real numbers: no operation rounds, and the
    conversion to dtype ['f'] changes nothing. *)
#[export] Instance RArith : Num.Arith R := {|
  Num.lit := Q2R;
  Num.add := Rplus;
  Num.sub := Rminus;
  Num.mul := Rmult;
  Num.truediv := fun a b =>
    if Req_dec_T b 0%R then Raise ZeroDivisionError else Ok (a / b)%R;
  Num.eqb := fun a b => if Req_dec_T a b then true else false;
  Num.float32 := fun a => a;
  Num.add32 := Rplus;
  Num.mul32 := Rmult;
  Num.imul32 := Rmult;
  Num.minimum := Rmin;
  Num.maximum := Rmax
|}.

#[export] Instance RMath : Num.Math R := {|
  Num.pow := Rpow_def.pow;
  Num.radians := fun a => (a * (PI / 180))%R;
  Num.cos := Rtrigo_def.cos;
  Num.sin := Rtrigo_def.sin
|}.

(** IEEE 754 arithmetic, as [SpecFloat] defines it on [spec_float] (sign,
    mantissa, exponent; round to nearest even).  A Python float is a
    binary64 value (precision 53, [emax] 1024); an item of an array of
    dtype ['f'] is a binary32 value (precision 24, [emax] 128), which is a
    binary64 value too. *)
Module Ieee.
Local Open Scope Z_scope.

(** [float(z)] for a Python int within the doubles. *)
Definition of_int (z : Z) : spec_float := binary_normalize 53 1024 z 0 false.

(** The double a decimal literal denotes: the one nearest to its value. *)
Definition of_literal (q : Q) : spec_float :=
  SFdiv 53 1024 (of_int (Qnum q)) (of_int (Zpos (Qden q))).

Definition is_zero (x : spec_float) : bool :=
  match x with
  | S754_zero _ => true
  | _ => false
  end.

Definition is_nan (x : spec_float) : bool :=
  match x with
  | S754_nan => true
  | _ => false
  end.

(** Python's [a / b] on floats: [ZeroDivisionError] when [b == 0]. *)
Definition truediv (a b : spec_float) : result spec_float :=
  if is_zero b then Raise ZeroDivisionError else Ok (SFdiv 53 1024 a b).

(** numpy's conversion of a double to dtype ['f']: the nearest binary32
    value, an infinity beyond the largest one. *)
Definition float32 (x : spec_float) : spec_float :=
  match x with
  | S754_finite s m e => binary_round 24 128 s m e
  | _ => x
  end.

(** numpy's [a *= k] on an item [a] of dtype ['f'] and a Python float
    [k], as the numpy releases for Python 2 compute it.  A float that is
    not finite, or lies strictly between -3.4e38 and 3.4e38, is converted
    to dtype ['f'] and the product is a binary32 product; with any other
    float the product is computed on doubles and then converted. *)
Definition float32_limit : spec_float := of_int (34 * 10 ^ 37).

Definition fits_float32 (k : spec_float) : bool :=
  match k with
  | S754_infinity _ | S754_nan => true
  | _ => SFltb (SFopp float32_limit) k && SFltb k float32_limit
  end.

Definition imul32 (a k : spec_float) : spec_float :=
  if fits_float32 k then SFmul 24 128 a (float32 k)
  else float32 (SFmul 53 1024 a k).

(** The step of numpy's reductions [min] and [max]: a NaN met first is
    kept, a NaN met later wins the comparison. *)
Definition minimum (a b : spec_float) : spec_float :=
  if SFleb a b || is_nan a then a else b.

Definition maximum (a b : spec_float) : spec_float :=
  if SFleb b a || is_nan a then a else b.

(** [math.radians(x)]: [x * (pi / 180.0)], on the double nearest to pi. *)
Definition pi : spec_float := S754_finite false 7074237752028440 (-51).
Definition degToRad : spec_float := SFdiv 53 1024 pi (of_int 180).
Definition radians (x : spec_float) : spec_float := SFmul 53 1024 x degToRad.

Section Libm.

(** The C library's [pow] on doubles. *)
Variable libm_pow : spec_float -> spec_float -> spec_float.

(** Python's [x ** n] for a float [x] and a natural number [n]: Python
    itself answers for the exponent 0 and for a zero [x], and asks [pow]
    otherwise. *)
Definition float_pow (x : spec_float) (n : nat) : spec_float :=
  match n with
  | O => of_int 1
  | S _ =>
      match x with
      | S754_zero _ => if Nat.odd n then x else S754_zero false
      | S754_nan => x
      | S754_infinity _ => if Nat.odd n then x else S754_infinity false
      | S754_finite _ _ _ => libm_pow x (of_int (Z.of_nat n))
      end
  end.

End Libm.

End Ieee.

#[export] Instance FArith : Num.Arith spec_float := {|
  Num.lit := Ieee.of_literal;
  Num.add := SFadd 53 1024;
  Num.sub := SFsub 53 1024;
  Num.mul := SFmul 53 1024;
  Num.truediv := Ieee.truediv;
  Num.eqb := SFeqb;
  Num.float32 := Ieee.float32;
  Num.add32 := SFadd 24 128;
  Num.mul32 := SFmul 24 128;
  Num.imul32 := Ieee.imul32;
  Num.minimum := Ieee.minimum;
  Num.maximum := Ieee.maximum
|}.

(** The [Math] of Python floats, for a C library. *)
Definition FMath (libm_pow : spec_float -> spec_float -> spec_float)
  (libm_cos libm_sin : spec_float -> spec_float) : Num.Math spec_float := {|
  Num.pow := Ieee.float_pow libm_pow;
  Num.radians := Ieee.radians;
  Num.cos := libm_cos;
  Num.sin := libm_sin
|}.

(** ** vector.py *)

Module Vector.
Section WithArith.
Context {num : Type} {A : Num.Arith num} {M : Num.Math num}.
Local Open Scope num_scope.

(** A row of an [(n, 3)] array; a 3x3 matrix is a triple of rows. *)
Definition vec3 : Type := (num * num * num)%type.
Definition mat3 : Type := (vec3 * vec3 * vec3)%type.

(** numpy's conversion of a row to dtype ['f']. *)
Definition as_float32 (v : vec3) : vec3 :=
  let '(v0, v1, v2) := v in
  (Num.float32 v0, Num.float32 v1, Num.float32 v2).

(** numpy on rows of dtype ['f']: a row plus a row, a row times a scalar,
    a row times a matrix.  numpy leaves to its BLAS the order in which the
    three products of an entry are added; they are added from left to
    right here.  What is proved about products with a matrix is about
    matrices with one entry per column that is not zero, where the order
    makes no difference. *)
Definition row_add (u v : vec3) : vec3 :=
  let '(u0, u1, u2) := u in
  let '(v0, v1, v2) := v in
  (Num.add32 u0 v0, Num.add32 u1 v1, Num.add32 u2 v2).

Definition row_scale (k : num) (v : vec3) : vec3 :=
  let '(v0, v1, v2) := v in
  (Num.mul32 v0 k, Num.mul32 v1 k, Num.mul32 v2 k).

(** [row *= k] for a Python float [k]. *)
Definition row_imul (k : num) (v : vec3) : vec3 :=
  let '(v0, v1, v2) := v in
  (Num.imul32 v0 k, Num.imul32 v1 k, Num.imul32 v2 k).

Definition row_dot (v : vec3) (m : mat3) : vec3 :=
  let '(v0, v1, v2) := v in
  let '((m00, m01, m02), (m10, m11, m12), (m20, m21, m22)) := m in
  (Num.add32 (Num.add32 (Num.mul32 v0 m00) (Num.mul32 v1 m10)) (Num.mul32 v2 m20),
   Num.add32 (Num.add32 (Num.mul32 v0 m01) (Num.mul32 v1 m11)) (Num.mul32 v2 m21),
   Num.add32 (Num.add32 (Num.mul32 v0 m02) (Num.mul32 v1 m12)) (Num.mul32 v2 m22)).

(** [vertices.dot(matrix)]: the array of an empty list has no axis of
    length 3 to multiply along. *)
Definition dot (vertices : list vec3) (matrix : mat3) : result (list vec3) :=
  match vertices with
  | [] => Raise ValueError
  | _ :: _ => Ok (map (fun v => row_dot v matrix) vertices)
  end.

(** [translate(vertices, x, y, z)]: [vertices + numpy.require([x, y, z], 'f')];
    the array of an empty list cannot be added to a row of three. *)
Definition translate (vertices : list vec3) (x y z : num) : result (list vec3) :=
  let offset := as_float32 (x, y, z) in
  match vertices with
  | [] => Raise ValueError
  | _ :: _ => Ok (map (fun v => row_add v offset) vertices)
  end.

(** [rotate(vertices, angle, x, y, z)].  The entries of the matrix are
    computed on Python floats and stored with dtype ['f'].  The product is
    a [numpy.matrix]; it holds the rows given here, and what its type
    changes, the items an iteration over it yields, is accounted for where
    [create_vertex_arrays] makes an array of them. *)
Definition rotate (vertices : list vec3) (angle x y z : num) : result (list vec3) :=
  let angle_r := Num.radians angle in
  let c := Num.cos angle_r in
  let s := Num.sin angle_r in
  let C := Num.lit 1 - c in
  let matrix :=
    (as_float32 (x ** 2 * C + c,    x * y * C - z * s, x * z * C + y * s),
     as_float32 (y * x * C + z * s, y ** 2 * C + c,    y * z * C - x * s),
     as_float32 (x * z * C - y * s, y * z * C + x * s, z ** 2 * C + c)) in
  dot vertices matrix.

End WithArith.
End Vector.

(** ** actors.py *)

Module Actors.
Section WithArith.
Context {num : Type} {A : Num.Arith num} {M : Num.Math num}.
Local Open Scope num_scope.

Abbreviation vec3 := (@Vector.vec3 num).

(** *** BoundingBox *)

Record BoundingBox : Type := {
  upper_corner : vec3;
  lower_corner : vec3
}.

(** *** Model *)

(** The state the base class works on: the vertex array its subclasses
    store in [self.vertices], and the cached box [self._bounding_box]
    ([None] when absent). *)
Record Model : Type := {
  vertices : list vec3;
  _bounding_box : option BoundingBox
}.

(** [init_model_attributes]: [self._bounding_box = None]. *)
Definition init_model_attributes (self : Model) : Model :=
  {| vertices := vertices self; _bounding_box := None |}.

(** numpy's [min]/[max] along a row: no identity, so an empty row raises
    [ValueError]. *)
Definition reduce (f : num -> num -> num) (row : list num) : result num :=
  match row with
  | [] => Raise ValueError
  | a :: rest => Ok (fold_left f rest a)
  end.

(** [xyz_rows]: the vertex array with rows and columns swapped. *)
Definition xyz_rows (vs : list vec3) : list num * list num * list num :=
  (map (fun v => fst (fst v)) vs, map (fun v => snd (fst v)) vs, map snd vs).

Definition row_min (rows : list num * list num * list num) : result vec3 :=
  let '(xs, ys, zs) := rows in
  (x <- reduce Num.minimum xs ;;
   y <- reduce Num.minimum ys ;;
   z <- reduce Num.minimum zs ;;
   Ok (x, y, z))%py.

Definition row_max (rows : list num * list num * list num) : result vec3 :=
  let '(xs, ys, zs) := rows in
  (x <- reduce Num.maximum xs ;;
   y <- reduce Num.maximum ys ;;
   z <- reduce Num.maximum zs ;;
   Ok (x, y, z))%py.

(** [_calculate_bounding_box]. *)
Definition _calculate_bounding_box (self : Model) : result BoundingBox :=
  let rows := xyz_rows (vertices self) in
  (lower_corner <- row_min rows ;;
   upper_corner <- row_max rows ;;
   let box := {| upper_corner := upper_corner; lower_corner := lower_corner |} in
   Ok box)%py.

(** The [bounding_box] property: the value read and the model after the
    read. *)
Definition bounding_box (self : Model) : result (BoundingBox * Model) :=
  match _bounding_box self with
  | None =>
      (box <- _calculate_bounding_box self ;;
       Ok (box, {| vertices := vertices self; _bounding_box := Some box |}))%py
  | Some box => Ok (box, self)
  end.

(** *** GcodeModel *)

Record Point : Type := { x : num; y : num; z : num }.

(** A movement as the model reads it; [angle] is the value of
    [movement.angle()], the direction of travel in degrees. *)
Record Movement : Type := {
  point_a : Point;
  point_b : Point;
  extruder_on : bool;
  is_loop : bool;
  is_perimeter : bool;
  is_perimeter_outer : bool;
  angle : num
}.

Inductive color_name : Type := red | yellow | orange | green | cyan | gray.

Definition color_map (name : color_name) : list num :=
  match name with
  | red    => [Num.lit 1.0; Num.lit 0.0; Num.lit 0.0; Num.lit 0.6]
  | yellow => [Num.lit 1.0; Num.lit 0.875; Num.lit 0.0; Num.lit 0.6]
  | orange => [Num.lit 1.0; Num.lit 0.373; Num.lit 0.0; Num.lit 0.6]
  | green  => [Num.lit 0.0; Num.lit 1.0; Num.lit 0.0; Num.lit 0.6]
  | cyan   => [Num.lit 0.0; Num.lit 0.875; Num.lit 0.875; Num.lit 0.6]
  | gray   => [Num.lit 0.6; Num.lit 0.6; Num.lit 0.6; Num.lit 0.6]
  end.

(** The arrow template, an array of dtype ['f']. *)
Definition arrow : list vec3 :=
  map Vector.as_float32
    [(Num.lit 0.0, Num.lit 0.0, Num.lit 0.0);
     (Num.lit 0.4, Num.lit (-0.1), Num.lit 0.0);
     (Num.lit 0.4, Num.lit 0.1, Num.lit 0.0)].

(** [movement_color]. *)
Definition movement_color (movement : Movement) : list num :=
  if negb (extruder_on movement) then color_map gray
  else if is_loop movement then color_map yellow
  else if is_perimeter movement && is_perimeter_outer movement then color_map cyan
  else if is_perimeter movement then color_map green
  else color_map red.

(** The lists [create_vertex_arrays] fills in its loops.  [vector.rotate]
    returns a [numpy.matrix], so the items [extend] appends to
    [arrow_list] are its rows as 1x3 matrices. *)
Record lists : Type := {
  vertex_list : list vec3;
  color_list : list (list num);
  layer_stops_list : list Z;
  arrow_list : list vec3
}.

(** The body of [for movement in layer]. *)
Definition movement_body (st : lists) (movement : Movement) : result lists :=
  let a := point_a movement in
  let b := point_b movement in
  let vertex_list := vertex_list st ++ [(x a, y a, z a)] in
  let vertex_list := vertex_list ++ [(x b, y b, z b)] in
  let arrow := arrow in
  (arrow <- Vector.rotate arrow (angle movement) (Num.lit 0.0) (Num.lit 0.0) (Num.lit 1.0) ;;
   let arrow_list := arrow_list st ++ arrow in
   let vertex_color := movement_color movement in
   let color_list := color_list st ++ [vertex_color] in
   Ok {| vertex_list := vertex_list; color_list := color_list;
         layer_stops_list := layer_stops_list st; arrow_list := arrow_list |})%py.

(** The body of [for layer in model_data]. *)
Definition layer_body (st : lists) (layer : list Movement) : result lists :=
  (st <- for_each movement_body layer st ;;
   Ok {| vertex_list := vertex_list st; color_list := color_list st;
         layer_stops_list := layer_stops_list st ++ [len (vertex_list st)];
         arrow_list := arrow_list st |})%py.

(** [a[1::2]]. *)
Fixpoint odd_items {T : Type} (l : list T) : list T :=
  match l with
  | _ :: b :: rest => b :: odd_items rest
  | _ => []
  end.

(** [a.repeat(3, 0)]. *)
Definition repeat3 {T : Type} (l : list T) : list T :=
  flat_map (fun v => [v; v; v]) l.

(** Whether [numpy.array(l, 'f')] has a single axis: the array of an empty
    list has the shape [(0,)], and so have its slices. *)
Definition one_axis {T : Type} (l : list T) : bool :=
  match l with
  | [] => true
  | _ :: _ => false
  end.

(** numpy's [a + b] in [create_vertex_arrays].  [a] is the array made from
    the list of 1x3 matrices, of shape [(n, 1, 3)], or [(0,)] when the
    list is empty; [b] holds rows, shape [(k, 3)], or has the shape [(0,)]
    ([b_one_axis]).  The shapes [(n, 1, 3)] and [(k, 3)] are broadcast to
    [(n, k, 3)]: item [i] of the sum holds the rows [a[i] + b[j]].  Two
    arrays of shape [(0,)] add to one of shape [(0,)]; an axis of length 0
    against one of length 3 raises [ValueError]. *)
Definition array_add (a b : list vec3) (b_one_axis : bool)
  : result (list (list vec3)) :=
  match a, b_one_axis with
  | [], true => Ok []
  | [], false => Raise ValueError
  | _ :: _, true => Raise ValueError
  | _ :: _, false => Ok (map (fun u => map (fun v => Vector.row_add u v) b) a)
  end.

(** The arrays an instance holds once [create_vertex_arrays] returns. *)
Record arrays : Type := {
  a_vertices : list vec3;
  a_colors : list (list num);
  a_arrows : list (list vec3);
  a_layer_stops : list Z
}.

(** The part of [create_vertex_arrays] after the loops: the lists are
    made arrays of dtype ['f'], the end points of the movements are added
    to the arrows and the 2:3 ratio is asserted. *)
Definition finish_vertex_arrays (st : lists) : result arrays :=
  let vertices := map Vector.as_float32 (vertex_list st) in
  let colors := map (map Num.float32) (color_list st) in
  let arrows := map Vector.as_float32 (arrow_list st) in
  (arrows <- array_add arrows (repeat3 (odd_items vertices)) (one_axis vertices) ;;
   assert (len arrows =? (len vertices / 2) * 3)%Z ;;;
   Ok {| a_vertices := vertices; a_colors := colors; a_arrows := arrows;
         a_layer_stops := layer_stops_list st |})%py.

(** [create_vertex_arrays]. *)
Definition create_vertex_arrays (model_data : list (list Movement)) : result arrays :=
  let st := {| vertex_list := []; color_list := []; layer_stops_list := [0%Z];
               arrow_list := [] |} in
  (st <- for_each layer_body model_data st ;;
   finish_vertex_arrays st)%py.

Record GcodeModel : Type := {
  g_model : Model;
  colors : list (list num);
  arrows : list (list vec3);
  layer_stops : list Z;
  max_layers : Z;
  num_layers_to_draw : Z;
  arrows_enabled : bool;
  g_initialized : bool
}.

(** [GcodeModel.__init__] (timing and logging left out). *)
Definition GcodeModel_init (model_data : list (list Movement)) : result GcodeModel :=
  (arr <- create_vertex_arrays model_data ;;
   let max_layers := (len (a_layer_stops arr) - 1)%Z in
   Ok {| g_model := {| vertices := a_vertices arr; _bounding_box := None |};
         colors := a_colors arr;
         arrows := a_arrows arr;
         layer_stops := a_layer_stops arr;
         max_layers := max_layers;
         num_layers_to_draw := max_layers;
         arrows_enabled := true;
         g_initialized := false |})%py.

(** The attribute [num_layers_to_draw] is assigned by the application. *)
Definition set_num_layers_to_draw (self : GcodeModel) (n : Z) : GcodeModel :=
  {| g_model := g_model self; colors := colors self; arrows := arrows self;
     layer_stops := layer_stops self; max_layers := max_layers self;
     num_layers_to_draw := n; arrows_enabled := arrows_enabled self;
     g_initialized := g_initialized self |}.

(** [_display_movements]: the [(first, count)] given to
    [glDrawArrays(GL_LINES, first, count)]. *)
Definition _display_movements (self : GcodeModel) (mode_2d : bool) : result (Z * Z) :=
  if mode_2d then
    (start <- getitem (layer_stops self) (num_layers_to_draw self - 1)%Z ;;
     stop <- getitem (layer_stops self) (num_layers_to_draw self) ;;
     let end_ := (stop - start)%Z in
     Ok (start, end_))%py
  else
    (let start := 0%Z in
     end_ <- getitem (layer_stops self) (num_layers_to_draw self) ;;
     Ok (start, end_))%py.

(** [_display_arrows]: the [(first, count)] given to
    [glDrawArrays(GL_TRIANGLES, first, count)]. *)
Definition _display_arrows (self : GcodeModel) : result (Z * Z) :=
  (s <- getitem (layer_stops self) (num_layers_to_draw self - 1)%Z ;;
   let start := ((s / 2) * 3)%Z in
   e <- getitem (layer_stops self) (num_layers_to_draw self) ;;
   let end_ := ((e / 2) * 3)%Z in
   Ok (start, (end_ - start)%Z))%py.

(** *** StlModel *)

Record StlModel : Type := {
  s_model : Model;
  normals : list vec3;
  scaling_factor : num
}.

(** [StlModel.__init__] (material constants, timing and logging left out). *)
Definition StlModel_init (model_data : list vec3 * list vec3) : StlModel :=
  let '(vertices, normals) := model_data in
  {| s_model := {| vertices := map Vector.as_float32 vertices; _bounding_box := None |};
     normals := map Vector.as_float32 normals;
     scaling_factor := Num.lit 1.0 |}.

(** [StlModel.scale]: the quotient is a Python float, and the array is
    multiplied by it in place. *)
Definition scale (self : StlModel) (factor : num) : result StlModel :=
  if negb (Num.eqb factor (scaling_factor self)) then
    (k <- Num.truediv factor (scaling_factor self) ;;
     let vertices := map (Vector.row_imul k) (vertices (s_model self)) in
     Ok {| s_model := init_model_attributes
                        {| vertices := vertices;
                           _bounding_box := _bounding_box (s_model self) |};
           normals := normals self;
           scaling_factor := factor |})%py
  else Ok self.

(** [StlModel.translate]. *)
Definition translate (self : StlModel) (x y z : num) : result StlModel :=
  (vertices <- Vector.translate (vertices (s_model self)) x y z ;;
   Ok {| s_model := init_model_attributes
                      {| vertices := vertices;
                         _bounding_box := _bounding_box (s_model self) |};
         normals := normals self;
         scaling_factor := scaling_factor self |})%py.

(** [StlModel.rotate]. *)
Definition rotate (self : StlModel) (angle x y z : num) : result StlModel :=
  (vertices <- Vector.rotate (vertices (s_model self)) angle x y z ;;
   Ok {| s_model := init_model_attributes
                      {| vertices := vertices;
                         _bounding_box := _bounding_box (s_model self) |};
         normals := normals self;
         scaling_factor := scaling_factor self |})%py.

End WithArith.
End Actors.

(** ** actors.py: buffers and draw calls of the Gcode model *)

Module ActorsDraw.
Section WithArith.
Context {num : Type} {A : Num.Arith num} {M : Num.Math num}.
Import Actors.

(** [a.repeat(2, 0)]. *)
Definition repeat2 {T : Type} (l : list T) : list T :=
  flat_map (fun v => [v; v]) l.

(** The buffers [GcodeModel.init] creates; a VBO is modelled by the array
    it is made from, a buffer that is not created by [None]. *)
Record gcode_buffers : Type := {
  vertex_buffer : list (@Vector.vec3 num);
  vertex_color_buffer : list (list num);
  arrow_buffer : option (list (list (@Vector.vec3 num)));
  arrow_color_buffer : option (list (list num))
}.

(** [GcodeModel.init]. *)
Definition init (self : @GcodeModel num) : gcode_buffers :=
  {| vertex_buffer := vertices (g_model self);
     vertex_color_buffer := repeat2 (colors self);
     arrow_buffer := if arrows_enabled self then Some (arrows self) else None;
     arrow_color_buffer :=
       if arrows_enabled self then Some (repeat3 (colors self)) else None |}.

(** [GcodeModel.display]: the ranges of its [glDrawArrays] calls, in
    order. *)
Definition display (self : @GcodeModel num) (mode_2d : bool) : result (list (Z * Z)) :=
  (movements <- _display_movements self mode_2d ;;
   if arrows_enabled self then
     (arrows <- _display_arrows self ;;
      Ok [movements; arrows])
   else Ok [movements])%py.

End WithArith.
End ActorsDraw.

(** ** Vocabulary of the properties

    The definitions below are not code of the program: they are the terms
    in which Part II states what the code does. *)

(** The doubles nearest to [0.1], [1000], [1.2] and [0.83], as
    [spec_float]s. *)
Module Doubles.
Local Open Scope Z_scope.

Definition c0_1 : spec_float := S754_finite false 7205759403792794 (-56).
Definition c1000 : spec_float := S754_finite false 8796093022208000 (-43).
Definition c1_2 : spec_float := S754_finite false 5404319552844595 (-52).
Definition c0_83 : spec_float := S754_finite false 7475975381435023 (-53).

End Doubles.

Module GcodeSpec.
Section WithArith.
Context {num : Type} {A : Num.Arith num} {M : Num.Math num}.
Import Actors.

(** The color rules as the specification lists them: the first rule whose
    test holds decides, [red] when none does. *)
Definition spec_color_rules : list ((@Movement num -> bool) * color_name) :=
  [ (fun m => negb (extruder_on m), gray);
    (fun m => is_loop m, yellow);
    (fun m => is_perimeter m && is_perimeter_outer m, cyan);
    (fun m => is_perimeter m, green) ].

Fixpoint first_match (rules : list ((@Movement num -> bool) * color_name))
  (otherwise : color_name) (m : Movement) : color_name :=
  match rules with
  | [] => otherwise
  | (test, c) :: rest => if test m then c else first_match rest otherwise m
  end.

(** Number of movements of a model. *)
Definition movement_count (model_data : list (list (@Movement num))) : nat :=
  length (concat model_data).

(** The two vertices of a movement. *)
Definition endpoints (m : @Movement num) : list (@Vector.vec3 num) :=
  [(x (point_a m), y (point_a m), z (point_a m));
   (x (point_b m), y (point_b m), z (point_b m))].

(** The vertex a movement ends at. *)
Definition end_point (m : @Movement num) : @Vector.vec3 num :=
  (x (point_b m), y (point_b m), z (point_b m)).

(** The three rows [vector.rotate] returns for the arrow of a movement. *)
Definition rotated_arrow (m : @Movement num) : list (@Vector.vec3 num) :=
  match Vector.rotate arrow (angle m) (Num.lit 0.0) (Num.lit 0.0) (Num.lit 1.0) with
  | Ok rows => rows
  | Raise _ => []
  end.

(** The lists after one turn of the inner loop and after one turn of the
    outer loop of [create_vertex_arrays]. *)
Definition movement_step (st : @lists num) (m : @Movement num) : @lists num :=
  {| vertex_list := vertex_list st ++ endpoints m;
     color_list := color_list st ++ [movement_color m];
     layer_stops_list := layer_stops_list st;
     arrow_list := arrow_list st ++ rotated_arrow m |}.

Definition layer_step (st : @lists num) (layer : list (@Movement num)) : @lists num :=
  let st := fold_left movement_step layer st in
  {| vertex_list := vertex_list st; color_list := color_list st;
     layer_stops_list := layer_stops_list st ++ [len (vertex_list st)];
     arrow_list := arrow_list st |}.

(** Between two movements the three lists are in step: two vertices, one
    color and three arrow vertices per movement. *)
Definition in_step (st : @lists num) : Prop :=
  length (vertex_list st) = (2 * length (color_list st))%nat /\
  length (arrow_list st) = (3 * length (color_list st))%nat.

(** The stops recorded so far: non-decreasing, starting at 0, none beyond
    the vertices appended so far. *)
Definition stops_ok (st : @lists num) : Prop :=
  StronglySorted Z.le (layer_stops_list st) /\
  Forall (fun s => (s <= len (vertex_list st))%Z) (layer_stops_list st) /\
  exists rest, layer_stops_list st = 0%Z :: rest.

End WithArith.
End GcodeSpec.

Module ModelSpec.
Section WithArith.
Context {num : Type} {A : Num.Arith num}.
Import Actors.

(** The box the specification describes for a non-empty vertex array:
    per axis, the least and the greatest coordinate. *)
Definition spec_bounding_box (v : @Vector.vec3 num) (vs : list (@Vector.vec3 num))
  : BoundingBox :=
  let '(x0, y0, z0) := v in
  let xs := map (fun v => fst (fst v)) vs in
  let ys := map (fun v => snd (fst v)) vs in
  let zs := map snd vs in
  {| upper_corner := (fold_left Num.maximum xs x0, fold_left Num.maximum ys y0,
                      fold_left Num.maximum zs z0);
     lower_corner := (fold_left Num.minimum xs x0, fold_left Num.minimum ys y0,
                      fold_left Num.minimum zs z0) |}.

(** What a caller of the [bounding_box] property observes. *)
Definition read_bounding_box (self : @Model num) : result BoundingBox :=
  match bounding_box self with
  | Ok (box, _) => Ok box
  | Raise e => Raise e
  end.

(** The cache is absent or holds the box of the current vertices. *)
Definition cache_coherent (self : @Model num) : Prop :=
  forall box, _bounding_box self = Some box -> _calculate_bounding_box self = Ok box.

End WithArith.
End ModelSpec.

(** Sample inputs. *)
Module Samples.
Import Actors.

(** A movement with the extruder on that is neither a loop nor a
    perimeter, over the real numbers. *)
Definition plain_movement : @Movement R :=
  {| point_a := {| x := 0%R; y := 0%R; z := 0%R |};
     point_b := {| x := 1%R; y := 0%R; z := 0%R |};
     extruder_on := true; is_loop := false;
     is_perimeter := false; is_perimeter_outer := false;
     angle := 0%R |}.

(** A mesh of one triangle over the real numbers. *)
Definition one_triangle : list (@Vector.vec3 R) * list (@Vector.vec3 R) :=
  ([(0, 0, 0); (1, 0, 0); (0, 2, 0)]%R, [(0, 0, 1); (0, 0, 1); (0, 0, 1)]%R).

(** The mesh of that triangle once its [bounding_box] has been read: the
    cache holds the box of the three vertices. *)
Definition boxed_triangle : @StlModel R :=
  {| s_model :=
       {| vertices := [(0, 0, 0); (1, 0, 0); (0, 2, 0)]%R;
          _bounding_box :=
            Some {| upper_corner := (1, 2, 0)%R; lower_corner := (0, 0, 0)%R |} |};
     normals := [(0, 0, 1); (0, 0, 1); (0, 0, 1)]%R;
     scaling_factor := 1%R |}.

(** The doubles 1, 3 and 7, and a mesh of one vertex in IEEE
    arithmetic. *)
Definition f1 : spec_float := Ieee.of_int 1.
Definition f3 : spec_float := Ieee.of_int 3.
Definition f7 : spec_float := Ieee.of_int 7.

Definition one_vertex : list (@Vector.vec3 spec_float) * list (@Vector.vec3 spec_float) :=
  ([(f3, f3, f3)], [(Ieee.of_int 0, Ieee.of_int 0, f1)]).

(** The row [(1, 2, 3)] of an array of dtype ['f']. *)
Definition row_1_2_3 : @Vector.vec3 spec_float :=
  (S754_finite false 8388608 (-23), S754_finite false 8388608 (-22),
   S754_finite false 12582912 (-22)).

(** The doubles the C library returns for the cosine and the sine of
    [math.radians(180)], and a library that returns them whatever it is
    asked: enough to run [rotate] at the angle 180. *)
Definition cos_180 : spec_float := S754_finite true 4503599627370496 (-52).
Definition sin_180 : spec_float := S754_finite false 4967757600021511 (-105).

Definition math_at_180 : Num.Math spec_float :=
  FMath (fun x _ => SFmul 53 1024 x x) (fun _ => cos_180) (fun _ => sin_180).

End Samples.

(** The views an application can hold: a new [View2D] or [View3D], then
    any of the gestures and of the stack operations that returned. *)
Module ViewsSpec.
Import Views.

Inductive reachable : ViewMode -> Prop :=
| reach_View2D : reachable View2D_init
| reach_View3D : reachable View3D_init
| reach_call (v v' : ViewMode) (c : call) :
    reachable v -> do_call v c = Ok v' -> reachable v'
| reach_push (v : ViewMode) : reachable v -> reachable (push_state v)
| reach_pop (v v' : ViewMode) : reachable v -> pop_state v = Ok v' -> reachable v'
| reach_reset (v v' : ViewMode) : reachable v -> reset_state v = Ok v' -> reachable v'.

(** A stack made of whole saved frames, one value per saved variable, each
    holding a zoom factor in range. *)
Inductive saved_frames (vars : list attr) : list float -> Prop :=
| saved_none : saved_frames vars []
| saved_more (s : list float) (g : attr -> float) :
    saved_frames vars s -> in_zoom_range (g attr_zoom_factor) = true ->
    saved_frames vars (s ++ map g vars).

End ViewsSpec.

(** The arrays of a Gcode model written from its movements. *)
Module GcodeContent.
Section WithArith.
Context {num : Type} {A : Num.Arith num}.
Import Actors.

(** The movements of the first [n] layers and those of layer [n] (counted
    from 0). *)
Definition movements_before (model_data : list (list (@Movement num))) (n : nat)
  : list (@Movement num) :=
  concat (firstn n model_data).

Definition movements_of (model_data : list (list (@Movement num))) (n : nat)
  : list (@Movement num) :=
  nth n model_data [].

(** [a[start : start + count]]. *)
Definition slice {T : Type} (a : list T) (start count : Z) : list T :=
  firstn (Z.to_nat count) (skipn (Z.to_nat start) a).

(** The stops appended for some layers when [count] vertices precede
    them. *)
Fixpoint stops_after (count : nat) (model_data : list (list (@Movement num))) : list Z :=
  match model_data with
  | [] => []
  | layer :: rest =>
      let count := (count + 2 * length layer)%nat in
      Z.of_nat count :: stops_after count rest
  end.

(** The vertices OpenGL reads from a buffer made from an array of shape
    [(n, k, 3)] through [glVertexPointer(3, GL_FLOAT, 0, None)]: the rows
    of three floats, in the order of the memory. *)
Definition gl_vertices (buffer : list (list (@Vector.vec3 num))) : list (@Vector.vec3 num) :=
  concat buffer.

End WithArith.
End GcodeContent.

(** Terms for the properties of meshes over the real numbers. *)
Module MeshSpec.
Import Actors.
Local Open Scope R_scope.

(** A vertex lies in a box. *)
Definition inside (box : @BoundingBox R) (v : @Vector.vec3 R) : Prop :=
  let '(a, b, c) := v in
  let '(la, lb, lc) := lower_corner box in
  let '(ua, ub, uc) := upper_corner box in
  la <= a <= ua /\ lb <= b <= ub /\ lc <= c <= uc.

End MeshSpec.

(** Terms for the properties stated in IEEE arithmetic. *)
Module FloatSpec.
Local Open Scope Z_scope.

(** A zero or a finite number: neither a NaN nor an infinity. *)
Definition finite (x : spec_float) : bool :=
  match x with
  | S754_zero _ | S754_finite _ _ _ => true
  | _ => false
  end.

Definition finite_row (v : @Vector.vec3 spec_float) : bool :=
  let '(a, b, c) := v in finite a && finite b && finite c.

(** A finite binary32 value, as the arrays of dtype ['f'] hold them. *)
Definition binary32 (x : spec_float) : bool :=
  finite x && SpecFloat.valid_binary 24 128 x.

Definition binary32_row (v : @Vector.vec3 spec_float) : bool :=
  let '(a, b, c) := v in binary32 a && binary32 b && binary32 c.

(** The same number: the same value, or two zeros, whatever their
    signs. *)
Definition same_number (a b : spec_float) : Prop :=
  a = b \/ (Ieee.is_zero a = true /\ Ieee.is_zero b = true).

Definition same_row (u v : @Vector.vec3 spec_float) : Prop :=
  let '(u0, u1, u2) := u in
  let '(v0, v1, v2) := v in
  same_number u0 v0 /\ same_number u1 v1 /\ same_number u2 v2.

(** The double [2 ^ k], for [k] from -1022 to 1023. *)
Definition pow2 (k : Z) : spec_float := S754_finite false 4503599627370496 (k - 52).

(** A binary32 value whose product with [2 ^ k] is a binary32 value with
    the same mantissa: the product neither overflows nor loses low bits. *)
Definition scales_by_pow2 (k : Z) (x : spec_float) : bool :=
  match x with
  | S754_zero _ => true
  | S754_finite s m e =>
      SpecFloat.valid_binary 24 128 x && SpecFloat.valid_binary 24 128 (S754_finite s m (e + k))
  | _ => false
  end.

Definition row_scales_by_pow2 (k : Z) (v : @Vector.vec3 spec_float) : bool :=
  let '(a, b, c) := v in
  scales_by_pow2 k a && scales_by_pow2 k b && scales_by_pow2 k c.

(** The binary32 value [2 ^ k], for [k] from -126 to 127. *)
Definition single_pow2 (k : Z) : spec_float := S754_finite false 8388608 (k - 23).

(** At a finite angle the cosine and the sine that Python hands on are
    finite doubles; the cosine lies between -1 and 1, so [1 - cos] is
    finite too. *)
Definition finite_trig (M : Num.Math spec_float) (angle : spec_float) : bool :=
  finite angle
  && finite (Num.cos (Num.radians angle))
  && finite (Num.sin (Num.radians angle))
  && finite (Num.sub (Num.lit 1) (Num.cos (Num.radians angle))).

End FloatSpec.

(* ================================================================== *)
(** * Part II: properties *)
(* ================================================================== *)

(** ** Facts on binary64 arithmetic

    The primitive operations are specified by [SpecFloat]'s functions on
    [spec_float] (sign, mantissa, exponent).  Two facts are needed on the
    zoom factor: multiplying a double of [[0.1, 1000]] by [1.2] does not
    make it smaller, and multiplying it by [0.83] does not make it
    larger.  Both follow from the shape of rounding in the normal range. *)

Module Binary64.
Import Doubles.
Local Open Scope Z_scope.

Lemma digits2_pos_size (p : positive) : digits2_pos p = Pos.size p.
Proof. induction p; simpl; congruence. Qed.

Lemma digits2_pos_bounds (p : positive) :
  2 ^ (Zpos (digits2_pos p) - 1) <= Zpos p < 2 ^ Zpos (digits2_pos p).
Proof.
  rewrite digits2_pos_size.
  pose proof (Pos.size_gt p) as Hgt.
  pose proof (Pos.size_le p) as Hle.
  apply Pos2Z.pos_lt_pos in Hgt. apply Pos2Z.pos_le_pos in Hle.
  rewrite Pos2Z.inj_pow in Hgt, Hle.
  change (Z.pos p~0) with (2 * Z.pos p) in Hle.
  split; [|exact Hgt].
  replace (Z.pos (Pos.size p)) with (Z.succ (Z.pos (Pos.size p) - 1)) in Hle by lia.
  rewrite Z.pow_succ_r in Hle by lia. lia.
Qed.

Lemma digits2_pos_unique (p : positive) (k : Z) :
  2 ^ (k - 1) <= Zpos p < 2 ^ k -> Zpos (digits2_pos p) = k.
Proof.
  intros [Hl Hu]. pose proof (digits2_pos_bounds p) as [Hl' Hu'].
  set (d := Zpos (digits2_pos p)) in *.
  assert (0 < k). { destruct (Z_lt_le_dec 0 k); auto. rewrite Z.pow_neg_r in Hl by lia.
    assert (2 ^ k <= 2 ^ 0) by (apply Z.pow_le_mono_r; lia). simpl in *. lia. }
  destruct (Z.lt_trichotomy d k) as [H1|[H1|H1]]; auto.
  - assert (2 ^ d <= 2 ^ (k - 1)) by (apply Z.pow_le_mono_r; lia). lia.
  - assert (2 ^ k <= 2 ^ (d - 1)) by (apply Z.pow_le_mono_r; lia). lia.
Qed.

Lemma shr_1_m (mrs : shr_record) :
  0 <= shr_m mrs -> shr_m (shr_1 mrs) = shr_m mrs / 2.
Proof.
  destruct mrs as [m r s]; simpl. intros Hm.
  rewrite <- Z.div2_div.
  destruct m as [|[p|p|]|p]; simpl; try reflexivity; lia.
Qed.

Lemma iter_shr_1_m (p : positive) (mrs : shr_record) :
  0 <= shr_m mrs -> shr_m (SpecFloat.iter_pos shr_1 p mrs) = shr_m mrs / 2 ^ Zpos p.
Proof.
  revert mrs. induction p as [p IH|p IH|]; intros mrs Hm; simpl SpecFloat.iter_pos.
  - assert (H1 : 0 <= shr_m (shr_1 mrs)) by (rewrite shr_1_m by auto; apply Z.div_pos; lia).
    assert (H2 : 0 <= shr_m (SpecFloat.iter_pos shr_1 p (shr_1 mrs))).
    { rewrite IH by auto. apply Z.div_pos; [auto|apply Z.pow_pos_nonneg; lia]. }
    rewrite IH by auto. rewrite IH by auto. rewrite shr_1_m by auto.
    rewrite !Z.div_div by (try apply Z.pow_pos_nonneg; lia).
    f_equal. rewrite <- Z.pow_add_r by lia. rewrite <- Z.pow_succ_r by lia.
    f_equal. lia.
  - assert (H2 : 0 <= shr_m (SpecFloat.iter_pos shr_1 p mrs)).
    { rewrite IH by auto. apply Z.div_pos; [auto|apply Z.pow_pos_nonneg; lia]. }
    rewrite IH by auto. rewrite IH by auto.
    rewrite !Z.div_div by (try apply Z.pow_pos_nonneg; lia).
    f_equal. rewrite <- Z.pow_add_r by lia. f_equal. lia.
  - rewrite shr_1_m by auto. reflexivity.
Qed.

Lemma round_nearest_even_range (m : Z) (l : location) :
  m <= round_nearest_even m l <= m + 1.
Proof.
  destruct l as [|[| |]]; simpl; try lia. destruct (Z.even m); lia.
Qed.


Lemma fexp_normal (k : Z) : -1074 <= k - 53 -> fexp 53 1024 k = k - 53.
Proof. unfold fexp, emin. lia. Qed.

Lemma div_pow2_range (P d : Z) :
  53 < d -> 2 ^ (d - 1) <= P < 2 ^ d -> 2 ^ 52 <= P / 2 ^ (d - 53) < 2 ^ 53.
Proof.
  intros Hd [Hl Hu].
  assert (Hpos : 0 < 2 ^ (d - 53)) by (apply Z.pow_pos_nonneg; lia).
  assert (E1 : 2 ^ (d - 1) = 2 ^ 52 * 2 ^ (d - 53)).
  { rewrite <- Z.pow_add_r by lia. f_equal. lia. }
  assert (E2 : 2 ^ d = 2 ^ 53 * 2 ^ (d - 53)).
  { rewrite <- Z.pow_add_r by lia. f_equal. lia. }
  split.
  - apply Z.div_le_lower_bound; lia.
  - apply Z.div_lt_upper_bound; lia.
Qed.

Lemma binary_round_aux_normal (P : positive) (ex d : Z) :
  Zpos (digits2_pos P) = d -> 53 < d ->
  -1074 <= ex + d - 53 -> ex + d - 53 < 971 ->
  exists m' e',
    binary_round_aux 53 1024 false (Zpos P) ex loc_Exact = S754_finite false m' e' /\
    ((e' = ex + d - 53 /\ Zpos P / 2 ^ (d - 53) <= Zpos m' <= Zpos P / 2 ^ (d - 53) + 1
        /\ Zpos m' < 2 ^ 53)
     \/ (e' = ex + d - 52 /\ Zpos m' = 2 ^ 52 /\ Zpos P / 2 ^ (d - 53) + 1 = 2 ^ 53)).
Proof.
  intros Hd Hlt Hlo Hhi.
  pose proof (digits2_pos_bounds P) as HP. rewrite Hd in HP.
  pose proof (div_pow2_range _ _ Hlt HP) as Hq.
  unfold binary_round_aux, shr_fexp.
  cbn [Zdigits2]. rewrite Hd. rewrite fexp_normal by lia.
  replace (d + ex - 53 - ex) with (d - 53) by lia.
  destruct (d - 53) as [|n|n] eqn:En; try lia.
  cbn [shr]. rewrite iter_shr_1_m by (simpl; lia).
  cbn [shr_record_of_loc shr_m].
  set (q := Z.pos P / 2 ^ Z.pos n) in *.
  set (l := loc_of_shr_record _).
  pose proof (round_nearest_even_range q l) as Hr.
  destruct (round_nearest_even q l) as [|m2|m2]; try lia.
  destruct (Z_lt_le_dec (Z.pos m2) (2 ^ 53)) as [Hm|Hm].
  - assert (Hd2 : Zpos (digits2_pos m2) = 53) by (apply digits2_pos_unique; lia).
    cbn [Zdigits2]. rewrite Hd2. rewrite fexp_normal by lia.
    replace (53 + (ex + Z.pos n) - 53 - (ex + Z.pos n)) with 0 by lia.
    cbn [shr shr_m].
    replace (ex + Z.pos n <=? 1024 - 53) with true by (symmetry; apply Z.leb_le; lia).
    exists m2, (ex + Z.pos n). split; [reflexivity|]. left. lia.
  - assert (Hm2 : Z.pos m2 = 2 ^ 53) by lia.
    assert (Em : m2 = (2 ^ 53)%positive) by (apply Pos2Z.inj; rewrite Hm2; reflexivity).
    subst m2. cbn [Zdigits2]. change (Z.pos (digits2_pos (2 ^ 53))) with 54.
    rewrite fexp_normal by lia.
    replace (54 + (ex + Z.pos n) - 53 - (ex + Z.pos n)) with 1 by lia.
    cbn [shr SpecFloat.iter_pos shr_1 shr_m].
    replace (ex + Z.pos n + 1 <=? 1024 - 53) with true by (symmetry; apply Z.leb_le; lia).
    eexists _, _. split; [reflexivity|]. right. split; [lia|]. split; [reflexivity|]. lia.
Qed.

Lemma SFleb_finite_pos (m1 m2 : positive) (e1 e2 : Z) :
  SFleb (S754_finite false m1 e1) (S754_finite false m2 e2) = true <->
  e1 < e2 \/ (e1 = e2 /\ Zpos m1 <= Zpos m2).
Proof.
  unfold SFleb, SFcompare. fold (Pos.compare m1 m2).
  destruct (Z.compare_spec e1 e2) as [He|He|He].
  - destruct (Pos.compare_spec m1 m2) as [Hm|Hm|Hm]; split; try lia; try discriminate; auto.
  - split; auto.
  - split; [discriminate|lia].
Qed.

Lemma SFltb_finite_pos (m1 m2 : positive) (e1 e2 : Z) :
  SFltb (S754_finite false m1 e1) (S754_finite false m2 e2) = true <->
  e1 < e2 \/ (e1 = e2 /\ Zpos m1 < Zpos m2).
Proof.
  unfold SFltb, SFcompare. fold (Pos.compare m1 m2).
  destruct (Z.compare_spec e1 e2) as [He|He|He].
  - destruct (Pos.compare_spec m1 m2) as [Hm|Hm|Hm]; split; try lia; try discriminate; auto.
  - split; auto.
  - split; [discriminate|lia].
Qed.


Lemma in_range_inv (z : spec_float) :
  valid_binary z = true -> SFleb c0_1 z = true -> SFleb z c1000 = true ->
  exists m e, z = S754_finite false m e /\ 2 ^ 52 <= Zpos m < 2 ^ 53 /\
    (-56 < e \/ (-56 = e /\ 7205759403792794 <= Zpos m)) /\
    (e < -43 \/ (e = -43 /\ Zpos m <= 8796093022208000)).
Proof.
  intros Hv Hlo Hhi.
  destruct z as [s|s| |s m e]; try destruct s; try discriminate.
  apply SFleb_finite_pos in Hlo, Hhi.
  exists m, e. split; [reflexivity|]. split; [|split; assumption].
  simpl in Hv. unfold bounded, canonical_mantissa in Hv.
  apply andb_true_iff in Hv. destruct Hv as [Hc _]. apply Z.eqb_eq in Hc.
  unfold FloatOps.prec, FloatOps.emax in Hc.
  rewrite fexp_normal in Hc by lia.
  pose proof (digits2_pos_bounds m) as Hb.
  replace (Z.pos (digits2_pos m)) with 53 in Hb by lia. exact Hb.
Qed.

Lemma SFmul_1_2_grows (m : positive) (e : Z) :
  2 ^ 52 <= Zpos m < 2 ^ 53 -> -56 <= e <= -43 ->
  exists m' e', SFmul 53 1024 (S754_finite false m e) c1_2 = S754_finite false m' e' /\
    (e < e' \/ (e = e' /\ Zpos m <= Zpos m')).
Proof.
  intros Hm He. unfold c1_2. cbn [SFmul xorb].
  set (P := (m * 5404319552844595)%positive).
  assert (HP : Zpos P = Zpos m * 5404319552844595) by reflexivity.
  change (2 ^ 52) with 4503599627370496 in Hm.
  change (2 ^ 53) with 9007199254740992 in Hm.
  destruct (Z_lt_le_dec (Zpos P) (2 ^ 105)) as [Hd|Hd].
  - assert (D : Zpos (digits2_pos P) = 105).
    { apply digits2_pos_unique. split; [|exact Hd].
      change (2 ^ (105 - 1)) with 20282409603651670423947251286016. lia. }
    destruct (binary_round_aux_normal P (e + -52) 105 D) as (m' & e' & E & Hcase); try lia.
    exists m', e'. split; [exact E|].
    change (105 - 53) with 52 in Hcase.
    assert (Hq : Zpos m <= Zpos P / 2 ^ 52).
    { apply Z.div_le_lower_bound; [reflexivity|].
      change (2 ^ 52) with 4503599627370496. lia. }
    destruct Hcase as [(He' & Hm' & _)|(He' & _ & _)]; [right|left]; lia.
  - assert (D : Zpos (digits2_pos P) = 106).
    { apply digits2_pos_unique. split; [exact Hd|].
      change (2 ^ 106) with 81129638414606681695789005144064. lia. }
    destruct (binary_round_aux_normal P (e + -52) 106 D) as (m' & e' & E & Hcase); try lia.
    exists m', e'. split; [exact E|]. left. lia.
Qed.

Lemma SFmul_0_83_shrinks (m : positive) (e : Z) :
  2 ^ 52 <= Zpos m < 2 ^ 53 -> -56 <= e <= -43 ->
  exists m' e', SFmul 53 1024 (S754_finite false m e) c0_83 = S754_finite false m' e' /\
    (e' < e \/ (e' = e /\ Zpos m' <= Zpos m)) /\ e - 1 <= e' /\ 2 ^ 52 <= Zpos m'.
Proof.
  intros Hm He. unfold c0_83. cbn [SFmul xorb].
  set (P := (m * 7475975381435023)%positive).
  assert (HP : Zpos P = Zpos m * 7475975381435023) by reflexivity.
  change (2 ^ 52) with 4503599627370496 in *.
  change (2 ^ 53) with 9007199254740992 in Hm.
  destruct (Z_lt_le_dec (Zpos P) (2 ^ 105)) as [Hd|Hd].
  - assert (D : Zpos (digits2_pos P) = 105).
    { apply digits2_pos_unique. split; [|exact Hd].
      change (2 ^ (105 - 1)) with 20282409603651670423947251286016. lia. }
    destruct (binary_round_aux_normal P (e + -53) 105 D) as (m' & e' & E & Hcase); try lia.
    exists m', e'. split; [exact E|].
    change (105 - 53) with 52 in Hcase.
    pose proof (div_pow2_range (Zpos P) 105 ltac:(lia)) as Hq.
    change (105 - 53) with 52 in Hq.
    change (2 ^ 52) with 4503599627370496 in *.
    change (2 ^ 53) with 9007199254740992 in *.
    change (2 ^ (105 - 1)) with 20282409603651670423947251286016 in Hq.
    assert (Hl : 20282409603651670423947251286016 <= Z.pos P) by lia.
    specialize (Hq (conj Hl Hd)).
    destruct Hcase as [(He' & Hm' & _)|(He' & Hm' & _)]; lia.
  - assert (D : Zpos (digits2_pos P) = 106).
    { apply digits2_pos_unique. split; [exact Hd|].
      change (2 ^ 106) with 81129638414606681695789005144064. lia. }
    destruct (binary_round_aux_normal P (e + -53) 106 D) as (m' & e' & E & Hcase); try lia.
    exists m', e'. split; [exact E|].
    change (106 - 53) with 53 in Hcase.
    pose proof (div_pow2_range (Zpos P) 106 ltac:(lia)) as Hq.
    change (106 - 53) with 53 in Hq.
    assert (Hlt : Zpos P / 2 ^ 53 < Zpos m).
    { apply Z.div_lt_upper_bound; [reflexivity|].
      change (2 ^ 53) with 9007199254740992. lia. }
    change (2 ^ 52) with 4503599627370496 in *.
    change (2 ^ 53) with 9007199254740992 in *.
    change (2 ^ (106 - 1)) with 40564819207303340847894502572032 in Hq.
    change (2 ^ 106) with 81129638414606681695789005144064 in Hq.
    assert (Hu : Z.pos P < 81129638414606681695789005144064) by lia.
    specialize (Hq (conj Hd Hu)).
    destruct Hcase as [(He' & Hm' & _)|(He' & Hm' & Hc)]; lia.
Qed.
End Binary64.

(** ** views.py: the zoom factor *)

Module ViewsZoom.
Import Views Doubles Binary64.
Local Open Scope float_scope.

Lemma Prim2SF_ZOOM_MIN : Prim2SF ZOOM_MIN = c0_1.
Proof. vm_compute. reflexivity. Qed.

Lemma Prim2SF_ZOOM_MAX : Prim2SF ZOOM_MAX = c1000.
Proof. vm_compute. reflexivity. Qed.

Lemma Prim2SF_1_2 : Prim2SF 1.2 = c1_2.
Proof. vm_compute. reflexivity. Qed.

Lemma Prim2SF_0_83 : Prim2SF 0.83 = c0_83.
Proof. vm_compute. reflexivity. Qed.

(** A zoom factor in range is a positive normal double. *)
Lemma in_zoom_range_inv (f : float) :
  in_zoom_range f = true ->
  exists m e, Prim2SF f = S754_finite false m e /\
    (2 ^ 52 <= Zpos m < 2 ^ 53)%Z /\
    (-56 < e \/ (-56 = e /\ 7205759403792794 <= Zpos m))%Z /\
    (e < -43 \/ (e = -43 /\ Zpos m <= 8796093022208000))%Z.
Proof.
  unfold in_zoom_range. intros H. apply andb_true_iff in H. destruct H as [Hlo Hhi].
  rewrite leb_spec, Prim2SF_ZOOM_MIN in Hlo.
  rewrite leb_spec, Prim2SF_ZOOM_MAX in Hhi.
  apply in_range_inv; auto. apply Prim2SF_valid.
Qed.

Lemma in_zoom_range_intro (f : float) (m : positive) (e : Z) :
  Prim2SF f = S754_finite false m e ->
  (-56 < e \/ (-56 = e /\ 7205759403792794 <= Zpos m))%Z ->
  (e < -43 \/ (e = -43 /\ Zpos m <= 8796093022208000))%Z ->
  in_zoom_range f = true.
Proof.
  intros E Hlo Hhi. unfold in_zoom_range.
  rewrite !leb_spec, Prim2SF_ZOOM_MIN, Prim2SF_ZOOM_MAX, E.
  apply andb_true_iff. split; apply SFleb_finite_pos; assumption.
Qed.

(** Zooming in: [min(f * 1.2, ZOOM_MAX)] stays in range. *)
Lemma zoom_in_in_range (f : float) :
  in_zoom_range f = true -> in_zoom_range (py_min (f * 1.2) ZOOM_MAX) = true.
Proof.
  intros H. destruct (in_zoom_range_inv f H) as (m & e & E & Hm & Hlo & Hhi).
  unfold py_min. destruct (ZOOM_MAX <? f * 1.2) eqn:Hcmp; [reflexivity|].
  destruct (SFmul_1_2_grows m e Hm ltac:(lia)) as (m' & e' & E' & Hle).
  assert (Er : Prim2SF (f * 1.2) = S754_finite false m' e').
  { rewrite mul_spec, E, Prim2SF_1_2. exact E'. }
  rewrite ltb_spec, Prim2SF_ZOOM_MAX, Er in Hcmp.
  apply (in_zoom_range_intro _ m' e' Er); [lia|].
  destruct (Z_lt_le_dec e' (-43)) as [He|He]; [left; exact He|].
  destruct (Z_le_gt_dec (Zpos m') 8796093022208000) as [Hm'|Hm'].
  - destruct (Z.eq_dec e' (-43)) as [->|Hne]; [right; split; [reflexivity|exact Hm']|].
    assert (Hc : SFltb c1000 (S754_finite false m' e') = true)
      by (apply SFltb_finite_pos; left; lia).
    congruence.
  - assert (Hc : SFltb c1000 (S754_finite false m' e') = true).
    { apply SFltb_finite_pos. destruct (Z.eq_dec e' (-43)); [right|left]; lia. }
    congruence.
Qed.

(** Zooming out: [max(f * 0.83, ZOOM_MIN)] stays in range. *)
Lemma zoom_out_in_range (f : float) :
  in_zoom_range f = true -> in_zoom_range (py_max (f * 0.83) ZOOM_MIN) = true.
Proof.
  intros H. destruct (in_zoom_range_inv f H) as (m & e & E & Hm & Hlo & Hhi).
  unfold py_max. destruct (f * 0.83 <? ZOOM_MIN) eqn:Hcmp; [reflexivity|].
  destruct (SFmul_0_83_shrinks m e Hm ltac:(lia)) as (m' & e' & E' & Hle & He' & Hm').
  assert (Er : Prim2SF (f * 0.83) = S754_finite false m' e').
  { rewrite mul_spec, E, Prim2SF_0_83. exact E'. }
  rewrite ltb_spec, Prim2SF_ZOOM_MIN, Er in Hcmp.
  apply (in_zoom_range_intro _ m' e' Er); [|lia].
  destruct (Z_lt_le_dec (-56) e') as [He|He]; [left; exact He|].
  destruct (Z_le_gt_dec 7205759403792794 (Zpos m')) as [Hm2|Hm2].
  - destruct (Z.eq_dec e' (-56)) as [->|Hne]; [right; split; [reflexivity|exact Hm2]|].
    assert (Hc : SFltb (S754_finite false m' e') c0_1 = true)
      by (apply SFltb_finite_pos; left; lia).
    congruence.
  - assert (Hc : SFltb (S754_finite false m' e') c0_1 = true).
    { apply SFltb_finite_pos. destruct (Z.eq_dec e' (-56)); [right|left]; lia. }
    congruence.
Qed.

Lemma zoom_in_zoom_range (self : ViewMode) (delta_x delta_y : float) :
  in_zoom_range (zoom_factor self) = true ->
  in_zoom_range (zoom_factor (zoom self delta_x delta_y)) = true.
Proof.
  intros H. unfold zoom.
  destruct (0 <? delta_y); [apply zoom_in_in_range; exact H|].
  destruct (delta_y <? 0); [apply zoom_out_in_range; exact H|exact H].
Qed.

Lemma zooms_in_zoom_range (deltas : list (float * float)) (self : ViewMode) :
  in_zoom_range (zoom_factor self) = true ->
  in_zoom_range (zoom_factor (zooms self deltas)) = true.
Proof.
  revert self. induction deltas as [|d deltas IH]; intros self H; [exact H|].
  apply IH. apply zoom_in_zoom_range. exact H.
Qed.

End ViewsZoom.

Module ViewsSign.
Import Views.
Local Open Scope float_scope.

Lemma Prim2SF_zero : Prim2SF 0 = S754_zero false.
Proof. vm_compute. reflexivity. Qed.

(** The two tests of [zoom] read the sign of [delta_y] and nothing else. *)
Lemma gt_zero_sign (d : float) : (0 <? d) = true <-> sign d = Some Gt.
Proof.
  unfold sign. rewrite FloatAxioms.ltb_spec, FloatAxioms.compare_spec, Prim2SF_zero.
  destruct (Prim2SF d) as [s|s| |s m e]; try destruct s;
    cbv [SFltb SFeqb SFcompare flatten_cmp_opt];
    split; intros H; congruence.
Qed.

Lemma lt_zero_sign (d : float) : (d <? 0) = true <-> sign d = Some Lt.
Proof.
  unfold sign. rewrite FloatAxioms.ltb_spec, FloatAxioms.compare_spec, Prim2SF_zero.
  destruct (Prim2SF d) as [s|s| |s m e]; try destruct s;
    cbv [SFltb SFeqb SFcompare flatten_cmp_opt];
    split; intros H; congruence.
Qed.

Lemma eq_zero_sign (d : float) : (d =? 0) = true <-> sign d = Some Eq.
Proof.
  unfold sign. rewrite FloatAxioms.eqb_spec, FloatAxioms.compare_spec, Prim2SF_zero.
  destruct (Prim2SF d) as [s|s| |s m e]; try destruct s;
    cbv [SFltb SFeqb SFcompare flatten_cmp_opt];
    split; intros H; congruence.
Qed.

Lemma gt_zero_by_sign (d d' : float) : sign d = sign d' -> (0 <? d) = (0 <? d').
Proof.
  intros H. destruct (0 <? d) eqn:E.
  - symmetry. apply gt_zero_sign. rewrite <- H. apply gt_zero_sign. exact E.
  - destruct (0 <? d') eqn:E'; [|reflexivity].
    apply gt_zero_sign in E'. rewrite <- H in E'. apply gt_zero_sign in E'. congruence.
Qed.

Lemma lt_zero_by_sign (d d' : float) : sign d = sign d' -> (d <? 0) = (d' <? 0).
Proof.
  intros H. destruct (d <? 0) eqn:E.
  - symmetry. apply lt_zero_sign. rewrite <- H. apply lt_zero_sign. exact E.
  - destruct (d' <? 0) eqn:E'; [|reflexivity].
    apply lt_zero_sign in E'. rewrite <- H in E'. apply lt_zero_sign in E'. congruence.
Qed.

Lemma lt_zero_not_gt (d : float) : (d <? 0) = true -> (0 <? d) = false.
Proof.
  intros H. apply lt_zero_sign in H.
  destruct (0 <? d) eqn:E; [|reflexivity].
  apply gt_zero_sign in E. congruence.
Qed.

End ViewsSign.


(** ** views.py: the state stack *)

Module ViewsState.
Import Views ViewsZoom.
Local Open Scope float_scope.

Lemma attr_eq_dec (a b : attr) : {a = b} + {a <> b}.
Proof. decide equality. Qed.

Lemma pop_app {T : Type} (l : list T) (a : T) : pop (l ++ [a]) = Ok (l, a).
Proof. unfold pop. rewrite rev_app_distr. simpl. rewrite rev_involutive. reflexivity. Qed.

Lemma set_stack_same (self : ViewMode) : set_stack self (_stack self) = self.
Proof. destruct self; reflexivity. Qed.

Lemma getattr_setattr_same (self : ViewMode) (a : attr) (v : float) :
  getattr (setattr self a v) a = v.
Proof. destruct a; reflexivity. Qed.

Lemma getattr_setattr_other (self : ViewMode) (a b : attr) (v : float) :
  a <> b -> getattr (setattr self a v) b = getattr self b.
Proof. destruct a, b; intros H; try reflexivity; congruence. Qed.

(** What [setattr] and [set_stack] leave alone. *)
Lemma setattr_frame (self : ViewMode) (a : attr) (v : float) :
  _stack (setattr self a v) = _stack self /\
  _save_vars (setattr self a v) = _save_vars self /\
  cls (setattr self a v) = cls self.
Proof. destruct a; repeat split. Qed.

(** [push_state] appends the current values of the saved variables, in
    order, and changes nothing else. *)
Lemma push_loop_spec (vars : list attr) (self : ViewMode) :
  fold_left (fun self var => set_stack self (_stack self ++ [getattr self var])) vars self
  = set_stack self (_stack self ++ map (getattr self) vars).
Proof.
  revert self. induction vars as [|a vars IH]; intros self.
  - simpl. rewrite app_nil_r. symmetry. apply set_stack_same.
  - simpl. rewrite IH. simpl. rewrite <- app_assoc. reflexivity.
Qed.

Lemma push_state_spec (self : ViewMode) :
  push_state self = set_stack self (_stack self ++ map (getattr self) (_save_vars self)).
Proof. apply push_loop_spec. Qed.

(** [pop_state]'s loop, run on a stack that ends with the values [g] of
    [vars], restores each of them to its value and removes them. *)
Lemma pop_vars_spec (g : attr -> float) (vars : list attr) :
  forall (self : ViewMode) (s : list float),
    _stack self = s ++ map g vars ->
    exists self',
      pop_vars (rev vars) self = Ok self' /\
      _stack self' = s /\
      _save_vars self' = _save_vars self /\
      cls self' = cls self /\
      (forall a, In a vars -> getattr self' a = g a) /\
      (forall a, ~ In a vars -> getattr self' a = getattr self a).
Proof.
  induction vars as [|a vars IH] using rev_ind; intros self s Hs.
  - simpl in *. rewrite app_nil_r in Hs. exists self. repeat split; auto.
    intros a [].
  - rewrite rev_app_distr. simpl.
    rewrite map_app, app_assoc in Hs. simpl in Hs.
    rewrite Hs, pop_app.
    set (self1 := setattr (set_stack self (s ++ map g vars)) a (g a)).
    destruct (setattr_frame (set_stack self (s ++ map g vars)) a (g a))
      as (F1 & F2 & F3). fold self1 in F1, F2, F3. simpl in F1, F2, F3.
    destruct (IH self1 s F1) as (self' & E & S1 & S2 & S3 & Hin & Hout).
    exists self'. split; [exact E|]. split; [exact S1|].
    split; [congruence|]. split; [congruence|]. split.
    + intros b Hb. destruct (in_dec attr_eq_dec b vars) as [Hv|Hv]; [apply Hin; exact Hv|].
      apply in_app_or in Hb. destruct Hb as [Hb|[Hb|[]]]; [contradiction|]. subst b.
      rewrite (Hout a Hv). apply getattr_setattr_same.
    + intros b Hb. rewrite Hout by (intros Hv; apply Hb; apply in_or_app; left; exact Hv).
      unfold self1. rewrite getattr_setattr_other.
      * destruct b; reflexivity.
      * intros ->. apply Hb. apply in_or_app. right. left. reflexivity.
Qed.

(** The camera gestures do not touch the stack, the list of saved
    variables or the class. *)
Lemma do_call_frame (self self' : ViewMode) (c : call) :
  do_call self c = Ok self' ->
  _stack self' = _stack self /\ _save_vars self' = _save_vars self /\ cls self' = cls self.
Proof.
  destruct c as [dx dy|dx dy|dx dy]; simpl.
  - intros H. injection H as <-. unfold rotate. destruct (cls self) eqn:E; simpl; auto.
  - unfold pan. destruct (cls self) eqn:E.
    + intros H. injection H as <-. simpl. auto.
    + simpl. destruct (truediv dx (zoom_factor self)) as [a|]; simpl; [|discriminate].
      destruct (truediv dy (zoom_factor self)) as [b|]; simpl; [|discriminate].
      intros H. injection H as <-. simpl. auto.
  - intros H. injection H as <-. unfold zoom.
    destruct (0 <? dy); [simpl; auto|]. destruct (dy <? 0); simpl; auto.
Qed.

Lemma run_frame (calls : list call) :
  forall self self', run calls self = Ok self' ->
  _stack self' = _stack self /\ _save_vars self' = _save_vars self /\ cls self' = cls self.
Proof.
  induction calls as [|c calls IH]; intros self self' H; simpl in H.
  - injection H as <-. auto.
  - destruct (do_call self c) as [self1|] eqn:E; [|discriminate].
    destruct (do_call_frame _ _ _ E) as (A1 & A2 & A3).
    destruct (IH _ _ H) as (B1 & B2 & B3). repeat split; congruence.
Qed.

(** [reset_state] after a [push_state] and any gestures. *)
Lemma reset_after_push (self self' : ViewMode) (calls : list call) :
  run calls (push_state self) = Ok self' ->
  exists self'',
    reset_state self' = Ok self'' /\
    (forall a, In a (_save_vars self) -> getattr self'' a = getattr self a) /\
    _stack self'' = _stack self' /\
    _stack self'' = _stack (push_state self).
Proof.
  intros Hrun. destruct (run_frame _ _ _ Hrun) as (F1 & F2 & F3).
  rewrite push_state_spec in F1, F2, F3. simpl in F1, F2, F3.
  unfold reset_state, pop_state. rewrite F2.
  destruct (pop_vars_spec (getattr self) (_save_vars self) self' (_stack self) F1)
    as (p & E & S1 & S2 & S3 & Hin & Hout).
  rewrite E. exists (push_state p). split; [reflexivity|].
  assert (Hstack : _stack (push_state p) = _stack self').
  { rewrite push_state_spec. simpl. rewrite S1, S2, F2, F1. f_equal.
    apply map_ext_in. exact Hin. }
  split; [|split].
  - intros a Ha. rewrite push_state_spec. transitivity (getattr p a).
    + destruct a; reflexivity.
    + apply Hin. exact Ha.
  - exact Hstack.
  - rewrite Hstack, F1, push_state_spec. reflexivity.
Qed.

(** A zoom factor in range is not zero, so [View3D.pan] does not raise. *)
Lemma in_zoom_range_nonzero (f : float) : in_zoom_range f = true -> (f =? 0) = false.
Proof.
  intros H. destruct (in_zoom_range_inv f H) as (m & e & E & _).
  rewrite FloatAxioms.eqb_spec, E. vm_compute. reflexivity.
Qed.

Lemma do_call_total (self : ViewMode) (c : call) :
  in_zoom_range (zoom_factor self) = true \/ cls self = View2D ->
  exists self', do_call self c = Ok self' /\
    (in_zoom_range (zoom_factor self') = true \/ cls self' = View2D).
Proof.
  intros H. destruct c as [dx dy|dx dy|dx dy]; simpl.
  - eexists. split; [reflexivity|]. unfold rotate.
    destruct (cls self) eqn:E; simpl; destruct H as [H|H]; auto; congruence.
  - unfold pan. destruct (cls self) eqn:E.
    + eexists. split; [reflexivity|]. right. exact E.
    + destruct H as [H|H]; [|congruence].
      unfold truediv. simpl. rewrite (in_zoom_range_nonzero _ H). simpl.
      eexists. split; [reflexivity|]. left. exact H.
  - eexists. split; [reflexivity|]. destruct H as [H|H].
    + left. apply zoom_in_zoom_range. exact H.
    + right. unfold zoom. destruct (0 <? dy); [exact H|]. destruct (dy <? 0); exact H.
Qed.

Lemma run_total (calls : list call) :
  forall self, in_zoom_range (zoom_factor self) = true \/ cls self = View2D ->
  exists self', run calls self = Ok self'.
Proof.
  induction calls as [|c calls IH]; intros self H; simpl.
  - eexists; reflexivity.
  - destruct (do_call_total self c H) as (self1 & E & H1). rewrite E. apply IH. exact H1.
Qed.

End ViewsState.

(** ** views.py: the claims *)

Module ViewsClaims.
Import Views ViewsZoom ViewsSign ViewsState.
Local Open Scope float_scope.

(** C6.  A zoom factor that starts in [[0.1, 1000]] is still there after any
    sequence of [zoom] calls.  A call with a positive [delta_y] sets it to
    the product with [1.2], or to [1000] when the product is above [1000];
    a call with a negative [delta_y] sets it to the product with [0.83], or
    to [0.1] when the product is below [0.1]. *)
Theorem zoom_factor_clamped (self : ViewMode) (deltas : list (float * float)) :
  in_zoom_range (zoom_factor self) = true ->
  in_zoom_range (zoom_factor (zooms self deltas)) = true /\
  (forall v dx dy, (0 <? dy) = true ->
     zoom_factor (zoom v dx dy) =
       if ZOOM_MAX <? zoom_factor v * 1.2 then ZOOM_MAX else zoom_factor v * 1.2) /\
  (forall v dx dy, (dy <? 0) = true ->
     zoom_factor (zoom v dx dy) =
       if zoom_factor v * 0.83 <? ZOOM_MIN then ZOOM_MIN else zoom_factor v * 0.83).
Proof.
  intros H. split; [apply zooms_in_zoom_range; exact H|]. split.
  - intros v dx dy Hdy. unfold zoom. rewrite Hdy. reflexivity.
  - intros v dx dy Hdy. unfold zoom.
    rewrite (lt_zero_not_gt dy Hdy), Hdy. reflexivity.
Qed.

Lemma zoom_factor_clamped_witness :
  in_zoom_range
    (zoom_factor (zooms View3D_init [(0, 1); (0, 1); (3, -2); (0, 0); (1, 5)])) = true.
Proof.
  exact (proj1 (zoom_factor_clamped View3D_init
                  [(0, 1); (0, 1); (3, -2); (0, 0); (1, 5)] eq_refl)).
Defined.

(** C10.  [zoom] does not read [delta_x]; a [delta_y] equal to zero leaves
    the view as it is; and the new zoom factor is a function of the old
    zoom factor and of the sign of [delta_y]. *)
Theorem zoom_reads_sign_of_delta_y :
  (forall self dx dx' dy, zoom self dx dy = zoom self dx' dy) /\
  (forall self dx dy, (dy =? 0) = true -> zoom self dx dy = self) /\
  (forall self self' dx dx' dy dy',
     zoom_factor self = zoom_factor self' -> sign dy = sign dy' ->
     zoom_factor (zoom self dx dy) = zoom_factor (zoom self' dx' dy')).
Proof.
  split; [reflexivity|]. split.
  - intros self dx dy H. apply eq_zero_sign in H. unfold zoom.
    destruct (0 <? dy) eqn:E1; [apply gt_zero_sign in E1; congruence|].
    destruct (dy <? 0) eqn:E2; [apply lt_zero_sign in E2; congruence|].
    reflexivity.
  - intros self self' dx dx' dy dy' Hz Hs. unfold zoom.
    rewrite (gt_zero_by_sign dy dy' Hs), (lt_zero_by_sign dy dy' Hs).
    destruct (0 <? dy'); [simpl; rewrite Hz; reflexivity|].
    destruct (dy' <? 0); [simpl; rewrite Hz; reflexivity|exact Hz].
Qed.

Lemma zoom_reads_sign_of_delta_y_witness :
  zoom View2D_init 7 0 = View2D_init /\
  zoom_factor (zoom View2D_init 1 2) = zoom_factor (zoom View2D_init (-4) 0.5).
Proof.
  destruct zoom_reads_sign_of_delta_y as (_ & H0 & Hs). split.
  - apply (H0 View2D_init 7 0). reflexivity.
  - apply (Hs View2D_init View2D_init 1 (-4) 2 0.5); reflexivity.
Defined.


(** C7.  After [push_state] and any sequence of [rotate], [pan] and [zoom]
    calls, [reset_state] gives every saved parameter ([x], [y], [z],
    [zoom_factor], [azimuth], and [elevation] on a [View3D]) the value it
    had when [push_state] was called, and leaves the stack as it was before
    the reset, so its depth and the saved baseline are unchanged.  The
    calls themselves all return when the zoom factor starts in range or
    the view is a [View2D]. *)
Theorem reset_state_restores_last_push (self : ViewMode) (calls : list call) :
  _save_vars self = tracked (cls self) ->
  (in_zoom_range (zoom_factor self) = true \/ cls self = View2D ->
   exists self', run calls (push_state self) = Ok self') /\
  (forall self', run calls (push_state self) = Ok self' ->
   exists self'',
     reset_state self' = Ok self'' /\
     x self'' = x self /\ y self'' = y self /\ z self'' = z self /\
     zoom_factor self'' = zoom_factor self /\ azimuth self'' = azimuth self /\
     (cls self = View3D -> elevation self'' = elevation self) /\
     _stack self'' = _stack self' /\
     length (_stack self'') = length (_stack self') /\
     _stack self'' = _stack (push_state self)).
Proof.
  intros Hvars. split.
  - intros H. apply run_total. rewrite push_state_spec. simpl. exact H.
  - intros self' Hrun.
    destruct (reset_after_push self self' calls Hrun) as (self'' & E & Hin & S1 & S2).
    exists self''. split; [exact E|]. rewrite Hvars in Hin.
    assert (H5 : forall a, In a (tracked View2D) -> getattr self'' a = getattr self a).
    { intros a Ha. apply Hin. destruct (cls self); simpl in *; intuition. }
    split; [apply (H5 attr_x); simpl; auto|].
    split; [apply (H5 attr_y); simpl; auto|].
    split; [apply (H5 attr_z); simpl; auto|].
    split; [apply (H5 attr_zoom_factor); simpl; auto|].
    split; [apply (H5 attr_azimuth); simpl; auto 6|].
    split; [intros Hc; rewrite Hc in Hin; apply (Hin attr_elevation); simpl; auto 7|].
    split; [exact S1|]. split; [rewrite S1; reflexivity|exact S2].
Qed.

Lemma reset_state_restores_last_push_witness :
  exists self' self'',
    run [Rotate 10 5; Pan 3 4; Zoom 0 1; Zoom 0 (-1); Pan (-1) 2] (push_state View3D_init)
      = Ok self' /\
    reset_state self' = Ok self'' /\
    zoom_factor self'' = zoom_factor View3D_init /\
    elevation self'' = elevation View3D_init /\
    _stack self'' = _stack self'.
Proof.
  destruct (reset_state_restores_last_push View3D_init
              [Rotate 10 5; Pan 3 4; Zoom 0 1; Zoom 0 (-1); Pan (-1) 2] eq_refl)
    as [Htotal Hreset].
  destruct (Htotal (or_introl eq_refl)) as [self' Hrun].
  destruct (Hreset self' Hrun) as (self'' & E & _ & _ & _ & Hz & _ & He & Hs & _).
  exists self', self''. repeat split; auto.
Defined.

End ViewsClaims.

(** ** actors.py: construction of the Gcode arrays *)

Module GcodeArrays.
Section WithArith.
Context {num : Type} {A : Num.Arith num} {M : Num.Math num}.
Import Actors GcodeSpec.

(** A loop whose body never raises is a fold. *)
Lemma for_each_fold {S T : Type} (body : S -> T -> result S) (step : S -> T -> S) :
  (forall st item, body st item = Ok (step st item)) ->
  forall items st, for_each body items st = Ok (fold_left step items st).
Proof.
  intros H. induction items as [|item items IH]; intros st; cbn [for_each fold_left].
  - reflexivity.
  - rewrite H. apply IH.
Qed.

(** On an array that has rows [rotate] returns, with as many rows. *)
Lemma rotate_rows (v : Vector.vec3) (vs : list Vector.vec3) (angle x y z : num) :
  exists rows,
    Vector.rotate (v :: vs) angle x y z = Ok rows /\ length rows = length (v :: vs).
Proof.
  unfold Vector.rotate, Vector.dot. eexists. split; [reflexivity|].
  apply length_map.
Qed.

Lemma rotated_arrow_spec (m : Movement) :
  Vector.rotate arrow (angle m) (Num.lit 0.0) (Num.lit 0.0) (Num.lit 1.0)
    = Ok (rotated_arrow m) /\
  length (rotated_arrow m) = 3%nat.
Proof.
  unfold rotated_arrow, arrow. cbn [map].
  destruct (rotate_rows (Vector.as_float32 (Num.lit 0.0, Num.lit 0.0, Num.lit 0.0))
              [Vector.as_float32 (Num.lit 0.4, Num.lit (-0.1), Num.lit 0.0);
               Vector.as_float32 (Num.lit 0.4, Num.lit 0.1, Num.lit 0.0)]
              (angle m) (Num.lit 0.0) (Num.lit 0.0) (Num.lit 1.0)) as (rows & E & L).
  rewrite E. split; [reflexivity|exact L].
Qed.

(** The bodies of the two loops never raise. *)
Lemma movement_body_step (st : lists) (m : Movement) :
  movement_body st m = Ok (movement_step st m).
Proof.
  unfold movement_body, movement_step.
  destruct (rotated_arrow_spec m) as [E _]. rewrite E. cbn [bind].
  unfold endpoints. rewrite <- app_assoc. reflexivity.
Qed.

Lemma layer_body_step (st : lists) (layer : list Movement) :
  layer_body st layer = Ok (layer_step st layer).
Proof.
  unfold layer_body, layer_step.
  rewrite (for_each_fold movement_body movement_step movement_body_step). reflexivity.
Qed.

Lemma layers_fold (model_data : list (list Movement)) (st : lists) :
  for_each layer_body model_data st = Ok (fold_left layer_step model_data st).
Proof. apply for_each_fold. apply layer_body_step. Qed.

Lemma movement_step_in_step (st : lists) (m : Movement) :
  in_step st -> in_step (movement_step st m).
Proof.
  unfold in_step, movement_step.
  cbn [vertex_list color_list arrow_list]. intros [Hv Ha].
  destruct (rotated_arrow_spec m) as [_ L].
  rewrite !length_app, L. simpl. lia.
Qed.

Lemma movement_step_frame (st : lists) (m : Movement) :
  layer_stops_list (movement_step st m) = layer_stops_list st /\
  length (vertex_list (movement_step st m)) = (length (vertex_list st) + 2)%nat /\
  length (color_list (movement_step st m)) = S (length (color_list st)).
Proof.
  unfold movement_step. cbn [vertex_list color_list layer_stops_list].
  rewrite !length_app. simpl. repeat split; lia.
Qed.

Lemma movements_in_step (layer : list Movement) :
  forall st, in_step st -> in_step (fold_left movement_step layer st).
Proof.
  induction layer as [|m layer IH]; intros st H; simpl; [exact H|].
  apply IH. apply movement_step_in_step. exact H.
Qed.

Lemma movements_frame (layer : list Movement) :
  forall st,
    layer_stops_list (fold_left movement_step layer st) = layer_stops_list st /\
    length (vertex_list (fold_left movement_step layer st))
      = (length (vertex_list st) + 2 * length layer)%nat /\
    length (color_list (fold_left movement_step layer st))
      = (length (color_list st) + length layer)%nat.
Proof.
  induction layer as [|m layer IH]; intros st; simpl.
  - repeat split; lia.
  - destruct (IH (movement_step st m)) as (H1 & H2 & H3).
    destruct (movement_step_frame st m) as (F1 & F2 & F3).
    repeat split; [congruence|lia|lia].
Qed.

Lemma strongly_sorted_snoc (l : list Z) (c : Z) :
  StronglySorted Z.le l -> Forall (fun s => (s <= c)%Z) l -> StronglySorted Z.le (l ++ [c]).
Proof.
  induction 1 as [|a l Hl IH Ha]; intros Hc; simpl.
  - constructor; constructor.
  - inversion Hc; subst. constructor; [apply IH; assumption|].
    apply Forall_app. split; [assumption|]. constructor; [assumption|constructor].
Qed.

Lemma layer_step_in_step (st : lists) (layer : list Movement) :
  in_step st -> in_step (layer_step st layer).
Proof. intros H. apply (movements_in_step layer) in H. exact H. Qed.

Lemma layer_step_stops (st : lists) (layer : list Movement) :
  stops_ok st ->
  stops_ok (layer_step st layer) /\
  layer_stops_list (layer_step st layer)
    = layer_stops_list st ++ [len (vertex_list (layer_step st layer))] /\
  length (color_list (layer_step st layer)) = (length (color_list st) + length layer)%nat.
Proof.
  intros (Hs & Hb & rest & Hr).
  destruct (movements_frame layer st) as (F1 & F2 & F3).
  unfold layer_step. simpl. rewrite F1.
  assert (Hb' : Forall (fun s => (s <= len (vertex_list (fold_left movement_step layer st)))%Z)
                       (layer_stops_list st)).
  { eapply Forall_impl; [|exact Hb]. simpl. intros s Hle. unfold len in *. lia. }
  split; [|split; [reflexivity|exact F3]].
  split; [apply strongly_sorted_snoc; assumption|]. split.
  - apply Forall_app. split; [exact Hb'|]. constructor; [apply Z.le_refl|constructor].
  - exists (rest ++ [len (vertex_list (fold_left movement_step layer st))]).
    rewrite Hr. reflexivity.
Qed.

(** The state after the loops of [create_vertex_arrays]. *)
Lemma layers_spec (model_data : list (list Movement)) :
  forall st, in_step st -> stops_ok st ->
    let st' := fold_left layer_step model_data st in
    in_step st' /\ stops_ok st' /\
    length (layer_stops_list st') = (length (layer_stops_list st) + length model_data)%nat /\
    length (color_list st') = (length (color_list st) + movement_count model_data)%nat /\
    (model_data <> [] -> last (layer_stops_list st') 0%Z = len (vertex_list st')).
Proof.
  induction model_data as [|layer model_data IH]; intros st Hi Hs; cbn [fold_left].
  - unfold movement_count. simpl.
    split; [exact Hi|]. split; [exact Hs|]. split; [lia|]. split; [lia|].
    intros H. exfalso. apply H. reflexivity.
  - destruct (layer_step_stops st layer Hs) as (Hs1 & E1 & C1).
    pose proof (layer_step_in_step st layer Hi) as Hi1.
    destruct (IH (layer_step st layer) Hi1 Hs1) as (Hi2 & Hs2 & L2 & C2 & Hlast).
    split; [exact Hi2|]. split; [exact Hs2|]. split; [|split].
    + rewrite L2, E1, length_app. simpl. lia.
    + rewrite C2, C1. unfold movement_count. simpl. rewrite length_app. lia.
    + intros _. destruct model_data as [|layer' model_data'].
      * cbn [fold_left]. rewrite E1. rewrite last_last. reflexivity.
      * apply Hlast. congruence.
Qed.

Lemma odd_items_length {T : Type} (n : nat) :
  forall l : list T, length l = (2 * n)%nat -> length (odd_items l) = n.
Proof.
  induction n as [|n IH]; intros l H.
  - destruct l; [reflexivity|simpl in H; lia].
  - destruct l as [|a [|b l]]; simpl in H; try lia.
    simpl. f_equal. apply IH. lia.
Qed.

Lemma repeat3_length {T : Type} (l : list T) : length (repeat3 l) = (3 * length l)%nat.
Proof. unfold repeat3. induction l as [|a l IH]; simpl; [reflexivity|]. lia. Qed.

(** The sum of the arrows and of the end points when both lists hold
    something, or nothing: as many items as there are arrow rows, each
    with one row per end point. *)
Lemma array_add_in_step (a b vs : list (@Vector.vec3 num)) :
  (a = [] <-> vs = []) ->
  exists c,
    array_add a b (one_axis vs) = Ok c /\
    length c = length a /\
    Forall (fun rows => length rows = length b) c.
Proof.
  intros H. destruct a as [|u a], vs as [|v vs]; cbn [array_add one_axis].
  - exists []. repeat split. constructor.
  - destruct H as [H _]. discriminate (H eq_refl).
  - destruct H as [_ H]. discriminate (H eq_refl).
  - eexists. split; [reflexivity|]. split; [apply length_map|].
    apply Forall_forall. intros rows Hin. apply in_map_iff in Hin.
    destruct Hin as (w & <- & _). apply length_map.
Qed.

(** With the lists in step, the final part of [create_vertex_arrays]
    returns the arrays; the arrow array has three items per movement, each
    holding as many rows again. *)
Lemma finish_in_step (st : lists) :
  in_step st ->
  exists arr,
    finish_vertex_arrays st = Ok arr /\
    a_vertices arr = map Vector.as_float32 (vertex_list st) /\
    a_colors arr = map (map Num.float32) (color_list st) /\
    a_layer_stops arr = layer_stops_list st /\
    length (a_arrows arr) = (3 * length (color_list st))%nat /\
    Forall (fun rows => length rows = (3 * length (color_list st))%nat) (a_arrows arr).
Proof.
  intros [Hv Ha]. unfold finish_vertex_arrays.
  set (vs := map Vector.as_float32 (vertex_list st)).
  assert (Lvs : length vs = (2 * length (color_list st))%nat)
    by (unfold vs; rewrite length_map; exact Hv).
  assert (Lb : length (repeat3 (odd_items vs)) = (3 * length (color_list st))%nat).
  { rewrite repeat3_length, (odd_items_length (length (color_list st))); auto. }
  destruct (array_add_in_step (map Vector.as_float32 (arrow_list st))
              (repeat3 (odd_items vs)) vs) as (c & E & Hc & Hrows).
  { split; intros H0.
    - apply (f_equal (@length _)) in H0. rewrite length_map in H0. cbn [length] in H0.
      destruct vs; [reflexivity|cbn [length] in Lvs; lia].
    - rewrite H0 in Lvs. cbn [length] in Lvs.
      destruct (arrow_list st); [reflexivity|cbn [length] in Ha; lia]. }
  rewrite E. cbn [bind]. rewrite length_map in Hc.
  replace (len c =? len vs / 2 * 3)%Z with true.
  - cbn [assert bind]. eexists. split; [reflexivity|].
    cbn [a_vertices a_colors a_arrows a_layer_stops].
    repeat split; [lia|]. rewrite <- Lb. exact Hrows.
  - symmetry. apply Z.eqb_eq. unfold len. rewrite Hc, Ha, Lvs.
    rewrite !Nat2Z.inj_mul. simpl Z.of_nat.
    rewrite (Z.mul_comm 2), Z.div_mul by lia. lia.
Qed.

(** With at least one movement the sum is the broadcast one: item [i] of
    the arrow array holds arrow row [i] added to every end point. *)
Lemma finish_arrows (st : lists) (arr : arrays) :
  in_step st -> color_list st <> [] -> finish_vertex_arrays st = Ok arr ->
  a_arrows arr
  = map (fun u => map (fun v => Vector.row_add u v)
                      (repeat3 (odd_items (map Vector.as_float32 (vertex_list st)))))
        (map Vector.as_float32 (arrow_list st)).
Proof.
  intros [Hv Ha] Hne. unfold finish_vertex_arrays.
  destruct (color_list st) as [|c cs] eqn:Ec; [congruence|].
  destruct (vertex_list st) as [|v vs]; [discriminate Hv|].
  destruct (arrow_list st) as [|u us]; [discriminate Ha|].
  cbn [map array_add one_axis bind].
  match goal with |- context [assert ?b] => destruct b end; cbn [assert bind];
    [|discriminate].
  intros E. injection E as <-. reflexivity.
Qed.

Lemma initial_lists_ok :
  let st : @lists num :=
    {| vertex_list := []; color_list := []; layer_stops_list := [0%Z];
       arrow_list := [] |} in
  in_step st /\ stops_ok st.
Proof.
  simpl. split; [split; reflexivity|]. split; [|split].
  - constructor; constructor.
  - constructor; [simpl; unfold len; simpl; lia|constructor].
  - exists []. reflexivity.
Qed.

(** [create_vertex_arrays] returns, and what it returns. *)
Lemma create_vertex_arrays_spec (model_data : list (list Movement)) :
  exists arr,
    create_vertex_arrays model_data = Ok arr /\
    length (a_vertices arr) = (2 * movement_count model_data)%nat /\
    length (a_colors arr) = movement_count model_data /\
    length (a_arrows arr) = (3 * movement_count model_data)%nat /\
    StronglySorted Z.le (a_layer_stops arr) /\
    length (a_layer_stops arr) = S (length model_data) /\
    (exists rest, a_layer_stops arr = 0%Z :: rest) /\
    last (a_layer_stops arr) 0%Z = len (a_vertices arr).
Proof.
  unfold create_vertex_arrays. rewrite layers_fold. cbn [bind].
  destruct initial_lists_ok as [Hi Hs].
  destruct (layers_spec model_data _ Hi Hs) as (Hi' & Hs' & L & C & Hlast).
  simpl in L, C.
  destruct (finish_in_step _ Hi') as (arr & E & Ev & Ec & El & Ea & _).
  exists arr. split; [exact E|].
  destruct Hi' as [Hv Ha]. destruct Hs' as (Hsorted & _ & Hrest).
  rewrite Ev, Ec, El, Ea, !length_map, Hv, C.
  repeat split; auto.
  unfold len. rewrite length_map.
  destruct model_data as [|layer model_data].
  - reflexivity.
  - apply Hlast. congruence.
Qed.

End WithArith.
End GcodeArrays.

(** ** Python list indexing *)

Module Indexing.

Lemma getitem_nonneg {T : Type} (l : list T) (i : Z) :
  (0 <= i)%Z ->
  getitem l i = match nth_error l (Z.to_nat i) with
                | Some a => Ok a
                | None => Raise IndexError
                end.
Proof.
  intros H. unfold getitem.
  destruct (Z.ltb_spec i 0) as [Hneg|_]; [lia|].
  destruct (Z.ltb_spec i 0) as [Hneg|_]; [lia|]. reflexivity.
Qed.

Lemma getitem_in_range {T : Type} (l : list T) (i : Z) :
  (0 <= i < len l)%Z ->
  exists a, getitem l i = Ok a /\ nth_error l (Z.to_nat i) = Some a.
Proof.
  intros [H0 H1]. rewrite getitem_nonneg by exact H0.
  destruct (nth_error l (Z.to_nat i)) as [a|] eqn:E.
  - exists a. split; reflexivity.
  - apply nth_error_None in E. unfold len in H1. lia.
Qed.

Lemma getitem_beyond {T : Type} (l : list T) (i : Z) :
  (len l <= i)%Z -> getitem l i = Raise IndexError.
Proof.
  intros H. unfold len in *. rewrite getitem_nonneg by lia.
  destruct (nth_error l (Z.to_nat i)) as [a|] eqn:E; [|reflexivity].
  assert (Hn : nth_error l (Z.to_nat i) <> None) by congruence.
  apply nth_error_Some in Hn. lia.
Qed.

Lemma nth_error_last {T : Type} (d : T) (l : list T) :
  l <> [] -> nth_error l (length l - 1) = Some (last l d).
Proof.
  induction l as [|a l IH]; intros H; [congruence|].
  destruct l as [|b l]; [reflexivity|].
  replace (length (a :: b :: l) - 1)%nat with (S (length (b :: l) - 1)) by (simpl; lia).
  cbn [nth_error]. rewrite IH by congruence. reflexivity.
Qed.

Lemma getitem_minus_one {T : Type} (d : T) (l : list T) :
  l <> [] -> getitem l (-1) = Ok (last l d).
Proof.
  intros H. unfold getitem. cbn [Z.ltb Z.compare].
  assert (Hlen : (1 <= len l)%Z).
  { unfold len. destruct l; [congruence|simpl length; lia]. }
  destruct (Z.ltb_spec (-1 + len l) 0) as [Hneg|_]; [lia|].
  replace (Z.to_nat (-1 + len l)) with (length l - 1)%nat by (unfold len; lia).
  rewrite (nth_error_last d l H). reflexivity.
Qed.

Lemma strongly_sorted_nth (l : list Z) :
  StronglySorted Z.le l ->
  forall i j a b, (i <= j)%nat ->
    nth_error l i = Some a -> nth_error l j = Some b -> (a <= b)%Z.
Proof.
  induction 1 as [|c l Hl IH Hc]; intros i j a b Hij Ha Hb.
  - destruct i; discriminate.
  - destruct i as [|i], j as [|j]; simpl in Ha, Hb; try lia.
    + injection Ha as <-. injection Hb as <-. lia.
    + injection Ha as <-. apply nth_error_In in Hb.
      rewrite Forall_forall in Hc. apply Hc. exact Hb.
    + apply (IH i j); auto. lia.
Qed.

Lemma strongly_sorted_bounds (l : list Z) (i : nat) (a : Z) :
  StronglySorted Z.le l -> l <> [] ->
  nth_error l i = Some a -> (hd 0%Z l <= a <= last l 0%Z)%Z.
Proof.
  intros Hs Hne Ha. split.
  - destruct l as [|c l]; [congruence|]. simpl.
    apply (strongly_sorted_nth _ Hs 0 i); [lia|reflexivity|exact Ha].
  - assert (Hi : (i < length l)%nat) by (apply nth_error_Some; congruence).
    apply (strongly_sorted_nth _ Hs i (length l - 1)); [lia|exact Ha|].
    apply nth_error_last. exact Hne.
Qed.

Lemma getitem_raises {T : Type} (l : list T) (i : Z) (e : exn) :
  getitem l i = Raise e -> e = IndexError.
Proof.
  unfold getitem.
  destruct (_ <? 0)%Z; [congruence|].
  destruct (nth_error l _); congruence.
Qed.

End Indexing.

(** ** actors.py: the Gcode model *)

Module GcodeModelFacts.
Section WithArith.
Context {num : Type} {A : Num.Arith num} {M : Num.Math num}.
Import Actors GcodeSpec GcodeArrays Indexing.

(** [GcodeModel.__init__] returns, and what the new model holds. *)
Lemma GcodeModel_init_spec (model_data : list (list Movement)) :
  exists g,
    GcodeModel_init model_data = Ok g /\
    length (vertices (g_model g)) = (2 * movement_count model_data)%nat /\
    length (colors g) = movement_count model_data /\
    length (arrows g) = (3 * movement_count model_data)%nat /\
    StronglySorted Z.le (layer_stops g) /\
    length (layer_stops g) = S (length model_data) /\
    (exists rest, layer_stops g = 0%Z :: rest) /\
    last (layer_stops g) 0%Z = len (vertices (g_model g)) /\
    max_layers g = len model_data /\
    num_layers_to_draw g = max_layers g.
Proof.
  destruct (create_vertex_arrays_spec model_data)
    as (arr & E & Hv & Hc & Ha & Hs & Hl & Hr & Hlast).
  unfold GcodeModel_init. rewrite E. cbn [bind].
  eexists. split; [reflexivity|]. cbn.
  repeat split; auto. unfold len. rewrite Hl. lia.
Qed.

(** The three draw ranges for a selector between 1 and the number of
    layers. *)
Lemma display_ranges_in_range (g : @GcodeModel num) (n : Z) :
  StronglySorted Z.le (layer_stops g) ->
  (1 <= n < len (layer_stops g))%Z ->
  exists s e,
    getitem (layer_stops g) (n - 1) = Ok s /\
    getitem (layer_stops g) n = Ok e /\
    (hd 0 (layer_stops g) <= s <= e)%Z /\ (e <= last (layer_stops g) 0)%Z /\
    _display_movements (set_num_layers_to_draw g n) true = Ok (s, e - s)%Z /\
    _display_movements (set_num_layers_to_draw g n) false = Ok (0, e)%Z /\
    _display_arrows (set_num_layers_to_draw g n)
      = Ok (s / 2 * 3, e / 2 * 3 - s / 2 * 3)%Z.
Proof.
  intros Hs Hn.
  destruct (getitem_in_range (layer_stops g) (n - 1)) as (s & Es & Ns); [lia|].
  destruct (getitem_in_range (layer_stops g) n) as (e & Ee & Ne); [lia|].
  assert (Hne : layer_stops g <> []).
  { intros H0. rewrite H0 in Hn. unfold len in Hn. simpl in Hn. lia. }
  exists s, e. split; [exact Es|]. split; [exact Ee|].
  split; [split|split].
  - apply (strongly_sorted_bounds _ _ _ Hs Hne Ns).
  - apply (strongly_sorted_nth _ Hs (Z.to_nat (n - 1)) (Z.to_nat n)); auto. lia.
  - apply (strongly_sorted_bounds _ _ _ Hs Hne Ne).
  - unfold Actors._display_movements, Actors._display_arrows.
    cbn [set_num_layers_to_draw layer_stops num_layers_to_draw].
    rewrite Es, Ee. cbn [bind]. repeat split.
Qed.

(** The selector 0 reads the last stop and the first one. *)
Lemma display_ranges_zero (g : @GcodeModel num) (rest : list Z) :
  layer_stops g = 0%Z :: rest ->
  let n := last (layer_stops g) 0%Z in
  _display_movements (set_num_layers_to_draw g 0) true = Ok (n, - n)%Z /\
  _display_movements (set_num_layers_to_draw g 0) false = Ok (0, 0)%Z /\
  _display_arrows (set_num_layers_to_draw g 0) = Ok (n / 2 * 3, - (n / 2 * 3))%Z.
Proof.
  intros Hr n.
  assert (E1 : getitem (layer_stops g) (-1) = Ok n).
  { apply getitem_minus_one. rewrite Hr. discriminate. }
  assert (E0 : getitem (layer_stops g) 0 = Ok 0%Z) by (rewrite Hr; reflexivity).
  unfold Actors._display_movements, Actors._display_arrows.
  cbn [set_num_layers_to_draw layer_stops num_layers_to_draw].
  change (0 - 1)%Z with (-1)%Z. rewrite E1, E0. cbn [bind].
  repeat split.
Qed.

(** A selector above the number of layers makes every draw method raise. *)
Lemma display_ranges_beyond (g : @GcodeModel num) (n : Z) (mode_2d : bool) :
  (1 <= len (layer_stops g) <= n)%Z ->
  _display_movements (set_num_layers_to_draw g n) mode_2d = Raise IndexError /\
  _display_arrows (set_num_layers_to_draw g n) = Raise IndexError.
Proof.
  intros Hn.
  pose proof (getitem_beyond (layer_stops g) n ltac:(lia)) as En.
  unfold Actors._display_movements, Actors._display_arrows.
  cbn [set_num_layers_to_draw layer_stops num_layers_to_draw].
  rewrite En.
  destruct (getitem (layer_stops g) (n - 1)) as [s|e] eqn:E1.
  - destruct mode_2d; cbn [bind]; split; reflexivity.
  - apply getitem_raises in E1. subst e.
    destruct mode_2d; cbn [bind]; split; reflexivity.
Qed.

End WithArith.
End GcodeModelFacts.

(** ** actors.py: the claims on the Gcode model *)

Module GcodeClaims.
Import Actors GcodeSpec Samples GcodeArrays Indexing GcodeModelFacts.


Section WithArith.
Context {num : Type} {A : Num.Arith num} {M : Num.Math num}.


(** C2.  For every sequence of layers the construction returns a model
    whose [layer_stops] is non-decreasing, has [0] as its first item and
    [len(vertices)] as its last, and has one item more than there are
    layers. *)
Theorem layer_stops_shape (model_data : list (list (@Movement num))) :
  exists g,
    GcodeModel_init model_data = Ok g /\
    Sorted Z.le (layer_stops g) /\
    getitem (layer_stops g) 0 = Ok 0%Z /\
    getitem (layer_stops g) (-1) = Ok (len (vertices (g_model g))) /\
    len (layer_stops g) = (len model_data + 1)%Z.
Proof.
  destruct (GcodeModel_init_spec model_data)
    as (g & E & _ & _ & _ & Hs & Hl & (rest & Hr) & Hlast & _).
  exists g. split; [exact E|]. split; [apply StronglySorted_Sorted; exact Hs|].
  split; [rewrite Hr; reflexivity|]. split.
  - rewrite <- Hlast. apply getitem_minus_one. rewrite Hr. discriminate.
  - unfold len. rewrite Hl. lia.
Qed.

(** C3.  The color of a movement is the one the first matching rule of
    the specification's list gives: gray when the extruder is off, else
    yellow for a loop, else cyan for an outer perimeter, else green for a
    perimeter, else red. *)
Theorem movement_color_first_match (m : @Movement num) :
  movement_color m = color_map (first_match spec_color_rules red m) /\
  (extruder_on m = false -> movement_color m = color_map gray) /\
  (extruder_on m = true -> is_loop m = true -> movement_color m = color_map yellow) /\
  (extruder_on m = true -> is_loop m = false ->
   is_perimeter m = true -> is_perimeter_outer m = true ->
   movement_color m = color_map cyan) /\
  (extruder_on m = true -> is_loop m = false ->
   is_perimeter m = true -> is_perimeter_outer m = false ->
   movement_color m = color_map green) /\
  (extruder_on m = true -> is_loop m = false -> is_perimeter m = false ->
   movement_color m = color_map red).
Proof.
  unfold movement_color, spec_color_rules. cbn [first_match].
  destruct (extruder_on m), (is_loop m), (is_perimeter m), (is_perimeter_outer m);
    cbn [negb andb]; repeat split; intros; try reflexivity; discriminate.
Qed.

(** C9, as the code has it.  Every construction returns a model whose
    selector is the number of layers.  No selector is clamped.  For a
    selector [n] between 1 and the number of layers the draw ranges are
    read from [layer_stops[n - 1]] and [layer_stops[n]] as they are; every
    selector above the number of layers raises [IndexError]; the selector
    0 reads [layer_stops[-1]] and [layer_stops[0]].  The last two parts
    hold for a model without layers too. *)
Theorem draw_ranges_of_selector (model_data : list (list (@Movement num))) :
  exists g,
    GcodeModel_init model_data = Ok g /\
    num_layers_to_draw g = max_layers g /\ max_layers g = len model_data /\
    (forall n, (1 <= n <= max_layers g)%Z ->
       exists s e,
         getitem (layer_stops g) (n - 1) = Ok s /\
         getitem (layer_stops g) n = Ok e /\
         (0 <= s <= e)%Z /\ (e <= len (vertices (g_model g)))%Z /\
         _display_movements (set_num_layers_to_draw g n) true = Ok (s, e - s)%Z /\
         _display_movements (set_num_layers_to_draw g n) false = Ok (0, e)%Z /\
         _display_arrows (set_num_layers_to_draw g n)
           = Ok (s / 2 * 3, e / 2 * 3 - s / 2 * 3)%Z) /\
    (forall n mode_2d, (max_layers g < n)%Z ->
       _display_movements (set_num_layers_to_draw g n) mode_2d = Raise IndexError /\
       _display_arrows (set_num_layers_to_draw g n) = Raise IndexError) /\
    (let v := len (vertices (g_model g)) in
     _display_movements (set_num_layers_to_draw g 0) true = Ok (v, - v)%Z /\
     _display_movements (set_num_layers_to_draw g 0) false = Ok (0, 0)%Z /\
     _display_arrows (set_num_layers_to_draw g 0) = Ok (v / 2 * 3, - (v / 2 * 3))%Z).
Proof.
  destruct (GcodeModel_init_spec model_data)
    as (g & E & _ & _ & _ & Hs & Hl & (rest & Hr) & Hlast & Hmax & Hdraw).
  exists g. split; [exact E|].
  assert (Hlen : len (layer_stops g) = (max_layers g + 1)%Z).
  { unfold len in *. rewrite Hl, Hmax. lia. }
  split; [exact Hdraw|]. split; [exact Hmax|]. split; [|split].
  - intros n Hn.
    destruct (display_ranges_in_range g n Hs ltac:(lia))
      as (s & e & Es & Ee & Hse & Hel & D1 & D2 & D3).
    exists s, e. rewrite Hr in Hse. simpl hd in Hse. rewrite Hlast in Hel.
    repeat split; auto; lia.
  - intros n mode_2d Hn. apply display_ranges_beyond. unfold len in *. lia.
  - rewrite <- Hlast. apply (display_ranges_zero g rest Hr).
Qed.

End WithArith.


Lemma movement_color_first_match_witness :
  movement_color plain_movement = color_map red.
Proof.
  destruct (movement_color_first_match plain_movement) as (_ & _ & _ & _ & _ & H).
  apply H; reflexivity.
Defined.

Lemma draw_ranges_of_selector_witness :
  exists g s e,
    GcodeModel_init [[plain_movement]; [plain_movement]] = Ok g /\
    _display_movements (set_num_layers_to_draw g 2) true = Ok (s, e - s)%Z /\
    _display_arrows (set_num_layers_to_draw g 2) = Ok (s / 2 * 3, e / 2 * 3 - s / 2 * 3)%Z.
Proof.
  destruct (draw_ranges_of_selector [[plain_movement]; [plain_movement]])
    as (g & E & _ & Hmax & Hin & _).
  assert (Hn : (1 <= 2 <= max_layers g)%Z) by (rewrite Hmax; unfold len; simpl; lia).
  destruct (Hin 2%Z Hn) as (s & e & _ & _ & _ & _ & D1 & _ & D3).
  exists g, s, e. repeat split; assumption.
Defined.

(** C9 as stated fails: on a model with one layer the selector 2 is not
    clamped to 1, the draw methods raise [IndexError]. *)
Lemma selector_above_layer_count_raises :
  exists g,
    GcodeModel_init [[plain_movement]] = Ok g /\
    max_layers g = 1%Z /\
    _display_movements (set_num_layers_to_draw g 2) false = Raise IndexError /\
    _display_movements (set_num_layers_to_draw g 2) true = Raise IndexError /\
    _display_arrows (set_num_layers_to_draw g 2) = Raise IndexError.
Proof.
  destruct (GcodeModel_init_spec [[plain_movement]])
    as (g & E & _ & _ & _ & _ & Hl & _ & _ & Hmax & _).
  exists g. split; [exact E|]. split; [exact Hmax|].
  assert (Hlen : (1 <= len (layer_stops g) <= 2)%Z) by (unfold len; rewrite Hl; simpl; lia).
  destruct (display_ranges_beyond g 2 false Hlen) as [D1 D3].
  destruct (display_ranges_beyond g 2 true Hlen) as [D2 _].
  repeat split; assumption.
Qed.

End GcodeClaims.

(** ** actors.py: the bounding box cache and the mesh transformations *)

Module StlFacts.
Section WithArith.
Context {num : Type} {A : Num.Arith num} {M : Num.Math num}.
Import Actors ModelSpec.


Lemma calculate_nonempty (self : @Model num) (v : Vector.vec3) (vs : list Vector.vec3) :
  vertices self = v :: vs ->
  _calculate_bounding_box self = Ok (spec_bounding_box v vs).
Proof.
  intros E. unfold _calculate_bounding_box. rewrite E.
  destruct v as [[x0 y0] z0]. reflexivity.
Qed.

Lemma calculate_empty (self : @Model num) :
  vertices self = [] -> _calculate_bounding_box self = Raise ValueError.
Proof. intros E. unfold _calculate_bounding_box. rewrite E. reflexivity. Qed.

Lemma calculate_reads_vertices (m m' : @Model num) :
  vertices m = vertices m' -> _calculate_bounding_box m = _calculate_bounding_box m'.
Proof. intros E. unfold _calculate_bounding_box. rewrite E. reflexivity. Qed.

Lemma read_coherent (self : @Model num) :
  cache_coherent self -> read_bounding_box self = _calculate_bounding_box self.
Proof.
  unfold cache_coherent, read_bounding_box, bounding_box. intros H.
  destruct (_bounding_box self) as [box|] eqn:E.
  - symmetry. apply H. reflexivity.
  - destruct (_calculate_bounding_box self); reflexivity.
Qed.

Lemma cleared_coherent (vs : list Vector.vec3) (c : option BoundingBox) :
  cache_coherent (init_model_attributes {| vertices := vs; _bounding_box := c |}).
Proof. intros box H. discriminate. Qed.

Lemma bounding_box_keeps_coherent (self self' : @Model num) (box : BoundingBox) :
  cache_coherent self -> bounding_box self = Ok (box, self') ->
  cache_coherent self' /\ vertices self' = vertices self /\ _bounding_box self' = Some box.
Proof.
  unfold bounding_box. intros H.
  destruct (_bounding_box self) as [b|] eqn:E.
  - intros H1. injection H1 as <- <-. auto.
  - destruct (_calculate_bounding_box self) as [b|e] eqn:Ec; cbn [bind]; [|discriminate].
    intros H1. injection H1 as <- <-. cbn. repeat split.
    intros b' Hb'. injection Hb' as <-.
    rewrite <- Ec. apply calculate_reads_vertices. reflexivity.
Qed.

(** [scale] on a factor equal to the current one, and on another one. *)
Lemma scale_same (self : @StlModel num) (factor : num) :
  Num.eqb factor (scaling_factor self) = true -> scale self factor = Ok self.
Proof. intros H. unfold scale. rewrite H. reflexivity. Qed.

Lemma scale_other (self : @StlModel num) (factor k : num) :
  Num.eqb factor (scaling_factor self) = false ->
  Num.truediv factor (scaling_factor self) = Ok k ->
  scale self factor =
    Ok {| s_model := {| vertices := map (Vector.row_imul k) (vertices (s_model self));
                        _bounding_box := None |};
          normals := normals self;
          scaling_factor := factor |}.
Proof. intros H E. unfold scale. rewrite H, E. reflexivity. Qed.

Lemma scale_raises (self : @StlModel num) (factor : num) (e : exn) :
  Num.eqb factor (scaling_factor self) = false ->
  Num.truediv factor (scaling_factor self) = Raise e ->
  scale self factor = Raise e.
Proof. intros H E. unfold scale. rewrite H, E. reflexivity. Qed.

Lemma scale_coherent (self self' : @StlModel num) (factor : num) :
  cache_coherent (s_model self) -> scale self factor = Ok self' ->
  cache_coherent (s_model self').
Proof.
  intros H. unfold scale.
  destruct (Num.eqb factor (scaling_factor self)); cbn [negb].
  - intros E. injection E as <-. exact H.
  - destruct (Num.truediv factor (scaling_factor self)); cbn [bind]; [|discriminate].
    intros E. injection E as <-. apply cleared_coherent.
Qed.

(** [translate] and [rotate]: a mesh without vertices makes them raise;
    the mesh they return holds the new vertices and an empty cache. *)
Lemma translate_empty (self : @StlModel num) (x y z : num) :
  vertices (s_model self) = [] -> translate self x y z = Raise ValueError.
Proof. intros E. unfold translate, Vector.translate. rewrite E. reflexivity. Qed.

Lemma translate_returns (self : @StlModel num) (x y z : num) :
  vertices (s_model self) <> [] ->
  translate self x y z =
    Ok {| s_model :=
            {| vertices := map (fun v => Vector.row_add v (Vector.as_float32 (x, y, z)))
                               (vertices (s_model self));
               _bounding_box := None |};
          normals := normals self;
          scaling_factor := scaling_factor self |}.
Proof.
  intros H. unfold translate, Vector.translate.
  destruct (vertices (s_model self)) as [|v vs]; [congruence|]. reflexivity.
Qed.

Lemma translate_inv (self self' : @StlModel num) (x y z : num) :
  translate self x y z = Ok self' ->
  vertices (s_model self) <> [] /\
  _bounding_box (s_model self') = None /\
  normals self' = normals self /\
  scaling_factor self' = scaling_factor self /\
  length (vertices (s_model self')) = length (vertices (s_model self)).
Proof.
  intros E. destruct (vertices (s_model self)) as [|v vs] eqn:Ev.
  - rewrite (translate_empty self x y z Ev) in E. discriminate.
  - rewrite translate_returns in E by (rewrite Ev; discriminate).
    injection E as <-. cbn. rewrite Ev, length_map. repeat split. discriminate.
Qed.

Lemma rotate_empty (self : @StlModel num) (angle x y z : num) :
  vertices (s_model self) = [] -> rotate self angle x y z = Raise ValueError.
Proof.
  intros E. unfold rotate, Vector.rotate, Vector.dot. rewrite E. reflexivity.
Qed.

Lemma rotate_inv (self self' : @StlModel num) (angle x y z : num) :
  rotate self angle x y z = Ok self' ->
  vertices (s_model self) <> [] /\
  _bounding_box (s_model self') = None /\
  normals self' = normals self /\
  scaling_factor self' = scaling_factor self /\
  length (vertices (s_model self')) = length (vertices (s_model self)).
Proof.
  intros E. destruct (vertices (s_model self)) as [|v vs] eqn:Ev.
  - rewrite (rotate_empty self angle x y z Ev) in E. discriminate.
  - unfold rotate, Vector.rotate, Vector.dot in E. rewrite Ev in E. cbn [bind] in E.
    injection E as <-. cbn [s_model init_model_attributes vertices _bounding_box normals
                             scaling_factor].
    split; [discriminate|]. repeat split. cbn [length]. rewrite length_map. reflexivity.
Qed.

Lemma cleared_is_coherent (m : @Model num) : _bounding_box m = None -> cache_coherent m.
Proof. intros H box Hb. congruence. Qed.

End WithArith.
End StlFacts.

(** ** The reading over the real numbers *)

Module RealFacts.
Import Actors.
Local Open Scope R_scope.

Lemma lit_one : Num.lit 1 = 1.
Proof. cbn. unfold Q2R. cbn. lra. Qed.

Lemma lit_one_dec : Num.lit 1.0 = 1.
Proof. cbn. unfold Q2R. cbn. lra. Qed.

Lemma eqb_true (a b : R) : Num.eqb a b = true <-> a = b.
Proof. cbn. destruct (Req_dec_T a b); split; congruence. Qed.

Lemma eqb_false (a b : R) : Num.eqb a b = false <-> a <> b.
Proof. cbn. destruct (Req_dec_T a b); split; congruence. Qed.

Lemma truediv_nonzero (a b : R) : b <> 0 -> Num.truediv a b = Ok (a / b).
Proof. intros H. cbn. destruct (Req_dec_T b 0); [contradiction|reflexivity]. Qed.

Lemma truediv_zero (a : R) : Num.truediv a 0 = Raise ZeroDivisionError.
Proof. cbn. destruct (Req_dec_T 0 0); [reflexivity|congruence]. Qed.

(** The matrix of [rotate] for the axis [(0, 0, 0)] is [cos] of the angle
    times the identity. *)
Lemma rotate_zero_axis (v : @Vector.vec3 R) (vs : list (@Vector.vec3 R)) (angle : R) :
  Vector.rotate (v :: vs) angle 0 0 0 =
  Ok (map (fun v : Vector.vec3 => let '(a, b, c) := v in
             (cos (angle * (PI / 180)) * a, cos (angle * (PI / 180)) * b,
              cos (angle * (PI / 180)) * c)) (v :: vs)).
Proof.
  unfold Vector.rotate, Vector.dot. f_equal. apply map_ext.
  intros [[a b] c]. cbn. f_equal; [f_equal|]; ring.
Qed.

End RealFacts.

(** ** IEEE arithmetic

    Rounding is exact on a mantissa that ends in zero bits the target
    format can drop: products with a power of two, quotients of two powers
    of two and the conversion of a binary32 value are computed without
    error.  A zero absorbs a finite factor and is neutral for the sum. *)

Module FloatFacts.
Import FloatSpec.
Local Open Scope Z_scope.

Lemma iter_pos_nat {T : Type} (f : T -> T) (p : positive) :
  forall x, SpecFloat.iter_pos f p x = Nat.iter (Pos.to_nat p) f x.
Proof.
  induction p as [p IH|p IH|]; intros x; cbn [SpecFloat.iter_pos].
  - rewrite !IH, Pos2Nat.inj_xI, <- Nat.iter_succ_r.
    replace (S (2 * Pos.to_nat p))%nat with (Pos.to_nat p + S (Pos.to_nat p))%nat by lia.
    rewrite Nat.iter_add. reflexivity.
  - rewrite !IH, Pos2Nat.inj_xO.
    replace (2 * Pos.to_nat p)%nat with (Pos.to_nat p + Pos.to_nat p)%nat by lia.
    rewrite Nat.iter_add. reflexivity.
  - reflexivity.
Qed.

(** [Nat.iter n xO m] is [m] followed by [n] zero bits. *)
Lemma shifted_digits (m : positive) (n : nat) :
  Zpos (digits2_pos (Nat.iter n xO m)) = Zpos (digits2_pos m) + Z.of_nat n.
Proof.
  induction n as [|n IH]; [cbn; lia|].
  change (Nat.iter (S n) xO m) with (xO (Nat.iter n xO m)).
  cbn [digits2_pos]. rewrite Pos2Z.inj_succ, IH. lia.
Qed.

Lemma shr_shifted (m : positive) (n : nat) :
  Nat.iter n shr_1 {| shr_m := Zpos (Nat.iter n xO m); shr_r := false; shr_s := false |}
  = {| shr_m := Zpos m; shr_r := false; shr_s := false |}.
Proof.
  induction n as [|n IH]; [reflexivity|].
  rewrite Nat.iter_succ_r.
  change (Nat.iter (S n) xO m) with (xO (Nat.iter n xO m)).
  cbn [shr_1 orb]. exact IH.
Qed.

(** Rounding a mantissa that ends in [n] zero bits, to a format in which
    the mantissa without them is canonical, drops the zero bits and
    nothing else. *)
Lemma binary_round_aux_exact (prec emax : Z) (s : bool) (m : positive) (n : nat) (e : Z) :
  SpecFloat.bounded prec emax m (e + Z.of_nat n) = true ->
  binary_round_aux prec emax s (Zpos (Nat.iter n xO m)) e loc_Exact
  = S754_finite s m (e + Z.of_nat n).
Proof.
  intros Hb. unfold SpecFloat.bounded, SpecFloat.canonical_mantissa in Hb.
  apply andb_true_iff in Hb. destruct Hb as [Hc He]. apply Z.eqb_eq in Hc.
  unfold binary_round_aux, shr_fexp. cbn [Zdigits2].
  rewrite shifted_digits.
  replace (Z.pos (digits2_pos m) + Z.of_nat n + e)
    with (Z.pos (digits2_pos m) + (e + Z.of_nat n)) by lia.
  rewrite Hc. replace (e + Z.of_nat n - e) with (Z.of_nat n) by lia.
  assert (E : shr {| shr_m := Zpos (Nat.iter n xO m); shr_r := false; shr_s := false |}
                  e (Z.of_nat n)
              = ({| shr_m := Zpos m; shr_r := false; shr_s := false |}, e + Z.of_nat n)).
  { destruct n as [|n].
    - cbn. f_equal. lia.
    - unfold shr. cbn [Z.of_nat]. rewrite iter_pos_nat, SuccNat2Pos.id_succ.
      rewrite shr_shifted. reflexivity. }
  cbn [shr_record_of_loc]. rewrite E.
  cbn [shr_m loc_of_shr_record round_nearest_even Zdigits2].
  rewrite Hc, Z.sub_diag. cbn [shr shr_m]. rewrite He. reflexivity.
Qed.

(** The conversion to dtype ['f'] keeps a binary32 value. *)
Lemma float32_binary32 (x : spec_float) : binary32 x = true -> Ieee.float32 x = x.
Proof.
  destruct x as [s|s| |s m e]; try reflexivity.
  unfold binary32. cbn [finite andb SpecFloat.valid_binary]. intros Hb.
  pose proof Hb as Hb'. unfold SpecFloat.bounded, SpecFloat.canonical_mantissa in Hb'.
  apply andb_true_iff in Hb'. destruct Hb' as [Hc _]. apply Z.eqb_eq in Hc.
  unfold Ieee.float32, binary_round. rewrite Hc.
  unfold shl_align. rewrite Z.sub_diag.
  pose proof (binary_round_aux_exact 24 128 s m 0 e) as E.
  cbn [Nat.iter nat_rect Z.of_nat] in E. rewrite Z.add_0_r in E. apply E. exact Hb.
Qed.

Lemma as_float32_binary32 (v : @Vector.vec3 spec_float) :
  binary32_row v = true -> Vector.as_float32 v = v.
Proof.
  destruct v as [[a b] c]. unfold binary32_row. intros H.
  apply andb_true_iff in H. destruct H as [H Hc].
  apply andb_true_iff in H. destruct H as [Ha Hb].
  cbn [Vector.as_float32 Num.float32 FArith].
  rewrite !float32_binary32 by assumption. reflexivity.
Qed.

(** The binary32 product with a power of two adds to the exponent. *)
Lemma mul32_pow2 (s : bool) (m : positive) (e k : Z) :
  SpecFloat.bounded 24 128 m (e + k) = true ->
  SFmul 24 128 (S754_finite s m e) (single_pow2 k) = S754_finite s m (e + k).
Proof.
  intros Hb. unfold single_pow2. cbn [SFmul]. rewrite xorb_false_r.
  rewrite Pos.mul_comm.
  change (8388608 * m)%positive with (Nat.iter 23 xO m).
  rewrite (binary_round_aux_exact 24 128 s m 23 (e + (k - 23))).
  - f_equal. lia.
  - replace (e + (k - 23) + Z.of_nat 23) with (e + k) by lia. exact Hb.
Qed.

Lemma mul32_one (x : spec_float) :
  binary32 x = true -> SFmul 24 128 x (single_pow2 0) = x.
Proof.
  destruct x as [s|s| |s m e]; try discriminate.
  - intros _. cbn. rewrite xorb_false_r. reflexivity.
  - unfold binary32. cbn [finite andb SpecFloat.valid_binary]. intros Hb.
    rewrite mul32_pow2 by (rewrite Z.add_0_r; exact Hb). rewrite Z.add_0_r. reflexivity.
Qed.

(** The doubles that are powers of two: their conversion to dtype ['f'],
    their quotients and their comparison. *)
Lemma float32_pow2 (k : Z) : -126 <= k <= 127 -> Ieee.float32 (pow2 k) = single_pow2 k.
Proof.
  intros Hk. unfold Ieee.float32, pow2, binary_round.
  change (digits2_pos 4503599627370496) with 53%positive.
  unfold fexp, emin, shl_align.
  replace (Z.max (53 + (k - 52) - 24) (3 - 128 - 24) - (k - 52)) with 29 by lia.
  change 4503599627370496%positive with (Nat.iter 29 xO 8388608%positive).
  rewrite (binary_round_aux_exact 24 128 false 8388608 29 (k - 52)).
  - unfold single_pow2. f_equal. lia.
  - unfold SpecFloat.bounded, SpecFloat.canonical_mantissa, fexp, emin.
    change (digits2_pos 8388608) with 24%positive.
    apply andb_true_iff. split; [apply Z.eqb_eq|apply Z.leb_le]; lia.
Qed.

Lemma div64_pow2 (a b : Z) :
  -1021 <= a - b <= 1023 -> SFdiv 53 1024 (pow2 a) (pow2 b) = pow2 (a - b).
Proof.
  intros H. unfold pow2. cbn [SFdiv xorb]. unfold SFdiv_core_binary.
  change (Zdigits2 4503599627370496) with 53.
  unfold fexp, emin.
  replace (Z.min (Z.max (53 + (a - 52) - (53 + (b - 52)) - 53) (3 - 1024 - 53))
             (a - 52 - (b - 52))) with (a - b - 53) by lia.
  replace (a - 52 - (b - 52) - (a - b - 53)) with 53 by lia.
  change (Z.div_eucl (Z.shiftl 4503599627370496 53) 4503599627370496)
    with (9007199254740992, 0).
  cbv iota beta zeta.
  change (new_location 4503599627370496 0) with loc_Exact.
  change 9007199254740992 with (Zpos (Nat.iter 1 xO 4503599627370496%positive)).
  rewrite (binary_round_aux_exact 53 1024 false 4503599627370496 1 (a - b - 53)).
  - f_equal. lia.
  - unfold SpecFloat.bounded, SpecFloat.canonical_mantissa, fexp, emin.
    change (digits2_pos 4503599627370496) with 53%positive.
    apply andb_true_iff. split; [apply Z.eqb_eq|apply Z.leb_le]; lia.
Qed.

(** The power of two [2 ^ k] is within the range of dtype ['f'] for [k]
    up to 126, and the array is then multiplied by its conversion. *)
Lemma float32_limit_value :
  Ieee.float32_limit = S754_finite false 8999725064576941 75.
Proof. vm_compute. reflexivity. Qed.

Lemma fits_float32_pow2 (k : Z) : k <= 126 -> Ieee.fits_float32 (pow2 k) = true.
Proof.
  intros H. unfold Ieee.fits_float32, pow2. rewrite float32_limit_value.
  cbn [SFopp negb SFltb SFcompare andb].
  destruct (Z.compare_spec (k - 52) 75) as [E|E|E]; [lia|reflexivity|lia].
Qed.

Lemma imul32_pow2 (k : Z) (x : spec_float) :
  -126 <= k <= 126 -> Ieee.imul32 x (pow2 k) = SFmul 24 128 x (single_pow2 k).
Proof.
  intros H. unfold Ieee.imul32. rewrite fits_float32_pow2 by lia.
  rewrite float32_pow2 by lia. reflexivity.
Qed.

Lemma row_imul_pow2 (k : Z) (v : @Vector.vec3 spec_float) :
  -126 <= k <= 126 -> Vector.row_imul (pow2 k) v = Vector.row_scale (single_pow2 k) v.
Proof.
  intros H. destruct v as [[a b] c].
  cbn [Vector.row_imul Vector.row_scale Num.imul32 Num.mul32 FArith].
  rewrite !imul32_pow2 by exact H. reflexivity.
Qed.

Lemma literal_one : Ieee.of_literal 1.0 = pow2 0.
Proof. vm_compute. reflexivity. Qed.

Lemma eqb_pow2 (a b : Z) : SFeqb (pow2 a) (pow2 b) = (a =? b).
Proof.
  unfold SFeqb, SFcompare, pow2.
  destruct (Z.compare_spec (a - 52) (b - 52)) as [H|H|H].
  - cbn. symmetry. apply Z.eqb_eq. lia.
  - symmetry. apply Z.eqb_neq. lia.
  - symmetry. apply Z.eqb_neq. lia.
Qed.

(** Zeros. *)
Lemma is_zero_inv (x : spec_float) : Ieee.is_zero x = true -> exists s, x = S754_zero s.
Proof. destruct x; try discriminate. intros _. eexists. reflexivity. Qed.

Lemma mul_zero_l (prec emax : Z) (a b : spec_float) :
  Ieee.is_zero a = true -> finite b = true -> Ieee.is_zero (SFmul prec emax a b) = true.
Proof. destruct a, b; try discriminate; reflexivity. Qed.

Lemma mul_zero_r (prec emax : Z) (a b : spec_float) :
  finite a = true -> Ieee.is_zero b = true -> Ieee.is_zero (SFmul prec emax a b) = true.
Proof. destruct a, b; try discriminate; reflexivity. Qed.

Lemma add_zeros (prec emax : Z) (a b : spec_float) :
  Ieee.is_zero a = true -> Ieee.is_zero b = true ->
  Ieee.is_zero (SFadd prec emax a b) = true.
Proof. destruct a as [[]| | |], b as [[]| | |]; try discriminate; reflexivity. Qed.

Lemma sub_zeros (prec emax : Z) (a b : spec_float) :
  Ieee.is_zero a = true -> Ieee.is_zero b = true ->
  Ieee.is_zero (SFsub prec emax a b) = true.
Proof. destruct a as [[]| | |], b as [[]| | |]; try discriminate; reflexivity. Qed.

Lemma float32_zero (a : spec_float) :
  Ieee.is_zero a = true -> Ieee.is_zero (Ieee.float32 a) = true.
Proof. destruct a; try discriminate; reflexivity. Qed.

Lemma zero_is_finite (a : spec_float) : Ieee.is_zero a = true -> finite a = true.
Proof. destruct a; try discriminate; reflexivity. Qed.

(** [same_number] is an equivalence, kept by the sum with a zero and by
    the product with a finite number. *)
Lemma same_number_refl (a : spec_float) : same_number a a.
Proof. left. reflexivity. Qed.

Lemma same_number_sym (a b : spec_float) : same_number a b -> same_number b a.
Proof. intros [H|[H1 H2]]; [left; auto|right; auto]. Qed.

Lemma same_number_trans (a b c : spec_float) :
  same_number a b -> same_number b c -> same_number a c.
Proof.
  intros [->|[H1 H2]] [H|[H3 H4]]; subst.
  - left. reflexivity.
  - right. auto.
  - right. auto.
  - right. auto.
Qed.

Lemma zeros_same_number (a b : spec_float) :
  Ieee.is_zero a = true -> Ieee.is_zero b = true -> same_number a b.
Proof. intros Ha Hb. right. auto. Qed.

Lemma add_zero_r (prec emax : Z) (p z : spec_float) :
  Ieee.is_zero z = true -> same_number (SFadd prec emax p z) p.
Proof.
  intros Hz. destruct (is_zero_inv z Hz) as [sz ->].
  destruct p as [[]|s| |s m e], sz; try (left; reflexivity); right; split; reflexivity.
Qed.

Lemma add_zero_l (prec emax : Z) (z p : spec_float) :
  Ieee.is_zero z = true -> same_number (SFadd prec emax z p) p.
Proof.
  intros Hz. destruct (is_zero_inv z Hz) as [sz ->].
  destruct p as [[]|s| |s m e], sz; try (left; reflexivity); right; split; reflexivity.
Qed.

Lemma mul_same_number (prec emax : Z) (v a b : spec_float) :
  finite v = true -> same_number a b ->
  same_number (SFmul prec emax v a) (SFmul prec emax v b).
Proof.
  intros Hv [->|[Ha Hb]]; [left; reflexivity|].
  apply zeros_same_number; apply mul_zero_r; assumption.
Qed.

End FloatFacts.

(** ** vector.py and actors.py in IEEE arithmetic *)

Module FloatMesh.
Import Actors FloatSpec FloatFacts StlFacts.
Local Open Scope Z_scope.

(** *** [rotate] about the axis [(0, 0, 0)] *)

Section ZeroAxis.
Variable libm_pow : spec_float -> spec_float -> spec_float.

(** A diagonal entry of the matrix, [x ** 2 * C + c] for a zero [x], is
    the cosine; the other entries, made of products with the coordinates
    of the axis, are zeros. *)
Lemma diagonal_entry (x C c : spec_float) :
  Ieee.is_zero x = true -> finite C = true -> finite c = true ->
  same_number
    (Ieee.float32 (SFadd 53 1024 (SFmul 53 1024 (Ieee.float_pow libm_pow x 2) C) c))
    (Ieee.float32 c).
Proof.
  intros Hx HC Hc. destruct (is_zero_inv x Hx) as [sx ->].
  cbn [Ieee.float_pow Nat.odd Nat.even negb].
  destruct C as [sC|sC| |sC mC eC]; try discriminate;
    destruct c as [sc|sc| |sc mc ec]; try discriminate;
    cbn [SFmul SFadd xorb]; try (left; reflexivity);
    destruct sC, sc; apply zeros_same_number; reflexivity.
Qed.

Lemma entry_sub (a b d C s : spec_float) :
  Ieee.is_zero a = true -> Ieee.is_zero b = true -> Ieee.is_zero d = true ->
  finite C = true -> finite s = true ->
  Ieee.is_zero
    (Ieee.float32 (SFsub 53 1024 (SFmul 53 1024 (SFmul 53 1024 a b) C) (SFmul 53 1024 d s)))
  = true.
Proof.
  intros Ha Hb Hd HC Hs. apply float32_zero, sub_zeros.
  - apply mul_zero_l; [|exact HC]. apply mul_zero_l; [exact Ha|].
    apply zero_is_finite. exact Hb.
  - apply mul_zero_l; assumption.
Qed.

Lemma entry_add (a b d C s : spec_float) :
  Ieee.is_zero a = true -> Ieee.is_zero b = true -> Ieee.is_zero d = true ->
  finite C = true -> finite s = true ->
  Ieee.is_zero
    (Ieee.float32 (SFadd 53 1024 (SFmul 53 1024 (SFmul 53 1024 a b) C) (SFmul 53 1024 d s)))
  = true.
Proof.
  intros Ha Hb Hd HC Hs. apply float32_zero, add_zeros.
  - apply mul_zero_l; [|exact HC]. apply mul_zero_l; [exact Ha|].
    apply zero_is_finite. exact Hb.
  - apply mul_zero_l; assumption.
Qed.

(** A finite row times a matrix whose diagonal holds [c] and whose other
    entries are zeros. *)
Lemma row_dot_diagonal (v : @Vector.vec3 spec_float) (c d0 d1 d2 z01 z02 z10 z12 z20 z21 : spec_float) :
  finite_row v = true ->
  same_number d0 c -> same_number d1 c -> same_number d2 c ->
  Ieee.is_zero z01 = true -> Ieee.is_zero z02 = true -> Ieee.is_zero z10 = true ->
  Ieee.is_zero z12 = true -> Ieee.is_zero z20 = true -> Ieee.is_zero z21 = true ->
  same_row (Vector.row_dot v ((d0, z01, z02), (z10, d1, z12), (z20, z21, d2)))
           (Vector.row_scale c v).
Proof.
  destruct v as [[v0 v1] v2]. unfold finite_row. intros Hv H0 H1 H2 Z01 Z02 Z10 Z12 Z20 Z21.
  apply andb_true_iff in Hv. destruct Hv as [Hv Hv2].
  apply andb_true_iff in Hv. destruct Hv as [Hv0 Hv1].
  cbn [Vector.row_dot Vector.row_scale same_row Num.add32 Num.mul32 FArith].
  split; [|split].
  - eapply same_number_trans; [apply add_zero_r; apply mul_zero_r; assumption|].
    eapply same_number_trans; [apply add_zero_r; apply mul_zero_r; assumption|].
    apply mul_same_number; assumption.
  - eapply same_number_trans; [apply add_zero_r; apply mul_zero_r; assumption|].
    eapply same_number_trans; [apply add_zero_l; apply mul_zero_r; assumption|].
    apply mul_same_number; assumption.
  - eapply same_number_trans;
      [apply add_zero_l; apply add_zeros; apply mul_zero_r; assumption|].
    apply mul_same_number; assumption.
Qed.

Lemma row_scale_one (v : @Vector.vec3 spec_float) :
  binary32_row v = true -> Vector.row_scale (single_pow2 0) v = v.
Proof.
  destruct v as [[a b] c]. unfold binary32_row. intros H.
  apply andb_true_iff in H. destruct H as [H Hc].
  apply andb_true_iff in H. destruct H as [Ha Hb].
  cbn [Vector.row_scale Num.mul32 FArith].
  rewrite !mul32_one by assumption. reflexivity.
Qed.

Lemma binary32_row_finite (v : @Vector.vec3 spec_float) :
  binary32_row v = true -> finite_row v = true.
Proof.
  destruct v as [[a b] c]. unfold binary32_row, finite_row, binary32. intros H.
  apply andb_true_iff in H. destruct H as [H Hc].
  apply andb_true_iff in H. destruct H as [Ha Hb].
  apply andb_true_iff in Ha, Hb, Hc.
  destruct Ha as [-> _], Hb as [-> _], Hc as [-> _]. reflexivity.
Qed.

End ZeroAxis.

(** *** [scale] by a power of two *)

Lemma scales_by_pow2_binary32 (k : Z) (x : spec_float) :
  scales_by_pow2 k x = true -> binary32 x = true.
Proof.
  destruct x as [s|s| |s m e]; try discriminate; [reflexivity|].
  unfold scales_by_pow2, binary32. intros H.
  apply andb_true_iff in H. destruct H as [H _]. rewrite H. reflexivity.
Qed.

Lemma row_scales_binary32 (k : Z) (v : @Vector.vec3 spec_float) :
  row_scales_by_pow2 k v = true -> binary32_row v = true.
Proof.
  destruct v as [[a b] c]. unfold row_scales_by_pow2, binary32_row. intros H.
  apply andb_true_iff in H. destruct H as [H Hc].
  apply andb_true_iff in H. destruct H as [Ha Hb].
  rewrite (scales_by_pow2_binary32 k a Ha), (scales_by_pow2_binary32 k b Hb),
    (scales_by_pow2_binary32 k c Hc). reflexivity.
Qed.

(** Multiplying by [2 ^ k] and then by [2 ^ -k] gives back the number. *)
Lemma mul32_pow2_back (k : Z) (x : spec_float) :
  scales_by_pow2 k x = true ->
  SFmul 24 128 (SFmul 24 128 x (single_pow2 k)) (single_pow2 (- k)) = x.
Proof.
  destruct x as [s|s| |s m e]; try discriminate.
  - intros _. cbn. rewrite !xorb_false_r. reflexivity.
  - unfold scales_by_pow2. cbn [SpecFloat.valid_binary]. intros H.
    apply andb_true_iff in H. destruct H as [H1 H2].
    rewrite mul32_pow2 by exact H2.
    rewrite mul32_pow2 by (replace (e + k + - k) with e by lia; exact H1).
    f_equal. lia.
Qed.

Lemma row_scale_pow2_back (k : Z) (v : @Vector.vec3 spec_float) :
  row_scales_by_pow2 k v = true ->
  Vector.row_scale (single_pow2 (- k)) (Vector.row_scale (single_pow2 k) v) = v.
Proof.
  destruct v as [[a b] c]. unfold row_scales_by_pow2. intros H.
  apply andb_true_iff in H. destruct H as [H Hc].
  apply andb_true_iff in H. destruct H as [Ha Hb].
  cbn [Vector.row_scale Num.mul32 FArith].
  rewrite !mul32_pow2_back by assumption. reflexivity.
Qed.

Lemma truediv_pow2 (a b : Z) :
  -1021 <= a - b <= 1023 -> Num.truediv (pow2 a) (pow2 b) = Ok (pow2 (a - b)).
Proof.
  intros H. cbn [Num.truediv FArith]. unfold Ieee.truediv.
  cbn [Ieee.is_zero pow2]. fold (pow2 a). fold (pow2 b).
  rewrite div64_pow2 by exact H. reflexivity.
Qed.

Lemma new_mesh_vertices (vs ns : list (@Vector.vec3 spec_float)) :
  Forall (fun v => binary32_row v = true) vs ->
  vertices (s_model (StlModel_init (vs, ns))) = vs.
Proof.
  intros H. cbn [StlModel_init s_model vertices].
  rewrite <- (map_id vs) at 2. apply map_ext_Forall.
  eapply Forall_impl; [|exact H]. intros v Hv. apply as_float32_binary32. exact Hv.
Qed.

(** [scale(2 ** k)] and then [scale(1.0)] on a new mesh. *)
Lemma scale_pow2_round_trip (vs ns : list (@Vector.vec3 spec_float)) (k : Z) :
  -126 <= k <= 126 ->
  Forall (fun v => row_scales_by_pow2 k v = true) vs ->
  exists m1 m2,
    scale (StlModel_init (vs, ns)) (pow2 k) = Ok m1 /\
    scale m1 (Num.lit 1.0) = Ok m2 /\
    vertices (s_model m2) = vs /\
    scaling_factor m2 = Num.lit 1.0.
Proof.
  intros Hk Hvs.
  assert (Hb : Forall (fun v => binary32_row v = true) vs).
  { eapply Forall_impl; [|exact Hvs]. intros v. apply row_scales_binary32. }
  pose proof (new_mesh_vertices vs ns Hb) as Hnew.
  assert (Hone : Num.lit 1.0 = pow2 0) by exact literal_one.
  destruct (Z.eq_dec k 0) as [->|Hne].
  - assert (E : scale (StlModel_init (vs, ns)) (pow2 0) = Ok (StlModel_init (vs, ns))).
    { apply scale_same. cbn [StlModel_init scaling_factor]. rewrite Hone.
      cbn [Num.eqb FArith]. rewrite eqb_pow2. reflexivity. }
    exists (StlModel_init (vs, ns)), (StlModel_init (vs, ns)).
    split; [exact E|]. split; [rewrite Hone; exact E|]. split; [exact Hnew|reflexivity].
  - eexists. eexists. split; [|split; [|split]].
    + apply scale_other.
      * cbn [StlModel_init scaling_factor]. rewrite Hone.
        cbn [Num.eqb FArith]. rewrite eqb_pow2. apply Z.eqb_neq. exact Hne.
      * cbn [StlModel_init scaling_factor]. rewrite Hone. apply truediv_pow2. lia.
    + apply scale_other.
      * cbn [scaling_factor]. rewrite Hone.
        cbn [Num.eqb FArith]. rewrite eqb_pow2. apply Z.eqb_neq. lia.
      * cbn [scaling_factor]. rewrite Hone. apply truediv_pow2. lia.
    + cbn [s_model vertices]. rewrite Hnew, map_map.
      rewrite <- (map_id vs) at 2. apply map_ext_Forall.
      eapply Forall_impl; [|exact Hvs]. intros v Hv.
      rewrite !row_imul_pow2 by lia. rewrite Z.sub_0_r, Z.sub_0_l.
      apply row_scale_pow2_back. exact Hv.
    + reflexivity.
Qed.

(** [scale(0.0)] and then [scale(1.0)]. *)
Lemma scale_zero_then_one (self : @StlModel spec_float) (zero : spec_float) :
  scaling_factor self = Num.lit 1.0 -> Ieee.is_zero zero = true ->
  exists m1,
    scale self zero = Ok m1 /\ scaling_factor m1 = zero /\
    scale m1 (Num.lit 1.0) = Raise ZeroDivisionError.
Proof.
  intros Hs Hz. destruct (is_zero_inv zero Hz) as [sz ->].
  eexists. split; [|split].
  - apply scale_other.
    + rewrite Hs. destruct sz; reflexivity.
    + rewrite Hs. reflexivity.
  - reflexivity.
  - apply scale_raises.
    + cbn [scaling_factor]. destruct sz; reflexivity.
    + reflexivity.
Qed.

End FloatMesh.

(** ** actors.py and vector.py: the claims on meshes *)

Module StlClaims.
Import Actors ModelSpec FloatSpec Samples StlFacts RealFacts FloatFacts FloatMesh.

Section WithArith.
Context {num : Type} {A : Num.Arith num} {M : Num.Math num}.

(** C4, as the code has it.  On a model with at least one vertex and no
    cached box, reading [bounding_box] returns the per-axis minima and
    maxima of the current vertices and stores that box in the cache.
    [translate], [rotate], and [scale] with a factor other than the
    current one return a mesh whose cache is empty, whatever it held
    before; [scale] with the current factor changes nothing.  So, on a
    model whose cache is empty or holds the box of its vertices, a read
    after any of the three operations gives what [_calculate_bounding_box]
    gives on the vertices after the operation, and a read leaves the cache
    in that condition.  [translate] returns on every mesh that has
    vertices; on a mesh without vertices it raises [ValueError] and the
    read of the box does too. *)
Theorem bounding_box_cache (self : @StlModel num) :
  (forall (m : @Model num) v vs,
     _bounding_box m = None -> vertices m = v :: vs ->
     bounding_box m =
       Ok (spec_bounding_box v vs,
           {| vertices := v :: vs; _bounding_box := Some (spec_bounding_box v vs) |})) /\
  (forall x y z self',
     translate self x y z = Ok self' -> _bounding_box (s_model self') = None) /\
  (forall angle x y z self',
     rotate self angle x y z = Ok self' -> _bounding_box (s_model self') = None) /\
  (forall factor self',
     Num.eqb factor (scaling_factor self) = false -> scale self factor = Ok self' ->
     _bounding_box (s_model self') = None) /\
  (forall factor,
     Num.eqb factor (scaling_factor self) = true -> scale self factor = Ok self) /\
  (cache_coherent (s_model self) ->
     (forall x y z self',
        translate self x y z = Ok self' ->
        read_bounding_box (s_model self') = _calculate_bounding_box (s_model self')) /\
     (forall angle x y z self',
        rotate self angle x y z = Ok self' ->
        read_bounding_box (s_model self') = _calculate_bounding_box (s_model self')) /\
     (forall factor self',
        scale self factor = Ok self' ->
        read_bounding_box (s_model self') = _calculate_bounding_box (s_model self')) /\
     (forall box m',
        bounding_box (s_model self) = Ok (box, m') ->
        cache_coherent m' /\ vertices m' = vertices (s_model self))) /\
  (vertices (s_model self) <> [] ->
     forall x y z, exists self', translate self x y z = Ok self') /\
  (vertices (s_model self) = [] ->
     (forall x y z, translate self x y z = Raise ValueError) /\
     (_bounding_box (s_model self) = None ->
      bounding_box (s_model self) = Raise ValueError)).
Proof.
  split; [|split; [|split; [|split; [|split; [|split; [|split]]]]]].
  - intros m v vs Hc Hv. unfold bounding_box. rewrite Hc.
    rewrite (calculate_nonempty m v vs Hv). cbn [bind]. rewrite Hv. reflexivity.
  - intros x y z self' E. apply (translate_inv _ _ _ _ _ E).
  - intros angle x y z self' E. apply (rotate_inv _ _ _ _ _ _ E).
  - intros factor self' Hne. unfold scale. rewrite Hne. cbn [negb].
    destruct (Num.truediv factor (scaling_factor self)); cbn [bind]; [|discriminate].
    intros E. injection E as <-. reflexivity.
  - apply scale_same.
  - intros Hcoh. split; [|split; [|split]].
    + intros x y z self' E. apply read_coherent, cleared_is_coherent.
      apply (translate_inv _ _ _ _ _ E).
    + intros angle x y z self' E. apply read_coherent, cleared_is_coherent.
      apply (rotate_inv _ _ _ _ _ _ E).
    + intros factor self' E. apply read_coherent.
      apply (scale_coherent self self' factor Hcoh E).
    + intros box m' E.
      destruct (bounding_box_keeps_coherent _ _ _ Hcoh E) as (H1 & H2 & _). auto.
  - intros Hne x y z. eexists. apply translate_returns. exact Hne.
  - intros Hempty. split.
    + intros x y z. apply translate_empty. exact Hempty.
    + intros Hc. unfold bounding_box. rewrite Hc.
      rewrite (calculate_empty _ Hempty). reflexivity.
Qed.

End WithArith.

(** The cache of [boxed_triangle] holds the box of its vertices. *)
Lemma boxed_triangle_coherent : cache_coherent (s_model boxed_triangle).
Proof.
  intros box H. cbn in H. injection H as <-.
  unfold _calculate_bounding_box. cbn.
  unfold Rmin, Rmax.
  repeat (destruct (Rle_dec _ _); try lra).
  all: reflexivity.
Qed.

Lemma bounding_box_cache_witness :
  _bounding_box (s_model boxed_triangle) <> None /\
  exists self',
    translate boxed_triangle 1%R 1%R 1%R = Ok self' /\
    _bounding_box (s_model self') = None /\
    read_bounding_box (s_model self') = _calculate_bounding_box (s_model self').
Proof.
  destruct (bounding_box_cache boxed_triangle)
    as (_ & Hclear & _ & _ & _ & Hread & Hreturns & _).
  destruct (Hread boxed_triangle_coherent) as (Ht & _).
  destruct (Hreturns ltac:(discriminate) 1%R 1%R 1%R) as (self' & E).
  split; [discriminate|].
  exists self'. split; [exact E|]. split.
  - apply (Hclear 1%R 1%R 1%R self' E).
  - apply (Ht 1%R 1%R 1%R self' E).
Defined.

(** C4 as stated fails on a model without vertices: there is no cached
    box, and the read raises [ValueError]. *)
Lemma bounding_box_of_empty_model_raises :
  _bounding_box (s_model (StlModel_init (A := RArith) ([], []))) = None /\
  bounding_box (s_model (StlModel_init (A := RArith) ([], []))) = Raise ValueError.
Proof. split; reflexivity. Qed.

(** C5, as the code has it.  [scale] with the current factor changes
    nothing.  With another factor it divides the factor by the current
    one, raising [ZeroDivisionError] when that one is zero, multiplies
    every coordinate by the quotient as numpy multiplies an array of
    dtype ['f'] by a Python float, sets [scaling_factor] to the factor
    and empties the cache.  In
    IEEE arithmetic, on a new mesh: for a factor that is a power of two,
    and coordinates whose products with it are binary32 values with the
    same mantissas, [scale(f)] followed by [scale(1.0)] gives back the
    coordinates and the scaling factor 1.0; for the factor zero the
    second call raises [ZeroDivisionError]. *)
Theorem scale_is_relative :
  (forall (num : Type) (A : Num.Arith num) (self : @StlModel num) (factor : num),
     Num.eqb factor (scaling_factor self) = true -> scale self factor = Ok self) /\
  (forall (num : Type) (A : Num.Arith num) (self : @StlModel num) (factor k : num),
     Num.eqb factor (scaling_factor self) = false ->
     Num.truediv factor (scaling_factor self) = Ok k ->
     scale self factor =
       Ok {| s_model := {| vertices := map (Vector.row_imul k) (vertices (s_model self));
                           _bounding_box := None |};
             normals := normals self;
             scaling_factor := factor |}) /\
  (forall (num : Type) (A : Num.Arith num) (self : @StlModel num) (factor : num) (e : exn),
     Num.eqb factor (scaling_factor self) = false ->
     Num.truediv factor (scaling_factor self) = Raise e ->
     scale self factor = Raise e) /\
  (forall (vs ns : list (@Vector.vec3 spec_float)) (k : Z),
     (-126 <= k <= 126)%Z ->
     Forall (fun v => row_scales_by_pow2 k v = true) vs ->
     exists m1 m2,
       scale (StlModel_init (vs, ns)) (pow2 k) = Ok m1 /\
       scale m1 (Num.lit 1.0) = Ok m2 /\
       vertices (s_model m2) = vs /\
       scaling_factor m2 = Num.lit 1.0) /\
  (forall (vs ns : list (@Vector.vec3 spec_float)) (zero : spec_float),
     Ieee.is_zero zero = true ->
     exists m1,
       scale (StlModel_init (vs, ns)) zero = Ok m1 /\
       scaling_factor m1 = zero /\
       scale m1 (Num.lit 1.0) = Raise ZeroDivisionError).
Proof.
  split; [|split; [|split; [|split]]].
  - intros num A self factor. apply scale_same.
  - intros num A self factor k. apply scale_other.
  - intros num A self factor e. apply scale_raises.
  - apply scale_pow2_round_trip.
  - intros vs ns zero Hz. apply scale_zero_then_one; [reflexivity|exact Hz].
Qed.

Lemma scale_is_relative_witness :
  exists m1 m2,
    scale (StlModel_init ([row_1_2_3], [row_1_2_3])) (pow2 3) = Ok m1 /\
    scale m1 (Num.lit 1.0) = Ok m2 /\
    vertices (s_model m2) = [row_1_2_3] /\
    scaling_factor m2 = Num.lit 1.0.
Proof.
  destruct scale_is_relative as (_ & _ & _ & H & _).
  apply (H [row_1_2_3] [row_1_2_3] 3%Z).
  - lia.
  - repeat constructor.
Defined.

(** C5 as stated fails, in two ways.  The factor 7: [scale(7.0)] and then
    [scale(1.0)] turn the coordinate 3.0 into 3.0000002, since 1/7 is not
    a binary32 value.  The factor 0: [scale(0.0)] sets the scaling factor
    to 0 and [scale(1.0)] then divides by it. *)
Lemma scale_then_one_does_not_restore :
  (exists m1 m2,
     scale (StlModel_init one_vertex) f7 = Ok m1 /\
     scale m1 (Num.lit 1.0) = Ok m2 /\
     vertices (s_model (StlModel_init one_vertex))
       = [(S754_finite false 12582912 (-22), S754_finite false 12582912 (-22),
           S754_finite false 12582912 (-22))] /\
     vertices (s_model m2)
       = [(S754_finite false 12582913 (-22), S754_finite false 12582913 (-22),
           S754_finite false 12582913 (-22))]) /\
  bind (scale (StlModel_init one_vertex) (Ieee.of_int 0)) (fun m1 => scale m1 (Num.lit 1.0))
  = Raise ZeroDivisionError.
Proof.
  split.
  - eexists. eexists. split; [vm_compute; reflexivity|].
    split; [vm_compute; reflexivity|]. split; reflexivity.
  - vm_compute. reflexivity.
Qed.

(** C8, as the code has it.  On an array without rows [rotate] raises
    [ValueError].  On an array with rows, at a finite angle, [rotate] about
    the axis [(0, 0, 0)] returns, and its matrix is the cosine of the
    angle, converted to binary32, times the identity: every finite vertex
    comes back multiplied by that cosine (up to the sign of a zero), so
    the vertices come back unchanged when that cosine is 1. *)
Theorem rotate_about_zero_axis
  (libm_pow : spec_float -> spec_float -> spec_float)
  (libm_cos libm_sin : spec_float -> spec_float)
  (vs : list (@Vector.vec3 spec_float)) (angle x y z : spec_float) :
  Ieee.is_zero x = true -> Ieee.is_zero y = true -> Ieee.is_zero z = true ->
  finite_trig (FMath libm_pow libm_cos libm_sin) angle = true ->
  let c := Ieee.float32 (libm_cos (Ieee.radians angle)) in
  (vs = [] ->
   Vector.rotate (M := FMath libm_pow libm_cos libm_sin) vs angle x y z = Raise ValueError) /\
  (vs <> [] ->
   exists rows,
     Vector.rotate (M := FMath libm_pow libm_cos libm_sin) vs angle x y z = Ok rows /\
     length rows = length vs /\
     (Forall (fun v => finite_row v = true) vs ->
      Forall2 same_row rows (map (Vector.row_scale c) vs)) /\
     (Forall (fun v => binary32_row v = true) vs -> c = single_pow2 0 ->
      Forall2 same_row rows vs)).
Proof.
  intros Hx Hy Hz Ht c. unfold finite_trig in Ht.
  cbn [Num.cos Num.sin Num.radians Num.sub Num.lit FMath FArith] in Ht.
  apply andb_true_iff in Ht. destruct Ht as [Ht HC].
  apply andb_true_iff in Ht. destruct Ht as [Ht Hs].
  apply andb_true_iff in Ht. destruct Ht as [_ Hc].
  split.
  - intros ->. reflexivity.
  - intros Hne. destruct vs as [|v0 vs0]; [congruence|].
    unfold Vector.rotate.
    match goal with |- context [Vector.dot _ ?m] => set (matrix := m) end.
    unfold Vector.dot. set (vs := v0 :: vs0).
    exists (map (fun v => Vector.row_dot v matrix) vs).
    split; [reflexivity|]. split; [apply length_map|].
    assert (Hscaled : Forall (fun v => finite_row v = true) vs ->
              Forall2 same_row
                (map (fun v => Vector.row_dot v matrix) vs) (map (Vector.row_scale c) vs)).
    { intros Hfin. induction Hfin as [|v l Hv Hl IH]; [constructor|].
      cbn [map]. constructor; [|exact IH].
      unfold matrix.
      cbn [Vector.as_float32 Num.float32 Num.add Num.sub Num.mul Num.pow Num.cos Num.sin
           Num.radians Num.lit FMath FArith].
      apply row_dot_diagonal; try exact Hv;
        try (apply diagonal_entry; assumption);
        try (apply entry_sub; assumption);
        try (apply entry_add; assumption). }
    split; [exact Hscaled|].
    intros Hb Hone.
    assert (Hfin : Forall (fun v => finite_row v = true) vs).
    { eapply Forall_impl; [|exact Hb]. intros v. apply binary32_row_finite. }
    specialize (Hscaled Hfin). rewrite Hone in Hscaled.
    replace (map (Vector.row_scale (single_pow2 0)) vs) with vs in Hscaled; [exact Hscaled|].
    rewrite <- (map_id vs) at 1. apply map_ext_Forall.
    eapply Forall_impl; [|exact Hb]. intros v Hv. symmetry. apply row_scale_one. exact Hv.
Qed.

Lemma rotate_about_zero_axis_witness :
  exists rows,
    Vector.rotate (M := math_at_180) [row_1_2_3]
      (Ieee.of_int 180) (Ieee.of_int 0) (Ieee.of_int 0) (Ieee.of_int 0) = Ok rows /\
    Forall2 same_row rows [Vector.row_scale (Ieee.float32 cos_180) row_1_2_3].
Proof.
  destruct (rotate_about_zero_axis
              (fun x _ => SFmul 53 1024 x x) (fun _ => cos_180) (fun _ => sin_180)
              [row_1_2_3] (Ieee.of_int 180) (Ieee.of_int 0) (Ieee.of_int 0) (Ieee.of_int 0)
              eq_refl eq_refl eq_refl eq_refl) as (_ & H).
  destruct (H ltac:(discriminate)) as (rows & E & _ & Hrows & _).
  exists rows. split; [exact E|]. apply Hrows. repeat constructor.
Defined.

(** C8 as stated fails: a rotation by 180 degrees about the axis
    [(0, 0, 0)] negates the vertices.  In IEEE arithmetic, with the cosine
    -1.0 the C library returns for [math.radians(180)], the vertex
    [(1, 0, 0)] comes back as [(-1, 0, 0)]; over the real numbers too. *)
Lemma rotate_zero_axis_half_turn_negates :
  Vector.rotate (M := math_at_180)
    [(single_pow2 0, S754_zero false, S754_zero false)]
    (Ieee.of_int 180) (Ieee.of_int 0) (Ieee.of_int 0) (Ieee.of_int 0)
  = Ok [(S754_finite true 8388608 (-23), S754_zero false, S754_zero false)] /\
  Vector.rotate [(1, 0, 0)%R] 180%R 0%R 0%R 0%R = Ok [(-1, 0, 0)%R] /\
  Vector.rotate [(1, 0, 0)%R] 180%R 0%R 0%R 0%R <> Ok [(1, 0, 0)%R].
Proof.
  assert (E : Vector.rotate [(1, 0, 0)%R] 180%R 0%R 0%R 0%R = Ok [(-1, 0, 0)%R]).
  { rewrite rotate_zero_axis. cbn [map].
    replace (180 * (PI / 180))%R with PI by field. rewrite cos_PI.
    f_equal. f_equal. f_equal; [f_equal|]; ring. }
  split; [vm_compute; reflexivity|].
  split; [exact E|]. rewrite E. intros H. injection H as H. lra.
Qed.

End StlClaims.

(** ** Runs of the model on concrete inputs *)

Module Examples.
Import Views Actors Samples.

(** The scenario of the specification: two layers of one plain movement
    each. *)
Example two_layers_of_one_movement :
  exists g,
    GcodeModel_init [[plain_movement]; [plain_movement]] = Ok g /\
    len (vertices (g_model g)) = 4%Z /\
    colors g = [color_map red; color_map red] /\
    len (arrows g) = 6%Z /\
    layer_stops g = [0; 2; 4]%Z /\
    max_layers g = 2%Z /\
    _display_movements g true = Ok (2, 2)%Z /\
    _display_movements g false = Ok (0, 4)%Z /\
    _display_arrows g = Ok (3, 3)%Z.
Proof. eexists. repeat split. Qed.

(** A model without layers holds the single stop 0 and draws nothing. *)
Example no_layers :
  exists g,
    GcodeModel_init (A := RArith) [] = Ok g /\
    layer_stops g = [0%Z] /\ max_layers g = 0%Z /\
    _display_movements g false = Ok (0, 0)%Z.
Proof. eexists. repeat split. Qed.

(** On a model of two layers the selector 0 is not an error in 2D mode:
    [layer_stops[-1]] is the last stop. *)
Example selector_zero_wraps_around :
  exists g,
    GcodeModel_init [[plain_movement]; [plain_movement]] = Ok g /\
    _display_movements (set_num_layers_to_draw g 0) true = Ok (4, -4)%Z.
Proof. eexists. repeat split. Qed.

(** The arrow array of that model has six items of six rows each. *)
Example arrows_of_two_movements :
  exists g,
    GcodeModel_init [[plain_movement]; [plain_movement]] = Ok g /\
    len (arrows g) = 6%Z /\
    Forall (fun rows => len rows = 6%Z) (arrows g).
Proof. eexists. split; [reflexivity|]. split; [reflexivity|]. repeat constructor. Qed.

(** In binary32 a translation is not undone by the opposite one:
    16777216 + 1 is rounded to 16777216, and 16777216 - 1 is 16777215. *)
Example translate_there_and_back :
  bind (Vector.translate [(Ieee.of_int 16777216, f1, f1)] f1 f1 f1)
       (fun vs => Vector.translate vs (Ieee.of_int (-1)) (Ieee.of_int (-1)) (Ieee.of_int (-1)))
  = Ok [(S754_finite false 16777215 0, S754_finite false 8388608 (-23),
         S754_finite false 8388608 (-23))].
Proof. vm_compute. reflexivity. Qed.

(** [translate] and [rotate] on the array of an empty list. *)
Example translate_no_vertices :
  Vector.translate (A := FArith) [] f1 f1 f1 = Raise ValueError.
Proof. reflexivity. Qed.

Example rotate_no_vertices :
  Vector.rotate (A := FArith) (M := math_at_180) [] (Ieee.of_int 180) f1 f1 f1
  = Raise ValueError.
Proof. reflexivity. Qed.

(** An array of dtype ['f'] times a Python float beyond the range of
    that dtype: the products are computed on doubles, so a zero stays a
    zero and 1.0 becomes an infinity. *)
Example scale_beyond_float32 :
  Vector.row_imul (Ieee.of_int (10 ^ 39)) (Ieee.of_int 0, f1, f1)
  = (S754_zero false, S754_infinity false, S754_infinity false).
Proof. vm_compute. reflexivity. Qed.

(** A half turn about the axis [(0, 0, 0)] in IEEE arithmetic. *)
Example half_turn_about_zero_axis :
  Vector.rotate (M := math_at_180) [row_1_2_3]
    (Ieee.of_int 180) (Ieee.of_int 0) (Ieee.of_int 0) (Ieee.of_int 0)
  = Ok [(S754_finite true 8388608 (-23), S754_finite true 8388608 (-22),
         S754_finite true 12582912 (-22))].
Proof. vm_compute. reflexivity. Qed.

Local Open Scope float_scope.

(** [View2D] starts at zoom factor 5; one step in gives 6, and from 900
    the factor is capped. *)
Example zoom_in_once : zoom_factor (zoom View2D_init 0 1) = 6.
Proof. reflexivity. Qed.

Example zoom_in_capped :
  zoom_factor (zoom (set_zoom_factor View2D_init 900) 0 1) = 1000.
Proof. reflexivity. Qed.

Example zoom_out_floored :
  zoom_factor (zoom (set_zoom_factor View2D_init 0.11) 0 (-1)) = 0.1.
Proof. reflexivity. Qed.

(** [reset_state] after some gestures on a new [View3D]. *)
Example reset_after_gestures :
  match run [Rotate 30 10; Pan 5 5; Zoom 0 1] View3D_init with
  | Ok v => reset_state v
  | Raise e => Raise e
  end = Ok View3D_init.
Proof. reflexivity. Qed.

(** [pop_state] on an empty stack raises. *)
Example pop_state_empty_stack :
  pop_state (set_stack View2D_init []) = Raise IndexError.
Proof. reflexivity. Qed.

End Examples.


(* ================================================================== *)
(** * Part III: further properties of the code *)
(* ================================================================== *)

(** ** views.py: the state stack and the gestures *)

Module ViewsMore.
Import Views ViewsSpec Doubles Binary64 ViewsZoom ViewsSign ViewsState.
Local Open Scope float_scope.

Lemma pop_inv {T : Type} (l s : list T) (a : T) : pop l = Ok (s, a) -> l = s ++ [a].
Proof.
  unfold pop. destruct (rev l) as [|b r] eqn:E; [discriminate|].
  intros H. injection H as <- <-.
  rewrite <- (rev_involutive l), E. reflexivity.
Qed.

Lemma pop_raises {T : Type} (l : list T) (e : exn) :
  pop l = Raise e -> l = [] /\ e = IndexError.
Proof.
  unfold pop. destruct (rev l) as [|b r] eqn:E; [|discriminate].
  intros H. injection H as <-. split; [|reflexivity].
  rewrite <- (rev_involutive l), E. reflexivity.
Qed.

Lemma setattr_getattr (self : ViewMode) (a : attr) :
  setattr self a (getattr self a) = self.
Proof. destruct self, a; reflexivity. Qed.

Lemma set_stack_twice (self : ViewMode) (s1 s2 : list float) :
  set_stack (set_stack self s1) s2 = set_stack self s2.
Proof. reflexivity. Qed.

(** Popping the very values the variables hold only shortens the stack. *)
Lemma pop_vars_own_values (vars : list attr) :
  forall (self : ViewMode) (s : list float),
    _stack self = s ++ map (getattr self) vars ->
    pop_vars (rev vars) self = Ok (set_stack self s).
Proof.
  induction vars as [|a vars IH] using rev_ind; intros self s Hs.
  - simpl in *. rewrite app_nil_r in Hs. rewrite <- Hs, set_stack_same. reflexivity.
  - rewrite rev_app_distr. simpl.
    rewrite map_app, app_assoc in Hs. simpl in Hs.
    rewrite Hs, pop_app.
    replace (setattr (set_stack self (s ++ map (getattr self) vars)) a (getattr self a))
      with (set_stack self (s ++ map (getattr self) vars))
      by (destruct self, a; reflexivity).
    rewrite (IH (set_stack self (s ++ map (getattr self) vars)) s).
    + reflexivity.
    + reflexivity.
Qed.

Lemma pop_push (self : ViewMode) :
  pop_state (push_state self) = Ok self /\
  length (_stack (push_state self))
    = (length (_stack self) + length (_save_vars self))%nat.
Proof.
  rewrite push_state_spec. split.
  - unfold pop_state. cbn [set_stack _save_vars].
    rewrite (pop_vars_own_values (_save_vars self) _ (_stack self)).
    + rewrite set_stack_twice, set_stack_same. reflexivity.
    + reflexivity.
  - cbn [set_stack _stack]. rewrite length_app, length_map. reflexivity.
Qed.

(** X1.  [pop_state] undoes [push_state]: the view is exactly the one
    before the push, whatever its list of saved variables, and the push
    had added one value per saved variable. *)
Theorem pop_state_after_push_state (self : ViewMode) :
  pop_state (push_state self) = Ok self /\
  length (_stack (push_state self))
    = (length (_stack self) + length (_save_vars self))%nat.
Proof. apply pop_push. Qed.

(** X2.  [pop_state] after [push_state] and any gestures gives the saved
    variables the values they had at the push, keeps the values the
    gestures gave to the other attributes, and leaves the stack as it was
    before the push. *)
Theorem pop_state_after_gestures (self self' : ViewMode) (calls : list call) :
  run calls (push_state self) = Ok self' ->
  exists self'',
    pop_state self' = Ok self'' /\
    (forall a, In a (_save_vars self) -> getattr self'' a = getattr self a) /\
    (forall a, ~ In a (_save_vars self) -> getattr self'' a = getattr self' a) /\
    _stack self'' = _stack self.
Proof.
  intros Hrun. destruct (run_frame _ _ _ Hrun) as (F1 & F2 & F3).
  rewrite push_state_spec in F1, F2, F3. simpl in F1, F2, F3.
  unfold pop_state. rewrite F2.
  destruct (pop_vars_spec (getattr self) (_save_vars self) self' (_stack self) F1)
    as (p & E & S1 & S2 & S3 & Hin & Hout).
  exists p. auto.
Qed.

Lemma pop_state_after_gestures_witness :
  exists self'',
    pop_state (zoom (rotate (push_state View2D_init) 15 0) 0 1) = Ok self'' /\
    zoom_factor self'' = 5 /\ azimuth self'' = 0 /\ _stack self'' = _stack View2D_init.
Proof.
  destruct (pop_state_after_gestures View2D_init
              (zoom (rotate (push_state View2D_init) 15 0) 0 1)
              [Rotate 15 0; Zoom 0 1] eq_refl)
    as (v & E & Hin & _ & Hs).
  exists v. split; [exact E|]. split; [|split; [|exact Hs]].
  - apply (Hin attr_zoom_factor). simpl. auto.
  - apply (Hin attr_azimuth). simpl. auto 6.
Defined.

Lemma pop_vars_short_stack (vars : list attr) :
  forall self : ViewMode,
    (length (_stack self) < length vars)%nat -> pop_vars vars self = Raise IndexError.
Proof.
  induction vars as [|a vars IH]; intros self H; [simpl in H; lia|].
  simpl. destruct (pop (_stack self)) as [[s v]|e] eqn:E.
  - apply pop_inv in E. apply IH.
    destruct (setattr_frame (set_stack self s) a v) as (F & _). rewrite F. simpl.
    rewrite E, length_app in H. simpl in H. lia.
  - apply pop_raises in E. destruct E as [_ ->]. reflexivity.
Qed.

Lemma pop_short (self : ViewMode) :
  (length (_stack self) < length (_save_vars self))%nat ->
  pop_state self = Raise IndexError.
Proof.
  intros H. unfold pop_state. apply pop_vars_short_stack. rewrite length_rev. exact H.
Qed.

(** X3.  [pop_state] and [reset_state] on a stack that holds fewer values
    than there are saved variables raise [IndexError]. *)
Theorem pop_state_short_stack (self : ViewMode) :
  (length (_stack self) < length (_save_vars self))%nat ->
  pop_state self = Raise IndexError /\ reset_state self = Raise IndexError.
Proof.
  intros H. pose proof (pop_short self H) as E.
  split; [exact E|]. unfold reset_state. rewrite E. reflexivity.
Qed.

Lemma pop_state_short_stack_witness :
  pop_state (set_stack View3D_init [1; 2; 3]) = Raise IndexError.
Proof.
  apply (pop_state_short_stack (set_stack View3D_init [1; 2; 3])). simpl. lia.
Defined.

(** X4.  [reset_state] is idempotent: a second reset changes nothing. *)
Theorem reset_state_idempotent (self self' : ViewMode) :
  reset_state self = Ok self' -> reset_state self' = Ok self'.
Proof.
  unfold reset_state. destruct (pop_state self) as [p|e]; [|discriminate].
  intros H. injection H as <-.
  destruct (pop_push p) as [E _]. rewrite E. reflexivity.
Qed.

Lemma reset_state_idempotent_witness :
  reset_state (push_state (zoom View2D_init 0 1))
  = Ok (push_state (zoom View2D_init 0 1)).
Proof.
  apply (reset_state_idempotent (zoom (push_state (zoom View2D_init 0 1)) 0 (-1))).
  reflexivity.
Defined.

Lemma gesture_frames (self : ViewMode) (dx dy : float) :
  (x (zoom self dx dy) = x self /\ y (zoom self dx dy) = y self /\
   z (zoom self dx dy) = z self /\ azimuth (zoom self dx dy) = azimuth self /\
   elevation (zoom self dx dy) = elevation self /\
   _stack (zoom self dx dy) = _stack self) /\
  (x (rotate self dx dy) = x self /\ y (rotate self dx dy) = y self /\
   z (rotate self dx dy) = z self /\
   zoom_factor (rotate self dx dy) = zoom_factor self /\
   (cls self = View2D -> elevation (rotate self dx dy) = elevation self) /\
   _stack (rotate self dx dy) = _stack self) /\
  (forall self', pan self dx dy = Ok self' ->
     zoom_factor self' = zoom_factor self /\ azimuth self' = azimuth self /\
     elevation self' = elevation self /\
     (cls self = View2D -> z self' = z self) /\
     (cls self = View3D -> y self' = y self) /\
     _stack self' = _stack self).
Proof.
  split; [|split].
  - unfold zoom. destruct (0 <? dy); [repeat split|].
    destruct (dy <? 0); repeat split.
  - unfold rotate. destruct (cls self); repeat split; intros; congruence.
  - intros self'. unfold pan. destruct (cls self).
    + intros H. injection H as <-. repeat split; intros; congruence.
    + destruct (truediv dx (zoom_factor self)) as [a|]; cbn [bind]; [|discriminate].
      cbn [set_x zoom_factor].
      destruct (truediv dy (zoom_factor self)) as [b|]; cbn [bind]; [|discriminate].
      intros H. injection H as <-. repeat split; intros; congruence.
Qed.

(** X5.  The gestures are independent: [zoom] changes the zoom factor
    only, [rotate] the angles only, [pan] two coordinates of the position
    only ([x] and [y] on a [View2D], [x] and [z] on a [View3D]); none of
    them touches the stack. *)
Theorem gestures_are_independent (self : ViewMode) (dx dy : float) :
  (x (zoom self dx dy) = x self /\ y (zoom self dx dy) = y self /\
   z (zoom self dx dy) = z self /\ azimuth (zoom self dx dy) = azimuth self /\
   elevation (zoom self dx dy) = elevation self /\
   _stack (zoom self dx dy) = _stack self) /\
  (x (rotate self dx dy) = x self /\ y (rotate self dx dy) = y self /\
   z (rotate self dx dy) = z self /\
   zoom_factor (rotate self dx dy) = zoom_factor self /\
   (cls self = View2D -> elevation (rotate self dx dy) = elevation self) /\
   _stack (rotate self dx dy) = _stack self) /\
  (forall self', pan self dx dy = Ok self' ->
     zoom_factor self' = zoom_factor self /\ azimuth self' = azimuth self /\
     elevation self' = elevation self /\
     (cls self = View2D -> z self' = z self) /\
     (cls self = View3D -> y self' = y self) /\
     _stack self' = _stack self).
Proof. apply gesture_frames. Qed.

Lemma gestures_are_independent_witness :
  zoom_factor (set_y (set_x View2D_init (x View2D_init + 2 * PAN_FACTOR))
                     (y View2D_init - 3 * PAN_FACTOR))
  = zoom_factor View2D_init.
Proof.
  destruct (gestures_are_independent View2D_init 2 3) as (_ & _ & H).
  destruct (H _ eq_refl) as (Hz & _). exact Hz.
Defined.

(** X6.  On a zoom factor in range, zooming in never lowers the factor and
    zooming out never raises it. *)
Theorem zoom_is_monotone (self : ViewMode) (dx dy : float) :
  in_zoom_range (zoom_factor self) = true ->
  ((0 <? dy) = true -> (zoom_factor self <=? zoom_factor (zoom self dx dy)) = true) /\
  ((dy <? 0) = true -> (zoom_factor (zoom self dx dy) <=? zoom_factor self) = true).
Proof.
  intros H. pose proof H as Hr. unfold in_zoom_range in Hr.
  apply andb_true_iff in Hr. destruct Hr as [Hlo Hhi].
  destruct (in_zoom_range_inv _ H) as (m & e & E & Hm & Hl & Hu).
  split; intros Hdy; unfold zoom.
  - rewrite Hdy. cbn [set_zoom_factor zoom_factor]. unfold py_min.
    destruct (ZOOM_MAX <? zoom_factor self * 1.2); [exact Hhi|].
    destruct (SFmul_1_2_grows m e Hm ltac:(lia)) as (m' & e' & E' & Hle).
    rewrite FloatAxioms.leb_spec, FloatAxioms.mul_spec, E, Prim2SF_1_2.
    change (SF64mul (S754_finite false m e) c1_2)
      with (SFmul 53 1024 (S754_finite false m e) c1_2).
    rewrite E'. apply SFleb_finite_pos. exact Hle.
  - rewrite (lt_zero_not_gt dy Hdy), Hdy. cbn [set_zoom_factor zoom_factor].
    unfold py_max.
    destruct (zoom_factor self * 0.83 <? ZOOM_MIN); [exact Hlo|].
    destruct (SFmul_0_83_shrinks m e Hm ltac:(lia)) as (m' & e' & E' & Hle & _).
    rewrite FloatAxioms.leb_spec, FloatAxioms.mul_spec, E, Prim2SF_0_83.
    change (SF64mul (S754_finite false m e) c0_83)
      with (SFmul 53 1024 (S754_finite false m e) c0_83).
    rewrite E'. apply SFleb_finite_pos. exact Hle.
Qed.

Lemma zoom_is_monotone_witness :
  (zoom_factor View3D_init <=? zoom_factor (zoom View3D_init 0 3)) = true.
Proof.
  exact (proj1 (zoom_is_monotone View3D_init 0 3 eq_refl) eq_refl).
Defined.

(** The invariant of the reachable views. *)
Lemma tracked_has_zoom_factor (c : view_class) : In attr_zoom_factor (tracked c).
Proof. destruct c; simpl; auto. Qed.

Lemma do_call_zoom_range (self self' : ViewMode) (c : call) :
  in_zoom_range (zoom_factor self) = true -> do_call self c = Ok self' ->
  in_zoom_range (zoom_factor self') = true.
Proof.
  intros H. destruct c as [dx dy|dx dy|dx dy]; cbn [do_call].
  - intros E. injection E as <-.
    destruct (gesture_frames self dx dy) as (_ & (_ & _ & _ & Hz & _) & _).
    rewrite Hz. exact H.
  - intros E.
    destruct (gesture_frames self dx dy) as (_ & _ & Hp).
    destruct (Hp _ E) as (Hz & _). rewrite Hz. exact H.
  - intros E. injection E as <-. apply zoom_in_zoom_range. exact H.
Qed.

Lemma pan_returns (self : ViewMode) (dx dy : float) :
  in_zoom_range (zoom_factor self) = true -> exists self', pan self dx dy = Ok self'.
Proof.
  intros H. destruct (do_call_total self (Pan dx dy) (or_introl H)) as (v & E & _).
  exists v. exact E.
Qed.

Lemma pop_state_invariant (self self' : ViewMode) :
  _save_vars self = tracked (cls self) ->
  saved_frames (_save_vars self) (_stack self) ->
  pop_state self = Ok self' ->
  _save_vars self' = tracked (cls self') /\
  in_zoom_range (zoom_factor self') = true /\
  saved_frames (_save_vars self') (_stack self').
Proof.
  intros Hv Hs E. inversion Hs as [Hnil|s g Hs' Hg Hst].
  - exfalso. assert (E' : pop_state self = Raise IndexError).
    { apply pop_short. rewrite <- Hnil, Hv. destruct (cls self); simpl; lia. }
    congruence.
  - symmetry in Hst.
    destruct (pop_vars_spec g (_save_vars self) self s Hst)
      as (p & Ep & S1 & S2 & S3 & Hin & _).
    unfold pop_state in E. rewrite Ep in E. injection E as <-.
    split; [congruence|]. split.
    + change (zoom_factor p) with (getattr p attr_zoom_factor).
      rewrite Hin; [exact Hg|]. rewrite Hv. apply tracked_has_zoom_factor.
    + rewrite S1, S2. exact Hs'.
Qed.

Lemma push_state_invariant (self : ViewMode) :
  _save_vars self = tracked (cls self) ->
  in_zoom_range (zoom_factor self) = true ->
  saved_frames (_save_vars self) (_stack self) ->
  _save_vars (push_state self) = tracked (cls (push_state self)) /\
  in_zoom_range (zoom_factor (push_state self)) = true /\
  saved_frames (_save_vars (push_state self)) (_stack (push_state self)).
Proof.
  intros Hv Hz Hs. rewrite push_state_spec. cbn [set_stack _save_vars cls zoom_factor _stack].
  split; [exact Hv|]. split; [exact Hz|].
  apply saved_more; [exact Hs|exact Hz].
Qed.

Lemma reachable_invariant (v : ViewMode) :
  reachable v ->
  _save_vars v = tracked (cls v) /\
  in_zoom_range (zoom_factor v) = true /\
  saved_frames (_save_vars v) (_stack v).
Proof.
  induction 1 as [| |v v' c Hr IH E|v Hr IH|v v' Hr IH E|v v' Hr IH E].
  - unfold View2D_init. apply push_state_invariant;
      [reflexivity|reflexivity|constructor].
  - unfold View3D_init. apply push_state_invariant;
      [reflexivity|reflexivity|constructor].
  - destruct IH as (Hv & Hz & Hs).
    destruct (do_call_frame _ _ _ E) as (F1 & F2 & F3).
    split; [congruence|]. split; [apply (do_call_zoom_range v v' c Hz E)|].
    rewrite F1, F2. exact Hs.
  - destruct IH as (Hv & Hz & Hs). apply push_state_invariant; assumption.
  - destruct IH as (Hv & Hz & Hs). apply (pop_state_invariant v v'); assumption.
  - destruct IH as (Hv & Hz & Hs). unfold reset_state in E.
    destruct (pop_state v) as [p|e] eqn:Ep; [|discriminate]. injection E as <-.
    destruct (pop_state_invariant v p Hv Hs Ep) as (Hv' & Hz' & Hs').
    apply push_state_invariant; assumption.
Qed.

(** X7.  Every view an application can reach (a new [View2D] or [View3D],
    then any gestures, [push_state], and [pop_state] or [reset_state] that
    returned) has its zoom factor in [[0.1, 1000]], and [pan] returns on
    it: the division by the zoom factor in [View3D.pan] never raises. *)
Theorem reachable_views_are_safe (v : ViewMode) :
  reachable v ->
  in_zoom_range (zoom_factor v) = true /\
  (forall dx dy, exists v', pan v dx dy = Ok v') /\
  (forall calls, exists v', run calls v = Ok v').
Proof.
  intros H. destruct (reachable_invariant v H) as (_ & Hz & _).
  split; [exact Hz|]. split.
  - intros dx dy. apply pan_returns. exact Hz.
  - intros calls. apply run_total. left. exact Hz.
Qed.

Lemma reachable_views_are_safe_witness :
  in_zoom_range (zoom_factor (zoom View3D_init 0 (-1))) = true.
Proof.
  exact (proj1 (reachable_views_are_safe (zoom View3D_init 0 (-1))
                  (reach_call View3D_init _ (Zoom 0 (-1)) reach_View3D eq_refl))).
Defined.

End ViewsMore.


(** ** views.py: projection set-up and transforms *)

Module ViewsGLMore.
Import Views ViewsGL Doubles Binary64 ViewsZoom ViewsSign ViewsState ViewsMore.
Local Open Scope float_scope.

Lemma Prim2SF_ZOOM_ORTHO_ADJ : Prim2SF ZOOM_ORTHO_ADJ = c4_5.
Proof. vm_compute. reflexivity. Qed.

(** The product of a double of [[0.1, 1000]] with [4.5] has a greater
    exponent. *)
Lemma SFmul_4_5_grows (m : positive) (e : Z) :
  (2 ^ 52 <= Zpos m < 2 ^ 53)%Z -> (-56 <= e <= -43)%Z ->
  exists m' e', SFmul 53 1024 (S754_finite false m e) c4_5 = S754_finite false m' e' /\
    (e < e')%Z.
Proof.
  intros Hm He. unfold c4_5. cbn [SFmul xorb].
  set (P := (m * 5066549580791808)%positive).
  assert (HP : Zpos P = (Zpos m * 5066549580791808)%Z) by reflexivity.
  change (2 ^ 52)%Z with 4503599627370496%Z in Hm.
  change (2 ^ 53)%Z with 9007199254740992%Z in Hm.
  destruct (Z_lt_le_dec (Zpos P) (2 ^ 105)) as [Hd|Hd].
  - assert (D : Zpos (digits2_pos P) = 105%Z).
    { apply digits2_pos_unique. split; [|exact Hd].
      change (2 ^ (105 - 1))%Z with 20282409603651670423947251286016%Z. lia. }
    destruct (binary_round_aux_normal P (e + -50) 105 D) as (m' & e' & E & Hcase); try lia.
    exists m', e'. split; [exact E|]. lia.
  - assert (D : Zpos (digits2_pos P) = 106%Z).
    { apply digits2_pos_unique. split; [exact Hd|].
      change (2 ^ 106)%Z with 81129638414606681695789005144064%Z. lia. }
    destruct (binary_round_aux_normal P (e + -50) 106 D) as (m' & e' & E & Hcase); try lia.
    exists m', e'. split; [exact E|]. lia.
Qed.

(** X8.  A [View3D] in perspective mode does not reach [gluPerspective]
    on a window of height zero: computing the aspect [w / h] raises
    [ZeroDivisionError], whatever the width and the camera parameters. *)
Theorem begin_raises_on_zero_height (self : ViewMode) (w h : float) :
  cls self = View3D -> ortho self = false -> (h =? 0) = true ->
  begin self w h = Raise ZeroDivisionError.
Proof.
  intros Ec Eo Eh. unfold begin, truediv. rewrite Ec, Eo, Eh. reflexivity.
Qed.

Lemma begin_raises_on_zero_height_witness :
  begin View3D_init 640 0 = Raise ZeroDivisionError /\
  begin View3D_init 0 (-0) = Raise ZeroDivisionError.
Proof.
  split.
  - apply (begin_raises_on_zero_height View3D_init 640 0); reflexivity.
  - apply (begin_raises_on_zero_height View3D_init 0 (-0)); reflexivity.
Defined.

Lemma ui_transform_reads (v v' : ViewMode) (length : float) :
  cls v' = cls v -> azimuth v' = azimuth v -> elevation v' = elevation v ->
  ui_transform v' length = ui_transform v length.
Proof. unfold ui_transform. intros -> -> ->. reflexivity. Qed.

Lemma do_call_angles (v v' : ViewMode) (c : call) :
  (forall dx dy, c <> Rotate dx dy) -> do_call v c = Ok v' ->
  cls v' = cls v /\ azimuth v' = azimuth v /\ elevation v' = elevation v.
Proof.
  intros Hc E. destruct (do_call_frame _ _ _ E) as (_ & _ & F).
  split; [exact F|]. destruct c as [dx dy|dx dy|dx dy]; cbn [do_call] in E.
  - exfalso. apply (Hc dx dy). reflexivity.
  - destruct (gesture_frames v dx dy) as (_ & _ & Hp).
    destruct (Hp _ E) as (_ & Ha & He & _). auto.
  - injection E as <-.
    destruct (gesture_frames v dx dy) as ((_ & _ & _ & Ha & He & _) & _). auto.
Qed.

(** X9.  The overlay transform does not follow panning and zooming: after
    any sequence of [pan] and [zoom] calls [ui_transform] issues the calls
    it issued before. *)
Theorem ui_transform_ignores_pan_and_zoom (calls : list call) :
  forall (v v' : ViewMode) (length : float),
    Forall (fun c => forall dx dy, c <> Rotate dx dy) calls ->
    run calls v = Ok v' ->
    ui_transform v' length = ui_transform v length.
Proof.
  induction calls as [|c calls IH]; intros v v' length Hc Hrun; cbn [run] in Hrun.
  - injection Hrun as <-. reflexivity.
  - inversion Hc as [|c0 l Hc1 Hc2]; subst.
    destruct (do_call v c) as [v1|] eqn:E; [|discriminate].
    destruct (do_call_angles v v1 c Hc1 E) as (F1 & F2 & F3).
    rewrite (IH v1 v' length Hc2 Hrun). apply ui_transform_reads; assumption.
Qed.

Lemma ui_transform_ignores_pan_and_zoom_witness :
  ui_transform (zoom (set_y (set_x View2D_init (0 + 7 * PAN_FACTOR))
                            (0 - 1 * PAN_FACTOR)) 0 1) 50
  = ui_transform View2D_init 50.
Proof.
  apply (ui_transform_ignores_pan_and_zoom [Pan 7 1; Zoom 0 1] View2D_init).
  - repeat constructor; intros dx dy H; discriminate H.
  - reflexivity.
Defined.

(** X10.  [display_transform] makes one [glScale] call.  With the zoom
    factor in range its factor is at least [0.1]: it is the zoom factor
    itself, or [4.5] times the zoom factor on a [View3D] in orthographic
    mode. *)
Theorem display_transform_scale (self : ViewMode) (w h : float) :
  in_zoom_range (zoom_factor self) = true ->
  exists f,
    scale_factors (snd (display_transform self w h)) = [f] /\
    (ZOOM_MIN <=? f) = true /\
    (cls self = View2D \/ ortho self = false -> f = zoom_factor self) /\
    (cls self = View3D -> ortho self = true -> f = zoom_factor self * ZOOM_ORTHO_ADJ).
Proof.
  intros H. pose proof H as Hr. unfold in_zoom_range in Hr.
  apply andb_true_iff in Hr. destruct Hr as [Hlo _].
  unfold display_transform.
  destruct (cls self) eqn:Ec; [|destruct (ortho self) eqn:Eo].
  - exists (zoom_factor self). cbn. repeat split; auto; intros; discriminate.
  - exists (zoom_factor self * ZOOM_ORTHO_ADJ). cbn [snd scale_factors].
    split; [reflexivity|]. split; [|split; [intros [?|?]; discriminate|reflexivity]].
    destruct (in_zoom_range_inv _ H) as (m & e & E & Hm & Hl & Hu).
    destruct (SFmul_4_5_grows m e Hm ltac:(lia)) as (m' & e' & E' & Hle).
    rewrite FloatAxioms.leb_spec, FloatAxioms.mul_spec, E, Prim2SF_ZOOM_ORTHO_ADJ,
      Prim2SF_ZOOM_MIN.
    change (SF64mul (S754_finite false m e) c4_5)
      with (SFmul 53 1024 (S754_finite false m e) c4_5).
    rewrite E'. apply SFleb_finite_pos. lia.
  - exists (zoom_factor self). cbn. repeat split; auto; intros; discriminate.
Qed.

Lemma display_transform_scale_witness :
  scale_factors (snd (display_transform View3D_init 640 480)) = [1].
Proof.
  destruct (display_transform_scale View3D_init 640 480 eq_refl)
    as (f & E & _ & Hf & _).
  rewrite E, (Hf (or_intror eq_refl)). reflexivity.
Defined.

End ViewsGLMore.


(** ** actors.py: what the Gcode arrays hold *)

Module GcodeMore.
Section WithArith.
Context {num : Type} {A : Num.Arith num} {M : Num.Math num}.
Import Actors ActorsDraw GcodeSpec GcodeContent GcodeArrays Indexing GcodeModelFacts.

Lemma endpoints_length (l : list (@Movement num)) :
  length (flat_map endpoints l) = (2 * length l)%nat.
Proof. induction l as [|m l IH]; simpl; [reflexivity|]. lia. Qed.

Lemma movements_content (layer : list (@Movement num)) :
  forall st : @lists num,
    vertex_list (fold_left movement_step layer st)
      = vertex_list st ++ flat_map endpoints layer /\
    color_list (fold_left movement_step layer st)
      = color_list st ++ map movement_color layer /\
    arrow_list (fold_left movement_step layer st)
      = arrow_list st ++ flat_map rotated_arrow layer.
Proof.
  induction layer as [|m layer IH]; intros st; cbn [fold_left flat_map map].
  - rewrite !app_nil_r. repeat split.
  - destruct (IH (movement_step st m)) as (Hv & Hc & Ha). rewrite Hv, Hc, Ha.
    cbn [movement_step vertex_list color_list arrow_list].
    rewrite <- !app_assoc. repeat split.
Qed.

Lemma layer_step_content (st : @lists num) (layer : list (@Movement num)) :
  vertex_list (layer_step st layer) = vertex_list st ++ flat_map endpoints layer /\
  color_list (layer_step st layer) = color_list st ++ map movement_color layer /\
  arrow_list (layer_step st layer) = arrow_list st ++ flat_map rotated_arrow layer /\
  layer_stops_list (layer_step st layer)
    = layer_stops_list st
      ++ [Z.of_nat (length (vertex_list st) + 2 * length layer)].
Proof.
  destruct (movements_content layer st) as (Hv & Hc & Ha).
  destruct (movements_frame layer st) as (F1 & F2 & _).
  unfold layer_step. cbn [vertex_list color_list arrow_list layer_stops_list].
  split; [exact Hv|]. split; [exact Hc|]. split; [exact Ha|].
  rewrite F1. unfold len. rewrite F2. reflexivity.
Qed.

Lemma layers_content (model_data : list (list (@Movement num))) :
  forall st : @lists num,
    let st' := fold_left layer_step model_data st in
    vertex_list st' = vertex_list st ++ flat_map endpoints (concat model_data) /\
    color_list st' = color_list st ++ map movement_color (concat model_data) /\
    arrow_list st' = arrow_list st ++ flat_map rotated_arrow (concat model_data) /\
    layer_stops_list st'
      = layer_stops_list st ++ stops_after (length (vertex_list st)) model_data.
Proof.
  induction model_data as [|layer model_data IH]; intros st; cbn [fold_left concat].
  - cbn. rewrite !app_nil_r. repeat split.
  - destruct (layer_step_content st layer) as (Hv & Hc & Ha & Hs).
    destruct (IH (layer_step st layer)) as (Hv' & Hc' & Ha' & Hs').
    cbn zeta in Hv', Hc', Ha', Hs'. cbn zeta.
    rewrite Hv', Hc', Ha', Hs', Hv, Hc, Ha, Hs.
    rewrite !flat_map_app, map_app, <- !app_assoc.
    split; [reflexivity|]. split; [reflexivity|]. split; [reflexivity|].
    cbn [stops_after app]. rewrite length_app, endpoints_length. reflexivity.
Qed.

Lemma stops_after_length (model_data : list (list (@Movement num))) :
  forall c, length (stops_after c model_data) = length model_data.
Proof.
  induction model_data as [|l d IH]; intros c; cbn [stops_after length]; [reflexivity|].
  rewrite IH. reflexivity.
Qed.

(** What [GcodeModel.__init__] stores, written from the movements. *)
Lemma GcodeModel_init_content (model_data : list (list (@Movement num))) :
  exists g,
    GcodeModel_init model_data = Ok g /\
    vertices (g_model g) = map Vector.as_float32 (flat_map endpoints (concat model_data)) /\
    colors g = map (map Num.float32) (map movement_color (concat model_data)) /\
    layer_stops g = 0%Z :: stops_after 0 model_data /\
    length (arrows g) = (3 * length (concat model_data))%nat /\
    Forall (fun rows => length rows = (3 * length (concat model_data))%nat) (arrows g) /\
    arrows_enabled g = true /\
    num_layers_to_draw g = len model_data.
Proof.
  destruct (@initial_lists_ok num) as [Hi Hs].
  destruct (layers_spec model_data _ Hi Hs) as (Hi' & _ & _ & C & _).
  destruct (layers_content model_data
              {| vertex_list := []; color_list := []; layer_stops_list := [0%Z];
                 arrow_list := [] |}) as (Hv & Hc & _ & Hst).
  cbn zeta in Hv, Hc, Hst. cbn [vertex_list color_list layer_stops_list app length] in Hv, Hc, Hst.
  destruct (finish_in_step _ Hi') as (arr & E & Ev & Ec & El & Ea & Er).
  unfold GcodeModel_init, create_vertex_arrays. rewrite layers_fold. cbn [bind].
  rewrite E. cbn [bind].
  eexists. split; [reflexivity|].
  cbn [g_model vertices colors layer_stops arrows arrows_enabled num_layers_to_draw].
  rewrite Hc, length_map in Ea, Er.
  rewrite Ev, Ec, El, Hv, Hc, Hst.
  repeat split; auto. unfold len. cbn [length]. rewrite stops_after_length. lia.
Qed.

(** X11.  The vertex array holds the two end points of every movement,
    converted to dtype ['f'], in the order of the layers and of the
    movements in them, and the color array the color of every movement,
    converted likewise, in the same order. *)
Theorem arrays_follow_movements (model_data : list (list (@Movement num))) :
  exists g,
    GcodeModel_init model_data = Ok g /\
    vertices (g_model g) = map Vector.as_float32 (flat_map endpoints (concat model_data)) /\
    colors g = map (map Num.float32) (map movement_color (concat model_data)).
Proof.
  destruct (GcodeModel_init_content model_data) as (g & E & Hv & Hc & _).
  exists g. auto.
Qed.

Lemma stops_after_nth (model_data : list (list (@Movement num))) :
  forall (c n : nat),
    (n <= length model_data)%nat ->
    nth_error (Z.of_nat c :: stops_after c model_data) n
    = Some (Z.of_nat (c + 2 * length (concat (firstn n model_data)))).
Proof.
  induction model_data as [|layer rest IH]; intros c n Hn.
  - simpl in Hn. assert (n = 0%nat) by lia. subst n. cbn. f_equal. f_equal. lia.
  - destruct n as [|n]; [cbn; f_equal; f_equal; lia|].
    cbn [stops_after nth_error firstn concat].
    rewrite IH by (simpl in Hn; lia). f_equal. f_equal.
    rewrite length_app. lia.
Qed.

Lemma firstn_succ_nth {T : Type} (d : T) (l : list T) :
  forall k, (k < length l)%nat -> firstn (S k) l = firstn k l ++ [nth k l d].
Proof.
  induction l as [|a l IH]; intros k Hk; [simpl in Hk; lia|].
  destruct k as [|k]; [reflexivity|].
  change (a :: firstn (S k) l = a :: (firstn k l ++ [nth k l d])).
  f_equal. apply IH. simpl in Hk. lia.
Qed.

Lemma split_at_layer (model_data : list (list (@Movement num))) (k : nat) :
  (k < length model_data)%nat ->
  concat model_data
  = movements_before model_data k ++ movements_of model_data k
    ++ concat (skipn (S k) model_data) /\
  movements_before model_data (S k)
  = movements_before model_data k ++ movements_of model_data k.
Proof.
  intros Hk. unfold movements_before, movements_of.
  assert (E : firstn (S k) model_data = firstn k model_data ++ [nth k model_data []])
    by (apply firstn_succ_nth; exact Hk).
  split.
  - rewrite <- (firstn_skipn (S k) model_data) at 1.
    rewrite concat_app, E, concat_app. cbn [concat]. rewrite app_nil_r, <- app_assoc.
    reflexivity.
  - rewrite E, concat_app. cbn [concat]. rewrite app_nil_r. reflexivity.
Qed.

Lemma endpoints_32_length (l : list (@Movement num)) :
  length (map Vector.as_float32 (flat_map endpoints l)) = (2 * length l)%nat.
Proof. rewrite length_map. apply endpoints_length. Qed.

(** The draw ranges of a selector, counted in movements. *)
Lemma layer_ranges (model_data : list (list (@Movement num)))
  (g : @GcodeModel num) (n : nat) :
  GcodeModel_init model_data = Ok g ->
  (1 <= n <= length model_data)%nat ->
  let before := movements_before model_data (n - 1) in
  let layer := movements_of model_data (n - 1) in
  let g' := set_num_layers_to_draw g (Z.of_nat n) in
  _display_movements g' true
    = Ok (Z.of_nat (2 * length before), Z.of_nat (2 * length layer)) /\
  _display_movements g' false
    = Ok (0%Z, Z.of_nat (2 * (length before + length layer))) /\
  _display_arrows g'
    = Ok (Z.of_nat (3 * length before), Z.of_nat (3 * length layer)) /\
  display g' true
    = Ok [(Z.of_nat (2 * length before), Z.of_nat (2 * length layer));
          (Z.of_nat (3 * length before), Z.of_nat (3 * length layer))] /\
  slice (vertices (g_model g)) (Z.of_nat (2 * length before)) (Z.of_nat (2 * length layer))
    = map Vector.as_float32 (flat_map endpoints layer) /\
  slice (vertices (g_model g)) 0 (Z.of_nat (2 * (length before + length layer)))
    = map Vector.as_float32 (flat_map endpoints (before ++ layer)).
Proof.
  intros E Hn before layer g'.
  destruct (GcodeModel_init_content model_data)
    as (g0 & E0 & Hv & _ & Hs & _ & _ & Hen & _).
  rewrite E in E0. injection E0 as <-.
  change (0%Z :: stops_after 0 model_data)
    with (Z.of_nat 0 :: stops_after 0 model_data) in Hs.
  destruct (split_at_layer model_data (n - 1) ltac:(lia)) as [Hsplit Hsucc].
  replace (S (n - 1)) with n in Hsucc by lia.
  fold before in Hsplit, Hsucc. fold layer in Hsplit, Hsucc.
  assert (G1 : getitem (layer_stops g) (Z.of_nat n - 1)
               = Ok (Z.of_nat (2 * length before))).
  { rewrite getitem_nonneg by lia. rewrite Hs.
    replace (Z.to_nat (Z.of_nat n - 1)) with (n - 1)%nat by lia.
    rewrite stops_after_nth by lia. reflexivity. }
  assert (G2 : getitem (layer_stops g) (Z.of_nat n)
               = Ok (Z.of_nat (2 * (length before + length layer)))).
  { rewrite getitem_nonneg by lia. rewrite Hs, Nat2Z.id.
    rewrite stops_after_nth by lia.
    change (concat (firstn n model_data)) with (movements_before model_data n).
    rewrite Hsucc, length_app. reflexivity. }
  assert (D1 : _display_movements g' true
               = Ok (Z.of_nat (2 * length before), Z.of_nat (2 * length layer))).
  { unfold Actors._display_movements, g'.
    cbn [set_num_layers_to_draw layer_stops num_layers_to_draw].
    rewrite G1, G2. cbn [bind]. f_equal. f_equal. lia. }
  assert (D3 : _display_arrows g'
               = Ok (Z.of_nat (3 * length before), Z.of_nat (3 * length layer))).
  { unfold Actors._display_arrows, g'.
    cbn [set_num_layers_to_draw layer_stops num_layers_to_draw].
    rewrite G1, G2. cbn [bind].
    rewrite !Nat2Z.inj_mul. cbn [Z.of_nat Pos.of_succ_nat Pos.succ].
    rewrite !(Z.mul_comm 2), !Z.div_mul by lia. f_equal. f_equal; lia. }
  split; [exact D1|]. split; [|split; [exact D3|split; [|split]]].
  - unfold Actors._display_movements, g'.
    cbn [set_num_layers_to_draw layer_stops num_layers_to_draw].
    rewrite G2. reflexivity.
  - unfold display. rewrite D1. cbn [bind].
    replace (arrows_enabled g') with true by (symmetry; exact Hen).
    rewrite D3. reflexivity.
  - unfold slice. rewrite !Nat2Z.id, Hv, Hsplit, !flat_map_app, !map_app.
    rewrite <- (endpoints_32_length before), skipn_app, skipn_all, Nat.sub_diag.
    cbn [skipn app].
    rewrite <- (endpoints_32_length layer), firstn_app, firstn_all, Nat.sub_diag.
    cbn [firstn]. apply app_nil_r.
  - unfold slice. rewrite !Nat2Z.id. cbn [Z.to_nat skipn].
    rewrite Hv, Hsplit, app_assoc, flat_map_app, map_app.
    rewrite <- length_app, <- endpoints_32_length, firstn_app, firstn_all, Nat.sub_diag.
    cbn [firstn]. apply app_nil_r.
Qed.

(** X12.  On a new model and for a selector [n] from 1 to the number of
    layers: in 2D mode the movement range is exactly the vertices of
    layer [n] (two per movement, after those of the layers before it); in
    3D mode it is the vertices of the first [n] layers; the arrow range is
    that of layer [n] alone (three per movement) in both modes. *)
Theorem draw_ranges_per_layer (model_data : list (list (@Movement num)))
  (g : @GcodeModel num) (n : nat) :
  GcodeModel_init model_data = Ok g ->
  (1 <= n <= length model_data)%nat ->
  let before := movements_before model_data (n - 1) in
  let layer := movements_of model_data (n - 1) in
  let g' := set_num_layers_to_draw g (Z.of_nat n) in
  _display_movements g' true
    = Ok (Z.of_nat (2 * length before), Z.of_nat (2 * length layer)) /\
  _display_movements g' false
    = Ok (0%Z, Z.of_nat (2 * (length before + length layer))) /\
  _display_arrows g'
    = Ok (Z.of_nat (3 * length before), Z.of_nat (3 * length layer)) /\
  display g' true
    = Ok [(Z.of_nat (2 * length before), Z.of_nat (2 * length layer));
          (Z.of_nat (3 * length before), Z.of_nat (3 * length layer))] /\
  slice (vertices (g_model g)) (Z.of_nat (2 * length before)) (Z.of_nat (2 * length layer))
    = map Vector.as_float32 (flat_map endpoints layer) /\
  slice (vertices (g_model g)) 0 (Z.of_nat (2 * (length before + length layer)))
    = map Vector.as_float32 (flat_map endpoints (before ++ layer)).
Proof. apply layer_ranges. Qed.

Lemma repeat2_length {T : Type} (l : list T) : length (repeat2 l) = (2 * length l)%nat.
Proof. unfold repeat2. induction l as [|a l IH]; simpl; [reflexivity|]. lia. Qed.

Lemma combine_endpoints_colors (l : list (@Movement num)) :
  combine (map Vector.as_float32 (flat_map endpoints l))
          (repeat2 (map (map Num.float32) (map movement_color l)))
  = flat_map (fun m => map (fun v => (Vector.as_float32 v, map Num.float32 (movement_color m)))
                           (endpoints m)) l.
Proof.
  unfold repeat2. induction l as [|m l IH]; [reflexivity|].
  cbn [flat_map map endpoints app combine]. rewrite IH. reflexivity.
Qed.

Lemma concat_length_rows {T : Type} (k : nat) (l : list (list T)) :
  Forall (fun rows => length rows = k) l -> length (concat l) = (length l * k)%nat.
Proof.
  induction 1 as [|rows l Hr Hl IH]; [reflexivity|].
  cbn [concat length]. rewrite length_app, IH, Hr. lia.
Qed.

(** X13.  The buffers [init] creates.  The color buffer of the vertices
    pairs every vertex with the color of its movement.  The color buffer
    of the arrows holds three colors per movement, but the arrow array,
    made from 1x3 matrices, has one item per arrow row holding as many
    rows again: for [n] movements OpenGL finds [3 * n] times [3 * n]
    vertices in the arrow buffer, against [3 * n] colors. *)
Theorem init_buffer_sizes (model_data : list (list (@Movement num))) :
  exists g,
    GcodeModel_init model_data = Ok g /\
    combine (vertex_buffer (init g)) (vertex_color_buffer (init g))
      = flat_map (fun m => map (fun v => (Vector.as_float32 v,
                                          map Num.float32 (movement_color m)))
                               (endpoints m))
                 (concat model_data) /\
    length (vertex_color_buffer (init g)) = length (vertex_buffer (init g)) /\
    exists ab acb,
      arrow_buffer (init g) = Some ab /\ arrow_color_buffer (init g) = Some acb /\
      length acb = (3 * movement_count model_data)%nat /\
      length ab = (3 * movement_count model_data)%nat /\
      length (gl_vertices ab)
        = (3 * movement_count model_data * (3 * movement_count model_data))%nat.
Proof.
  destruct (GcodeModel_init_content model_data)
    as (g & E & Hv & Hc & _ & Ha & Hrows & Hen & _).
  exists g. split; [exact E|]. unfold init. cbn [vertex_buffer vertex_color_buffer
    arrow_buffer arrow_color_buffer]. rewrite Hen, Hv, Hc.
  split; [|split].
  - apply combine_endpoints_colors.
  - rewrite repeat2_length, !length_map, endpoints_length. reflexivity.
  - eexists. eexists. split; [reflexivity|]. split; [reflexivity|].
    unfold movement_count, gl_vertices.
    rewrite repeat3_length, !length_map, (concat_length_rows _ _ Hrows), Ha.
    repeat split.
Qed.

Lemma odd_items_endpoints (l : list (@Movement num)) :
  odd_items (map Vector.as_float32 (flat_map endpoints l))
  = map (fun m => Vector.as_float32 (end_point m)) l.
Proof.
  induction l as [|m l IH]; [reflexivity|].
  cbn [flat_map endpoints app map odd_items]. rewrite IH. reflexivity.
Qed.

Lemma map_repeat3 {S T : Type} (f : S -> T) (l : list S) :
  map f (repeat3 l) = flat_map (fun a => [f a; f a; f a]) l.
Proof.
  unfold repeat3. induction l as [|a l IH]; [reflexivity|].
  cbn [flat_map map app]. rewrite IH. reflexivity.
Qed.

Lemma first_row {S T : Type} (f : S -> list T) (u : S) (us : list S) (k : nat) :
  length (f u) = k -> firstn k (concat (map f (u :: us))) = f u.
Proof.
  intros <-. cbn [map concat].
  rewrite firstn_app, firstn_all, Nat.sub_diag. cbn [firstn]. apply app_nil_r.
Qed.

Lemma length_triples {S T : Type} (f : S -> T) (l : list S) :
  length (flat_map (fun a => let v := f a in [v; v; v]) l) = (3 * length l)%nat.
Proof.
  induction l as [|a l IH]; [reflexivity|].
  change (flat_map (fun a => let v := f a in [v; v; v]) (a :: l))
    with ([f a; f a; f a] ++ flat_map (fun a => let v := f a in [v; v; v]) l).
  rewrite length_app, IH. cbn [length]. lia.
Qed.

(** The arrow array of a model with at least one movement. *)
Lemma GcodeModel_init_arrows (model_data : list (list (@Movement num))) :
  concat model_data <> [] ->
  exists g,
    GcodeModel_init model_data = Ok g /\
    arrows_enabled g = true /\
    arrows g
    = map (fun u => flat_map (fun m => let v := Vector.row_add u (Vector.as_float32 (end_point m))
                                       in [v; v; v])
                             (concat model_data))
          (map Vector.as_float32 (flat_map rotated_arrow (concat model_data))).
Proof.
  intros Hne.
  destruct (@initial_lists_ok num) as [Hi Hs].
  destruct (layers_spec model_data _ Hi Hs) as (Hi' & _ & _ & _ & _).
  destruct (layers_content model_data
              {| vertex_list := []; color_list := []; layer_stops_list := [0%Z];
                 arrow_list := [] |}) as (Hv & Hc & Ha & _).
  cbn zeta in Hv, Hc, Ha. cbn [vertex_list color_list arrow_list app] in Hv, Hc, Ha.
  destruct (finish_in_step _ Hi') as (arr & E & _).
  assert (Harr := finish_arrows _ arr Hi' ltac:(rewrite Hc; destruct (concat model_data);
                                                 [congruence|discriminate]) E).
  unfold GcodeModel_init, create_vertex_arrays. rewrite layers_fold. cbn [bind].
  rewrite E. cbn [bind].
  eexists. split; [reflexivity|]. split; [reflexivity|]. cbn [arrows].
  rewrite Harr, Hv, Ha, odd_items_endpoints. apply map_ext. intros u.
  rewrite map_repeat3, flat_map_concat_map, map_map, <- flat_map_concat_map. reflexivity.
Qed.

(** X24.  With the arrow array made from 1x3 matrices, the vertices the
    arrow draw calls reach, the first [3 * n] of the arrow buffer, are not
    the arrows of the movements: they are the end point of every movement
    taken three times, each time moved by one and the same row, the first
    row of the rotated arrow of the first movement.  The three vertices of
    every triangle drawn are the same point. *)
Theorem drawn_arrows_are_points (model_data : list (list (@Movement num)))
  (m0 : @Movement num) (rest : list (@Movement num)) :
  concat model_data = m0 :: rest ->
  exists g ab tip,
    GcodeModel_init model_data = Ok g /\
    arrow_buffer (init g) = Some ab /\
    hd_error (rotated_arrow m0) = Some tip /\
    firstn (3 * length (m0 :: rest)) (gl_vertices ab)
    = flat_map (fun m => let v := Vector.row_add (Vector.as_float32 tip)
                                                 (Vector.as_float32 (end_point m))
                         in [v; v; v])
               (m0 :: rest) /\
    (forall n, (1 <= n <= length model_data)%nat ->
       exists first count,
         _display_arrows (set_num_layers_to_draw g (Z.of_nat n)) = Ok (first, count) /\
         (0 <= first)%Z /\ (0 <= count)%Z /\
         (first + count <= Z.of_nat (3 * length (m0 :: rest)))%Z).
Proof.
  intros Hc.
  destruct (GcodeModel_init_arrows model_data) as (g & E & Hen & Ha);
    [rewrite Hc; discriminate|].
  destruct (rotated_arrow_spec m0) as [_ L].
  destruct (rotated_arrow m0) as [|tip tail] eqn:Et; [discriminate L|].
  exists g, (arrows g), tip. split; [exact E|].
  split; [unfold init; cbn [arrow_buffer]; rewrite Hen; reflexivity|].
  split; [reflexivity|].
  split; [|intros n Hn;
           destruct (layer_ranges model_data g n E Hn) as (_ & _ & D3 & _);
           destruct (split_at_layer model_data (n - 1) ltac:(lia)) as [Hsplit _];
           apply (f_equal (@length _)) in Hsplit;
           rewrite Hc, !length_app in Hsplit;
           eexists; eexists; split; [exact D3|]; lia].
  rewrite Ha, Hc.
  change (flat_map rotated_arrow (m0 :: rest))
    with (rotated_arrow m0 ++ flat_map rotated_arrow rest).
  rewrite Et.
  change (map Vector.as_float32 ((tip :: tail) ++ flat_map rotated_arrow rest))
    with (Vector.as_float32 tip
          :: map Vector.as_float32 (tail ++ flat_map rotated_arrow rest)).
  unfold gl_vertices.
  apply (first_row
           (fun u => flat_map
                       (fun m => let v := Vector.row_add u (Vector.as_float32 (end_point m))
                                 in [v; v; v])
                       (m0 :: rest))
           (Vector.as_float32 tip)).
  apply (length_triples
           (fun m => Vector.row_add (Vector.as_float32 tip) (Vector.as_float32 (end_point m)))).
Qed.

End WithArith.

Lemma drawn_arrows_are_points_witness :
  exists g ab,
    Actors.GcodeModel_init [[Samples.plain_movement]] = Ok g /\
    ActorsDraw.arrow_buffer (ActorsDraw.init g) = Some ab /\
    exists v, firstn 3 (GcodeContent.gl_vertices ab) = [v; v; v].
Proof.
  destruct (drawn_arrows_are_points [[Samples.plain_movement]] Samples.plain_movement []
              eq_refl) as (g & ab & tip & E & Eb & _ & H & _).
  exists g, ab. split; [exact E|]. split; [exact Eb|].
  eexists. exact H.
Defined.

Lemma draw_ranges_per_layer_witness :
  exists g,
    Actors.GcodeModel_init
      [[Samples.plain_movement]; [Samples.plain_movement; Samples.plain_movement]] = Ok g /\
    Actors._display_movements (Actors.set_num_layers_to_draw g 2) true = Ok (2, 4)%Z /\
    Actors._display_arrows (Actors.set_num_layers_to_draw g 2) = Ok (3, 6)%Z.
Proof.
  destruct (GcodeModelFacts.GcodeModel_init_spec
              [[Samples.plain_movement]; [Samples.plain_movement; Samples.plain_movement]])
    as (g & E & _).
  exists g. split; [exact E|].
  destruct (draw_ranges_per_layer _ g 2 E ltac:(simpl; lia)) as (D1 & _ & D3 & _).
  split; [exact D1|exact D3].
Defined.

End GcodeMore.

(** ** actors.py: bounding boxes *)

Module MeshMore.
Import Actors ModelSpec MeshSpec StlFacts RealFacts.
Local Open Scope R_scope.

Lemma fold_min_spec (l : list R) :
  forall a, fold_left Rmin l a <= a /\
            Forall (fun b => fold_left Rmin l a <= b) l /\
            In (fold_left Rmin l a) (a :: l).
Proof.
  induction l as [|b l IH]; intros a; cbn [fold_left].
  - split; [lra|]. split; [constructor|left; reflexivity].
  - destruct (IH (Rmin a b)) as (H1 & H2 & H3).
    pose proof (Rmin_l a b). pose proof (Rmin_r a b).
    split; [lra|]. split; [constructor; [lra|exact H2]|].
    destruct H3 as [H3|H3]; [|right; right; exact H3].
    rewrite <- H3. unfold Rmin. destruct (Rle_dec a b); [left|right; left]; reflexivity.
Qed.

Lemma fold_max_spec (l : list R) :
  forall a, a <= fold_left Rmax l a /\
            Forall (fun b => b <= fold_left Rmax l a) l /\
            In (fold_left Rmax l a) (a :: l).
Proof.
  induction l as [|b l IH]; intros a; cbn [fold_left].
  - split; [lra|]. split; [constructor|left; reflexivity].
  - destruct (IH (Rmax a b)) as (H1 & H2 & H3).
    pose proof (Rmax_l a b). pose proof (Rmax_r a b).
    split; [lra|]. split; [constructor; [lra|exact H2]|].
    destruct H3 as [H3|H3]; [|right; right; exact H3].
    rewrite <- H3. unfold Rmax. destruct (Rle_dec a b); [right; left|left]; reflexivity.
Qed.

(** The least and the greatest of a non-empty row. *)
Lemma reduce_min_spec (row : list R) (m : R) :
  reduce Num.minimum row = Ok m -> In m row /\ Forall (fun b => m <= b) row.
Proof.
  destruct row as [|a l]; [discriminate|]. cbn [reduce]. intros H. injection H as <-.
  destruct (fold_min_spec l a) as (H1 & H2 & H3).
  split; [exact H3|]. constructor; assumption.
Qed.

Lemma reduce_max_spec (row : list R) (m : R) :
  reduce Num.maximum row = Ok m -> In m row /\ Forall (fun b => b <= m) row.
Proof.
  destruct row as [|a l]; [discriminate|]. cbn [reduce]. intros H. injection H as <-.
  destruct (fold_max_spec l a) as (H1 & H2 & H3).
  split; [exact H3|]. constructor; assumption.
Qed.

Lemma reduce_min_perm (r1 r2 : list R) :
  Permutation r1 r2 -> reduce Num.minimum r1 = reduce Num.minimum r2.
Proof.
  intros P. destruct r1 as [|a1 l1].
  - apply Permutation_nil in P. subst. reflexivity.
  - destruct r2 as [|a2 l2]; [symmetry in P; apply Permutation_nil in P; discriminate|].
    destruct (reduce_min_spec (a1 :: l1) _ eq_refl) as [I1 F1].
    destruct (reduce_min_spec (a2 :: l2) _ eq_refl) as [I2 F2].
    cbn [reduce] in *. f_equal. rewrite Forall_forall in F1, F2.
    apply Rle_antisym.
    + apply F1. apply (Permutation_in _ (Permutation_sym P)). exact I2.
    + apply F2. apply (Permutation_in _ P). exact I1.
Qed.

Lemma reduce_max_perm (r1 r2 : list R) :
  Permutation r1 r2 -> reduce Num.maximum r1 = reduce Num.maximum r2.
Proof.
  intros P. destruct r1 as [|a1 l1].
  - apply Permutation_nil in P. subst. reflexivity.
  - destruct r2 as [|a2 l2]; [symmetry in P; apply Permutation_nil in P; discriminate|].
    destruct (reduce_max_spec (a1 :: l1) _ eq_refl) as [I1 F1].
    destruct (reduce_max_spec (a2 :: l2) _ eq_refl) as [I2 F2].
    cbn [reduce] in *. f_equal. rewrite Forall_forall in F1, F2.
    apply Rle_antisym.
    + apply F2. apply (Permutation_in _ P). exact I1.
    + apply F1. apply (Permutation_in _ (Permutation_sym P)). exact I2.
Qed.

(** X18.  In exact arithmetic the box of a model with at least one vertex
    contains every vertex, and each coordinate of its two corners is that
    coordinate of some vertex: the box is the least one around the
    vertices, and its upper corner is not below its lower corner. *)
Theorem bounding_box_is_tight (self : @Model R) (box : @BoundingBox R) :
  _calculate_bounding_box self = Ok box ->
  Forall (inside box) (vertices self) /\
  (exists u v w, In u (vertices self) /\ In v (vertices self) /\ In w (vertices self) /\
     lower_corner box = (fst (fst u), snd (fst v), snd w)) /\
  (exists u v w, In u (vertices self) /\ In v (vertices self) /\ In w (vertices self) /\
     upper_corner box = (fst (fst u), snd (fst v), snd w)).
Proof.
  unfold _calculate_bounding_box, row_min, row_max, xyz_rows.
  set (vs := vertices self).
  destruct (reduce Num.minimum (map (fun v => fst (fst v)) vs)) as [lx|] eqn:Elx; [|discriminate].
  destruct (reduce Num.minimum (map (fun v => snd (fst v)) vs)) as [ly|] eqn:Ely; [|discriminate].
  destruct (reduce Num.minimum (map snd vs)) as [lz|] eqn:Elz; [|discriminate].
  destruct (reduce Num.maximum (map (fun v => fst (fst v)) vs)) as [ux|] eqn:Eux; [|discriminate].
  destruct (reduce Num.maximum (map (fun v => snd (fst v)) vs)) as [uy|] eqn:Euy; [|discriminate].
  destruct (reduce Num.maximum (map snd vs)) as [uz|] eqn:Euz; [|discriminate].
  cbn [bind]. intros H. injection H as <-.
  destruct (reduce_min_spec _ _ Elx) as [Ilx Flx].
  destruct (reduce_min_spec _ _ Ely) as [Ily Fly].
  destruct (reduce_min_spec _ _ Elz) as [Ilz Flz].
  destruct (reduce_max_spec _ _ Eux) as [Iux Fux].
  destruct (reduce_max_spec _ _ Euy) as [Iuy Fuy].
  destruct (reduce_max_spec _ _ Euz) as [Iuz Fuz].
  rewrite Forall_forall in Flx, Fly, Flz, Fux, Fuy, Fuz.
  split; [|split].
  - apply Forall_forall. intros [[a b] c] Hin. cbn.
    pose proof (Flx a (in_map (fun v => fst (fst v)) _ _ Hin)).
    pose proof (Fux a (in_map (fun v => fst (fst v)) _ _ Hin)).
    pose proof (Fly b (in_map (fun v => snd (fst v)) _ _ Hin)).
    pose proof (Fuy b (in_map (fun v => snd (fst v)) _ _ Hin)).
    pose proof (Flz c (in_map snd _ _ Hin)).
    pose proof (Fuz c (in_map snd _ _ Hin)).
    cbn in *. lra.
  - apply in_map_iff in Ilx, Ily, Ilz.
    destruct Ilx as (u & Eu & Hu), Ily as (v & Ev & Hv), Ilz as (w & Ew & Hw).
    exists u, v, w. cbn. rewrite Eu, Ev, Ew. auto.
  - apply in_map_iff in Iux, Iuy, Iuz.
    destruct Iux as (u & Eu & Hu), Iuy as (v & Ev & Hv), Iuz as (w & Ew & Hw).
    exists u, v, w. cbn. rewrite Eu, Ev, Ew. auto.
Qed.

Lemma bounding_box_is_tight_witness :
  exists box,
    _calculate_bounding_box (s_model (StlModel_init Samples.one_triangle)) = Ok box /\
    Forall (inside box) (fst Samples.one_triangle).
Proof.
  eexists. split; [reflexivity|].
  exact (proj1 (bounding_box_is_tight
                  (s_model (StlModel_init Samples.one_triangle)) _ eq_refl)).
Defined.

(** X19.  In exact arithmetic the box does not depend on the order of the
    vertices: two models whose vertex arrays are permutations of each
    other have the same box (or both raise). *)
Theorem bounding_box_ignores_order (m1 m2 : @Model R) :
  Permutation (vertices m1) (vertices m2) ->
  _calculate_bounding_box m1 = _calculate_bounding_box m2.
Proof.
  intros P. unfold _calculate_bounding_box, row_min, row_max, xyz_rows.
  rewrite (reduce_min_perm _ _ (Permutation_map (fun v => fst (fst v)) P)).
  rewrite (reduce_min_perm _ _ (Permutation_map (fun v => snd (fst v)) P)).
  rewrite (reduce_min_perm _ _ (Permutation_map snd P)).
  rewrite (reduce_max_perm _ _ (Permutation_map (fun v => fst (fst v)) P)).
  rewrite (reduce_max_perm _ _ (Permutation_map (fun v => snd (fst v)) P)).
  rewrite (reduce_max_perm _ _ (Permutation_map snd P)).
  reflexivity.
Qed.

Lemma bounding_box_ignores_order_witness :
  _calculate_bounding_box {| vertices := [(0, 0, 0); (1, 2, 3)]; _bounding_box := None |}
  = _calculate_bounding_box {| vertices := [(1, 2, 3); (0, 0, 0)]; _bounding_box := None |}.
Proof.
  apply bounding_box_ignores_order. cbn [vertices]. apply perm_swap.
Defined.

End MeshMore.

(** ** actors.py: the mesh transformations *)

Module StlMore.
Import Actors ModelSpec MeshSpec StlFacts RealFacts.

Section WithArith.
Context {num : Type} {A : Num.Arith num} {M : Num.Math num}.

(** X21.  None of the three transformations touches the normals (a
    rotated mesh keeps its old normals) or changes the number of vertices,
    and [translate] and [rotate] keep the scaling factor, whenever they
    return.  On a mesh without vertices [translate] and [rotate] raise
    [ValueError], whereas [scale] returns the mesh with the new factor. *)
Theorem transforms_keep_normals (self : @StlModel num) :
  (forall x y z self',
     translate self x y z = Ok self' ->
     normals self' = normals self /\
     length (vertices (s_model self')) = length (vertices (s_model self)) /\
     scaling_factor self' = scaling_factor self) /\
  (forall angle x y z self',
     rotate self angle x y z = Ok self' ->
     normals self' = normals self /\
     length (vertices (s_model self')) = length (vertices (s_model self)) /\
     scaling_factor self' = scaling_factor self) /\
  (forall factor self',
     scale self factor = Ok self' ->
     normals self' = normals self /\
     length (vertices (s_model self')) = length (vertices (s_model self))) /\
  (vertices (s_model self) = [] ->
     (forall x y z, translate self x y z = Raise ValueError) /\
     (forall angle x y z, rotate self angle x y z = Raise ValueError) /\
     (forall factor k,
        Num.eqb factor (scaling_factor self) = false ->
        Num.truediv factor (scaling_factor self) = Ok k ->
        scale self factor =
          Ok {| s_model := {| vertices := []; _bounding_box := None |};
                normals := normals self;
                scaling_factor := factor |})).
Proof.
  split; [|split; [|split]].
  - intros x y z self' E.
    destruct (translate_inv _ _ _ _ _ E) as (_ & _ & Hn & Hs & Hl). auto.
  - intros angle x y z self' E.
    destruct (rotate_inv _ _ _ _ _ _ E) as (_ & _ & Hn & Hs & Hl). auto.
  - intros factor self'. unfold scale.
    destruct (Num.eqb factor (scaling_factor self)); cbn [negb].
    + intros H. injection H as <-. auto.
    + destruct (Num.truediv factor (scaling_factor self)); cbn [bind]; [|discriminate].
      intros H. injection H as <-. cbn. rewrite length_map. auto.
  - intros Hempty. split; [|split].
    + intros x y z. apply translate_empty. exact Hempty.
    + intros angle x y z. apply rotate_empty. exact Hempty.
    + intros factor k Hne Hk. rewrite (scale_other self factor k Hne Hk), Hempty.
      reflexivity.
Qed.

End WithArith.

Local Open Scope R_scope.

Lemma transforms_keep_normals_witness :
  exists self',
    translate Samples.boxed_triangle 1 1 1 = Ok self' /\
    normals self' = normals Samples.boxed_triangle /\
    length (vertices (s_model self')) = 3%nat.
Proof.
  eexists. split; [apply translate_returns; discriminate|].
  destruct (transforms_keep_normals Samples.boxed_triangle) as (H & _).
  destruct (H 1 1 1 _ (translate_returns Samples.boxed_triangle 1 1 1 ltac:(discriminate)))
    as (Hn & Hl & _).
  split; [exact Hn|exact Hl].
Defined.

(** X23.  In exact arithmetic a mesh whose scaling factor is 0 cannot be
    scaled again: [scale] with the factor 0 changes nothing, and [scale]
    with any other factor raises [ZeroDivisionError]. *)
Theorem scale_from_zero_raises (self : @StlModel R) (factor : R) :
  scaling_factor self = 0 ->
  (factor = 0 -> scale self factor = Ok self) /\
  (factor <> 0 -> scale self factor = Raise ZeroDivisionError).
Proof.
  intros H. split; intros Hf.
  - apply scale_same. apply eqb_true. congruence.
  - apply scale_raises.
    + apply eqb_false. congruence.
    + rewrite H. apply truediv_zero.
Qed.

Lemma scale_from_zero_raises_witness :
  scale {| s_model := {| vertices := [(0, 0, 0)]; _bounding_box := None |};
           normals := [(0, 0, 1)]; scaling_factor := 0 |} 2
  = Raise ZeroDivisionError.
Proof.
  apply (scale_from_zero_raises
           {| s_model := {| vertices := [(0, 0, 0)]; _bounding_box := None |};
              normals := [(0, 0, 1)]; scaling_factor := 0 |} 2 eq_refl). lra.
Defined.

End StlMore.
